(** * cicd/cli.py: a shallow embedding of the CI/CD orchestrator

    The Python module [cicd/cli.py] is a command sequencer over a file
    system, subprocesses and three libraries (Jinja2, the Kubernetes client
    and ansible-runner).  Its functions are embedded as programs of a
    state-and-exception monad over a file system and a log of the calls made
    to the outside world; the libraries are parameters of the development.

    Conventions of the embedding:
    - a Python [str] is a [string]; its characters are read as the code
      points below 256;
    - a [pathlib.Path] is the list of its parts;
    - a [dict] with string keys is a [gmap string _]. *)

From Stdlib Require Import ZArith Ascii.
From stdpp Require Import base gmap strings list sorting pretty.

Local Open Scope Z_scope.

(** ** Python string methods *)

Module Str.

(** [str.isspace] on one character: the white space of [str.strip]. *)
Definition isspace (c : ascii) : bool :=
  let n := Ascii.N_of_ascii c in
  ((9 <=? n) && (n <=? 13) || (28 <=? n) && (n <=? 32)
   || (n =? 133) || (n =? 160))%N.

(** The line boundaries of [str.splitlines]. *)
Definition islinebreak (c : ascii) : bool :=
  let n := Ascii.N_of_ascii c in
  ((10 <=? n) && (n <=? 13) || (28 <=? n) && (n <=? 30) || (n =? 133))%N.

Fixpoint lstrip (s : string) : string :=
  match s with
  | String c s' => if isspace c then lstrip s' else s
  | EmptyString => EmptyString
  end.

Fixpoint rstrip (s : string) : string :=
  match s with
  | String c s' =>
      match rstrip s' with
      | EmptyString => if isspace c then EmptyString else String c EmptyString
      | r => String c r
      end
  | EmptyString => EmptyString
  end.

(** [s.strip()] *)
Definition strip (s : string) : string := rstrip (lstrip s).

(** [s.startswith(c)] for a one-character prefix. *)
Definition startswith (c : ascii) (s : string) : bool :=
  match s with
  | String d _ => Ascii.eqb d c
  | EmptyString => false
  end.

(** [c in s] for a one-character needle. *)
Fixpoint contains (c : ascii) (s : string) : bool :=
  match s with
  | String d s' => Ascii.eqb d c || contains c s'
  | EmptyString => false
  end.

(** [bool(s)]: a string is truthy when it is not empty. *)
Definition truthy (s : string) : bool :=
  match s with
  | EmptyString => false
  | String _ _ => true
  end.

(** [s.split(c, 1)]: at most one split, at the first [c]. *)
Fixpoint split1 (c : ascii) (s : string) : list string :=
  match s with
  | EmptyString => [EmptyString]
  | String d s' =>
      if Ascii.eqb d c then [EmptyString; s']
      else match split1 c s' with
           | h :: t => String d h :: t
           | [] => []
           end
  end.

(** [s.splitlines()]: [cur] is the line being read, reversed. *)
Fixpoint splitlines_go (cur : string) (s : string) : list string :=
  match s with
  | EmptyString =>
      match cur with
      | EmptyString => []
      | _ => [String.rev cur]
      end
  | String c s' =>
      if Ascii.eqb c "013" then
        match s' with
        | String "010" s'' => String.rev cur :: splitlines_go EmptyString s''
        | _ => String.rev cur :: splitlines_go EmptyString s'
        end
      else if islinebreak c then String.rev cur :: splitlines_go EmptyString s'
      else splitlines_go (String c cur) s'
  end.

Definition splitlines (s : string) : list string :=
  splitlines_go EmptyString s.

(** The newline translation of a file read in text mode (universal
    newlines): [\r\n] and a lone [\r] are read as [\n]. *)
Fixpoint universal_newlines (s : string) : string :=
  match s with
  | EmptyString => EmptyString
  | String c s' =>
      if Ascii.eqb c "013" then
        match s' with
        | String "010" s'' => String "010" (universal_newlines s'')
        | _ => String "010" (universal_newlines s')
        end
      else String c (universal_newlines s')
  end.

(** [s.split(c)] *)
Fixpoint split (c : ascii) (s : string) : list string :=
  match s with
  | EmptyString => [EmptyString]
  | String d s' =>
      if Ascii.eqb d c then EmptyString :: split c s'
      else match split c s' with
           | h :: t => String d h :: t
           | [] => []
           end
  end.

(** [s.rfind(c)], [None] standing for -1. *)
Fixpoint rfind (c : ascii) (s : string) : option nat :=
  match s with
  | EmptyString => None
  | String d s' =>
      match rfind c s' with
      | Some i => Some (S i)
      | None => if Ascii.eqb d c then Some 0%nat else None
      end
  end.

(** The slices [s[i:]] and [s[:i]]. *)
Fixpoint slice_from (i : nat) (s : string) : string :=
  match i, s with
  | S i', String _ s' => slice_from i' s'
  | _, _ => s
  end.

Fixpoint slice_to (i : nat) (s : string) : string :=
  match i, s with
  | S i', String c s' => String c (slice_to i' s')
  | _, _ => EmptyString
  end.

(** [sep.join(l)] *)
Fixpoint join (sep : string) (l : list string) : string :=
  match l with
  | [] => EmptyString
  | [x] => x
  | x :: l' => x +:+ sep +:+ join sep l'
  end.

End Str.

(** ** Paths

    A [pathlib.Path] is the list of its parts; an absolute path starts with
    the part ["/"] (or ["//"]), and the empty list is the path ["."].  The
    flavour is the POSIX one, which is where [which] lives. *)

Abbreviation path := (list string).

Module Path.

(** The root of [Path(s)]: one leading slash, or three and more, give the
    root ["/"]; exactly two are kept as the root ["//"]. *)
Definition root_of (s : string) : path :=
  match s with
  | String "/" (String "/" (String "/" _)) => ["/"%string]
  | String "/" (String "/" _) => ["//"%string]
  | String "/" _ => ["/"%string]
  | _ => []
  end.

(** [Path(s)]: the root, and the parts between slashes but for the empty
    ones and the ["."] ones, which are dropped. *)
Definition of_str (s : string) : path :=
  root_of s ++ filter (λ c, c ≠ EmptyString ∧ c ≠ "."%string) (Str.split "/" s).

(** [p / s] *)
Definition joinpath (p : path) (s : string) : path :=
  if Str.startswith "/" s then of_str s else p ++ of_str s.

(** [str(p)] *)
Definition str (p : path) : string :=
  match p with
  | [] => "."
  | "/"%string :: rest => "/" +:+ Str.join "/" rest
  | "//"%string :: rest => "//" +:+ Str.join "/" rest
  | _ => Str.join "/" p
  end.

(** [p.name]: the last part, and the empty string for a root. *)
Definition name (p : path) : string :=
  match p with
  | ["/"%string] => EmptyString
  | ["//"%string] => EmptyString
  | _ => default EmptyString (last p)
  end.

(** [p.parent]: a root and ["."] are their own parents. *)
Definition parent (p : path) : path :=
  match p with
  | ["/"%string] => p
  | ["//"%string] => p
  | _ => take (length p - 1) p
  end.

(** [p.suffix]: the last dot of the name starts the suffix, unless it is
    the first or the last character of the name. *)
Definition name_suffix (name : string) : string :=
  match Str.rfind "." name with
  | Some i =>
      if bool_decide (0 < i < String.length name - 1)%nat
      then Str.slice_from i name else EmptyString
  | None => EmptyString
  end.

Definition suffix (p : path) : string := name_suffix (name p).

(** [p.stem]: the name without its suffix. *)
Definition name_stem (name : string) : string :=
  match Str.rfind "." name with
  | Some i =>
      if bool_decide (0 < i < String.length name - 1)%nat
      then Str.slice_to i name else name
  | None => name
  end.

Definition stem (p : path) : string := name_stem (name p).

(** The match of one path part against a pattern with the wildcards [*]
    and [?], as [fnmatch] translates it (the program's only pattern has no
    bracket expression, and none is modelled). *)
Fixpoint fnmatch (pat : string) (name : string) : bool :=
  match pat with
  | EmptyString =>
      match name with EmptyString => true | _ => false end
  | String "*" pat' =>
      (fix any (name : string) : bool :=
         fnmatch pat' name
         || match name with
            | EmptyString => false
            | String _ name' => any name'
            end) name
  | String "?" pat' =>
      match name with
      | String _ name' => fnmatch pat' name'
      | EmptyString => false
      end
  | String c pat' =>
      match name with
      | String d name' => Ascii.eqb c d && fnmatch pat' name'
      | EmptyString => false
      end
  end.

End Path.

(** ** Exceptions, the file system and the log of outside calls *)

(** The exceptions the program meets; all of them are subclasses of
    [Exception]. *)
Inductive exn :=
  | FileNotFoundError (p : path)
  | IsADirectoryError (p : path)
  | NotADirectoryError (p : path)
  | FileExistsError (p : path)
  | ValueError (msg : string)
  | CalledProcessError (returncode : Z) (cmd : list string)
  | Exit (code : Z)                       (* typer.Exit *)
  | LibraryError (msg : string).          (* raised inside a library *)

(** [str(e)] of an exception, as the f-strings print it; the program only
    prints errors raised inside a library, and the texts of the built-in
    exceptions are kept short here. *)
Definition exn_str (e : exn) : string :=
  match e with
  | FileNotFoundError p => "No such file or directory: " +:+ Path.str p
  | IsADirectoryError p => "Is a directory: " +:+ Path.str p
  | NotADirectoryError p => "Not a directory: " +:+ Path.str p
  | FileExistsError p => "File exists: " +:+ Path.str p
  | ValueError msg => msg
  | CalledProcessError rc cmd =>
      "Command " +:+ Str.join " " cmd +:+ " returned non-zero exit status "
      +:+ pretty rc
  | Exit code => pretty code
  | LibraryError msg => msg
  end.

(** A node of the file system: a directory lists the names of its entries,
    in the order the operating system yields them; a regular file holds its
    text. *)
Inductive node :=
  | Directory (entries : list string)
  | RegularFile (data : string).

(** The file system maps the paths that are there to their nodes.  A path
    is looked up by the parts it is written with: POSIX leaves what a path
    under the root ["//"] names to the system, and such a path is kept here
    under its own root, apart from ["/"]. *)
Abbreviation filesystem := (gmap path node).

(** A value decoded by [json.loads]. *)
#[warnings="-register-all"] Inductive json :=
  | JNull
  | JBool (b : bool)
  | JInt (n : Z)
  | JFloat (repr : string)
  | JString (s : string)
  | JArray (items : list json)
  | JObject (members : list (string * json)).

(** The [extravars] handed to ansible-runner: a dictionary of strings built
    by the program, or whatever [json.loads] returned. *)
Inductive extravars :=
  | VarsDict (d : gmap string string)
  | VarsJson (j : json).

Inductive colour := RED | GREEN | YELLOW | CYAN.

(** The calls the program makes to the outside world, in the order they are
    made. *)
Inductive event :=
  | Echo (msg : string) (fg : option colour)        (* typer.echo, typer.secho *)
  | Spawn (cmd : list string) (rc : Z)              (* subprocess.call, check_call *)
  | LoadKubeConfig (incluster : bool)               (* config.load_*_config *)
  | CreateFromYaml (yf : path) (failure : option exn) (* utils.create_from_yaml *)
  | AnsibleRun (playbook : string) (ev : extravars) (rc : Z).

Record state := State { fs : filesystem; log : list event }.

(** The collaborators of the program.  What a subprocess, the cluster or a
    playbook answers may depend on all the calls made before. *)
Record world := World {
  ROOT : path;                           (* Path(__file__).resolve().parents[1] *)
  environ : string → option string;      (* os.environ.get *)
  subprocess_exit : list event → list string → Z;
  load_config : list event → bool → option exn;
  create_from_yaml : list event → path → string → option exn;
  jinja_render : string → string → gmap string string → exn + string;
  json_loads : string → exn + json;
  ansible_rc : list event → string → extravars → Z;
}.

(** ** The monad of the embedding: state and exceptions *)

Definition M (A : Type) : Type := state → state * (exn + A).

Definition ret {A} (x : A) : M A := λ st, (st, inr x).

Definition bind {A B} (m : M A) (f : A → M B) : M B := λ st,
  match m st with
  | (st', inr x) => f x st'
  | (st', inl e) => (st', inl e)
  end.

Declare Scope M_scope.
Delimit Scope M_scope with M.
Bind Scope M_scope with M.
Notation "x ← y ; z" := (bind y (λ x : _, z))
  (at level 20, y at level 100, z at level 200, only parsing) : M_scope.
Notation "' x ← y ; z" := (bind y (λ x : _, z))
  (at level 20, x pattern, y at level 100, z at level 200, only parsing) : M_scope.
Notation "x ;; z" := (bind x (λ _, z))
  (at level 100, z at level 200, only parsing, right associativity) : M_scope.
Local Open Scope M_scope.

Definition raise {A} (e : exn) : M A := λ st, (st, inl e).

(** [try: body except Exception as e: handler e] *)
Definition try_except {A} (body : M A) (handler : exn → M A) : M A := λ st,
  match body st with
  | (st', inr x) => (st', inr x)
  | (st', inl e) => handler e st'
  end.

(** [for x in l: body x] *)
Fixpoint for_each {A} (l : list A) (body : A → M unit) : M unit :=
  match l with
  | [] => ret tt
  | x :: l' => body x ;; for_each l' body
  end.

Definition emit (ev : event) : M unit := λ st,
  (State (fs st) (log st ++ [ev]), inr tt).

Definition get_log : M (list event) := λ st, (st, inr (log st)).

(** An operation of the file system that may fail and may change it. *)
Definition fs_op {A} (op : filesystem → exn + (filesystem * A)) : M A := λ st,
  match op (fs st) with
  | inr (fs', x) => (State fs' (log st), inr x)
  | inl e => (st, inl e)
  end.

(** [typer.echo(msg)] and [typer.secho(msg, fg=c)] *)
Definition echo (msg : string) : M unit := emit (Echo msg None).
Definition secho (msg : string) (c : colour) : M unit := emit (Echo msg (Some c)).

(** ** File system operations *)

Module FS.

Definition exists_ (p : path) (fs : filesystem) : bool :=
  bool_decide (is_Some (fs !! p)).

Definition is_dir (p : path) (fs : filesystem) : bool :=
  match fs !! p with
  | Some (Directory _) => true
  | _ => false
  end.

(** The error for a path [p] that is not there, as the system finds it on
    the way to [p] from its first part ([done] is the way walked, [todo] what
    is left of [p]): a regular file met before the last part is no directory;
    otherwise [p] is not found. *)
Fixpoint absent_go (done todo p : path) (fs : filesystem) : exn :=
  match todo with
  | c :: (_ :: _) as todo' =>
      match fs !! (done ++ [c]) with
      | Some (RegularFile _) => NotADirectoryError p
      | Some (Directory _) => absent_go (done ++ [c]) todo' p fs
      | None => FileNotFoundError p
      end
  | _ => FileNotFoundError p
  end.

Definition absent (p : path) (fs : filesystem) : exn := absent_go [] p p fs.

(** [p.iterdir()]: the directory is listed when the loop starts. *)
Definition iterdir (p : path) (fs : filesystem) : exn + list path :=
  match fs !! p with
  | Some (Directory entries) => inr ((λ n, p ++ [n]) <$> entries)
  | Some (RegularFile _) => inl (NotADirectoryError p)
  | None => inl (absent p fs)
  end.

(** [sorted(p.glob(pat))] for a pattern of one part: the matching entries
    of [p], of whatever kind, and nothing when [p] is no directory.  The
    paths share their parent, so they are ordered by their names, and the
    names by their code points. *)
Definition sorted_glob (p : path) (pat : string) (fs : filesystem) : list path :=
  match fs !! p with
  | Some (Directory entries) =>
      (λ n, p ++ [n])
        <$> merge_sort String.le (filter (λ n, Path.fnmatch pat n = true) entries)
  | _ => []
  end.

(** What [open(p)] for reading finds. *)
Definition open_read (p : path) (fs : filesystem) : exn + string :=
  match fs !! p with
  | Some (RegularFile data) => inr data
  | Some (Directory _) => inl (IsADirectoryError p)
  | None => inl (absent p fs)
  end.

(** [p.read_text()]: text mode, so with universal newlines. *)
Definition read_text (p : path) (fs : filesystem) : exn + string :=
  match open_read p fs with
  | inr data => inr (Str.universal_newlines data)
  | inl e => inl e
  end.

(** [p.write_text(data)]: creates the file or replaces its content; a new
    file is listed last in its directory. *)
Definition write_text (p : path) (data : string) (fs : filesystem)
  : exn + filesystem :=
  match last p with
  | None => inl (IsADirectoryError p)
  | Some n =>
      if bool_decide (n = ".."%string) then inl (IsADirectoryError p) else
      match fs !! Path.parent p with
      | Some (Directory entries) =>
          match fs !! p with
          | Some (Directory _) => inl (IsADirectoryError p)
          | Some (RegularFile _) => inr (<[p := RegularFile data]> fs)
          | None =>
              inr (<[p := RegularFile data]>
                     (<[Path.parent p := Directory (entries ++ [n])]> fs))
          end
      | Some (RegularFile _) => inl (NotADirectoryError p)
      | None => inl (absent p fs)
      end
  end.

(** [os.mkdir(p)] under [exist_ok=True]. *)
Definition mkdir (p : path) (fs : filesystem) : exn + filesystem :=
  match fs !! p with
  | Some (Directory _) => inr fs
  | Some (RegularFile _) => inl (FileExistsError p)
  | None =>
      match fs !! Path.parent p with
      | Some (Directory entries) =>
          inr (<[p := Directory []]>
                 (<[Path.parent p := Directory (entries ++ [Path.name p])]> fs))
      | Some (RegularFile _) => inl (NotADirectoryError p)
      | None => inl (absent p fs)
      end
  end.

(** [p.mkdir(parents=True, exist_ok=True)], [p] being [done ++ todo]: the
    missing ancestors are made from the outermost one; a regular file met on
    the way is no directory, and one met at [p] itself exists. *)
Fixpoint mkdir_parents (done todo : path) (fs : filesystem) : exn + filesystem :=
  match todo with
  | [] => inr fs
  | c :: todo' =>
      match mkdir (done ++ [c]) fs with
      | inr fs' => mkdir_parents (done ++ [c]) todo' fs'
      | inl e =>
          match e, todo' with
          | FileExistsError _, _ :: _ => inl (NotADirectoryError (done ++ todo))
          | _, _ => inl e
          end
      end
  end.

End FS.

(** ** The program *)

(** An accumulating loop: [for x in l: s = body s x]. *)
Fixpoint fold_each {A S} (l : list A) (body : S → A → M S) (s : S) : M S :=
  match l with
  | [] => ret s
  | x :: l' => s' ← body s x; fold_each l' body s'
  end.

Definition lift {A} (r : exn + A) : M A := λ st, (st, r).

Definition read_text (p : path) : M string :=
  fs_op (λ fs, match FS.read_text p fs with
               | inr s => inr (fs, s)
               | inl e => inl e
               end).

Definition write_text (p : path) (data : string) : M unit :=
  fs_op (λ fs, match FS.write_text p data fs with
               | inr fs' => inr (fs', tt)
               | inl e => inl e
               end).

Definition is_dir (p : path) : M bool := λ st, (st, inr (FS.is_dir p (fs st))).
Definition path_exists (p : path) : M bool := λ st, (st, inr (FS.exists_ p (fs st))).
Definition iterdir (p : path) : M (list path) := λ st, (st, FS.iterdir p (fs st)).
Definition sorted_glob (p : path) (pat : string) : M (list path) :=
  λ st, (st, inr (FS.sorted_glob p pat (fs st))).

Section cli.
Context (w : world).

Definition MANIFEST_DIR : path :=
  Path.joinpath (Path.joinpath (ROOT w) "openshift") "manifests".
Definition BUILD_DIR : path :=
  Path.joinpath (Path.joinpath (ROOT w) "build") "manifests".

(** *** [_load_env_values] *)

(** The body of the loop over the lines; [ret values] where the source
    says [continue]. *)
Definition load_line (values : gmap string string) (line : string)
  : M (gmap string string) :=
  let line := Str.strip line in
  if negb (Str.truthy line) || Str.startswith "#" line
     || negb (Str.contains "=" line)
  then ret values
  else
    match Str.split1 "=" line with
    | [k; v] => ret (<[Str.strip k := Str.strip v]> values)
    | _ => raise (ValueError "wrong number of values to unpack")
    end.

Definition _load_env_values (values_file : option string)
  : M (gmap string string) :=
  match values_file with
  | None => ret ∅
  | Some f =>
      if negb (Str.truthy f) then ret ∅ else
      text ← read_text (Path.of_str f);
      fold_each (Str.splitlines text) load_line ∅
  end.

(** *** [_ensure_dir], [_oc_available], [_kubectl_available] *)

Definition _ensure_dir (p : path) : M unit :=
  fs_op (λ fs, match FS.mkdir_parents [] p fs with
               | inr fs' => inr (fs', tt)
               | inl e => inl e
               end).

(** [subprocess.call(cmd)]: the process is run and its exit status
    returned (the executable is taken to start: no [OSError]). *)
Definition subprocess_call (cmd : list string) : M Z :=
  l ← get_log;
  let rc := subprocess_exit w l cmd in
  emit (Spawn cmd rc);;
  ret rc.

(** [subprocess.check_call(cmd)]: a non-zero status raises
    [CalledProcessError]. *)
Definition subprocess_check_call (cmd : list string) : M unit :=
  rc ← subprocess_call cmd;
  if rc =? 0 then ret tt else raise (CalledProcessError rc cmd).

Definition _oc_available : M bool :=
  rc ← subprocess_call ["which"; "oc"]%string;
  ret (rc =? 0).

Definition _kubectl_available : M bool :=
  rc ← subprocess_call ["which"; "kubectl"]%string;
  ret (rc =? 0).

(** *** [_kube_login_if_needed] *)

Definition config_load (incluster : bool) : M unit :=
  l ← get_log;
  emit (LoadKubeConfig incluster);;
  match load_config w l incluster with
  | Some e => raise e
  | None => ret tt
  end.

Definition _kube_login_if_needed : M unit :=
  try_except
    (if from_option Str.truthy false (environ w "KUBERNETES_SERVICE_HOST")
     then config_load true
     else config_load false)
    (λ e, secho ("[warn] kubeconfig not loaded: " +:+ exn_str e) YELLOW).

(** *** [oc_login] *)

Definition oc_login (cluster_api token : string)
    (insecure_skip_tls_verify : bool) : M unit :=
  oc ← _oc_available;
  if negb oc then
    secho "oc not found in PATH. Install OpenShift CLI." RED;;
    raise (Exit 1)
  else
    let cmd := ["oc"; "login"; cluster_api; "--token=" +:+ token]%string in
    let cmd := if insecure_skip_tls_verify
               then cmd ++ ["--insecure-skip-tls-verify=true"%string]
               else cmd in
    echo ("Running: " +:+ Str.join " " cmd);;
    subprocess_check_call cmd;;
    secho "Logged in with oc." GREEN.

(** *** [render] *)

(** [env.get_template(name).render] on the values: the loader reads the
    template from [MANIFEST_DIR] as it is stored; what Jinja makes of it is
    the collaborator's answer. *)
Definition get_template_render (name : string) (vars_ : gmap string string)
  : M string :=
  λ st,
    match FS.open_read (MANIFEST_DIR ++ [name]) (fs st) with
    | inr source => (st, jinja_render w name source vars_)
    | inl _ => (st, inl (LibraryError ("TemplateNotFound: " +:+ name)))
    end.

Definition render_entry (vars_ : gmap string string) (outdir : string)
    (tmpl : path) : M unit :=
  d ← is_dir tmpl;
  if d then ret tt
  else if bool_decide (Path.suffix tmpl = ".j2"%string) then
    rendered ← get_template_render (Path.name tmpl) vars_;
    let out_path := Path.joinpath (Path.of_str outdir) (Path.stem tmpl) in
    write_text out_path rendered;;
    secho ("Rendered " +:+ Path.name tmpl +:+ " -> " +:+ Path.str out_path) CYAN
  else
    let out_path := Path.joinpath (Path.of_str outdir) (Path.name tmpl) in
    text ← read_text tmpl;
    write_text out_path text;;
    secho ("Copied " +:+ Path.name tmpl +:+ " -> " +:+ Path.str out_path) CYAN.

Definition render (values : option string) (outdir : string) : M unit :=
  vars_ ← _load_env_values values;
  _ensure_dir (Path.of_str outdir);;
  entries ← iterdir MANIFEST_DIR;
  for_each entries (render_entry vars_ outdir);;
  secho "Render complete." GREEN.

(** *** [_apply_with_python], [_apply_with_oc], [apply] *)

(** [utils.create_from_yaml(k8s_client, yaml_file=f)] on the open file. *)
Definition utils_create_from_yaml (yf : path) (data : string) : M unit :=
  l ← get_log;
  let failure := create_from_yaml w l yf data in
  emit (CreateFromYaml yf failure);;
  match failure with
  | Some e => raise e
  | None => ret tt
  end.

Definition _apply_with_python (manifest_dir : path) : M unit :=
  _kube_login_if_needed;;
  files ← sorted_glob manifest_dir "*.y*ml";
  for_each files (λ yf,
    echo ("Applying " +:+ Path.name yf +:+ " via Python client");;
    f ← fs_op (λ fs, match FS.open_read yf fs with
                     | inr data => inr (fs, data)
                     | inl e => inl e
                     end);
    try_except
      (utils_create_from_yaml yf f)
      (λ e, secho ("  warn: " +:+ exn_str e) YELLOW)).

Definition oc_apply_cmd (yf : path) : list string :=
  ["oc"; "apply"; "-f"; Path.str yf]%string.

Definition _apply_with_oc (manifest_dir : path) : M unit :=
  files ← sorted_glob manifest_dir "*.y*ml";
  for_each files (λ yf,
    let cmd := oc_apply_cmd yf in
    echo ("Running: " +:+ Str.join " " cmd);;
    subprocess_check_call cmd).

Definition apply (manifests : string) : M unit :=
  let mdir := Path.of_str manifests in
  ex ← path_exists mdir;
  (if negb ex then
     secho ("Manifests not found: " +:+ Path.str mdir) RED;;
     raise (Exit 1)
   else ret tt);;
  oc ← _oc_available;
  (if oc then _apply_with_oc mdir
   else
     secho "oc not found, using python client (or kubectl if present)" YELLOW;;
     try_except
       (_apply_with_python mdir)
       (λ e,
          kubectl ← _kubectl_available;
          if kubectl then
            subprocess_check_call ["kubectl"; "apply"; "-f"; Path.str mdir]%string
          else
            secho "Neither oc nor kubectl available." RED;;
            raise e));;
  secho "Apply complete." GREEN.

(** *** [_run_ansible], [deploy], [rollback], [run_playbook] *)

Definition _run_ansible (playbook : string) (ev : extravars) : M Z :=
  echo ("> Ansible playbook: " +:+ playbook);;
  l ← get_log;
  let rc := ansible_rc w l playbook ev in
  emit (AnsibleRun playbook ev rc);;
  ret rc.

Definition deploy_entry (vars_ : gmap string string) (outdir : path)
    (tmpl : path) : M unit :=
  d ← is_dir tmpl;
  if d then ret tt
  else if bool_decide (Path.suffix tmpl = ".j2"%string) then
    rendered ← get_template_render (Path.name tmpl) vars_;
    write_text (Path.joinpath outdir (Path.stem tmpl)) rendered
  else
    text ← read_text tmpl;
    write_text (Path.joinpath outdir (Path.name tmpl)) text.

(** The first phase of [deploy], up to the comment [# Kick ansible
    pipeline]; it leaves [vars_] and [outdir] to the second phase. *)
Definition deploy_render (values : option string)
  : M (gmap string string * path) :=
  vars_ ← _load_env_values values;
  let outdir := Path.joinpath (Path.joinpath (ROOT w) "build") "manifests" in
  _ensure_dir outdir;;
  entries ← iterdir MANIFEST_DIR;
  for_each entries (deploy_entry vars_ outdir);;
  ret (vars_, outdir).

Definition deploy (values : option string) : M unit :=
  '(vars_, outdir) ← deploy_render values;
  rc ← _run_ansible "deploy.yml"
         (VarsDict (vars_ ∪ {["manifest_dir"%string := Path.str outdir]}));
  if negb (rc =? 0) then
    secho ("Deploy failed with code " +:+ pretty rc) RED;;
    raise (Exit rc)
  else secho "Deploy succeeded." GREEN.

Definition rollback (namespace : string) : M unit :=
  rc ← _run_ansible "rollback.yml" (VarsDict {["NAMESPACE"%string := namespace]});
  if negb (rc =? 0) then
    secho "Rollback failed" RED;;
    raise (Exit rc)
  else secho "Rollback succeeded." GREEN.

Definition run_playbook (playbook : string) (extravars_ : option string) : M unit :=
  ev ← (match extravars_ with
        | Some s =>
            if Str.truthy s then
              j ← lift (json_loads w s); ret (VarsJson j)
            else ret (VarsDict ∅)
        | None => ret (VarsDict ∅)
        end);
  rc ← _run_ansible playbook ev;
  raise (Exit rc).

End cli.

(** *** [app()]

    What the process exits with when a command ends.  Click's standalone
    mode, in which [app()] runs the command, exits with 0 when the command
    returns and turns [typer.Exit(code)] into the exit status [code]; any
    other exception of the program is handled by nobody and leaves the
    interpreter with the status 1. *)
Definition exit_status {A} (r : exn + A) : Z :=
  match r with
  | inr _ => 0
  | inl (Exit code) => code
  | inl _ => 1
  end.

(** ** Specification-side definitions *)

(** *** The values file *)

(** A well-formed [KEY=VALUE] line, in the words of the specification: the
    trimmed line does not start with [#] and holds an [=]; the key is the
    trimmed text before the first [=], the value the trimmed text after it. *)
Definition well_formed (line key value : string) : Prop :=
  ∃ a b, Str.strip line = a +:+ "=" +:+ b
       ∧ Str.contains "=" a = false
       ∧ Str.startswith "#" (Str.strip line) = false
       ∧ key = Str.strip a ∧ value = Str.strip b.

(** The lines the specification has the loader skip: blank lines, comment
    lines and lines without [=]. *)
Definition skipped (line : string) : Prop :=
  Str.strip line = EmptyString
  ∨ Str.startswith "#" (Str.strip line) = true
  ∨ Str.contains "=" (Str.strip line) = false.

(** The loop body of the loader without its monad, and the loop as a fold;
    [load_line_pure] and [fold_each_load_line] relate them to the program. *)
Definition parse_line (line : string) : option (string * string) :=
  let line := Str.strip line in
  if negb (Str.truthy line) || Str.startswith "#" line
     || negb (Str.contains "=" line)
  then None
  else
    match Str.split1 "=" line with
    | [k; v] => Some (Str.strip k, Str.strip v)
    | _ => None
    end.

Definition load_pure (lines : list string) (values : gmap string string)
  : gmap string string :=
  foldl (λ m line, match parse_line line with
                   | Some (k, v) => <[k := v]> m
                   | None => m
                   end) values lines.


(** *** The manifest applier *)

Module Spec.

(** ASCII lower case of one character. *)
Definition lower (c : ascii) : ascii :=
  let n := Ascii.N_of_ascii c in
  if ((65 <=? n) && (n <=? 90))%N then Ascii.ascii_of_N (n + 32) else c.

Fixpoint lower_str (s : string) : string :=
  match s with
  | EmptyString => EmptyString
  | String c s' => String (lower c) (lower_str s')
  end.

(** [s.endswith(suffix)] *)
Definition endswith (suffix s : string) : bool :=
  bool_decide (Str.slice_from (String.length s - String.length suffix) s = suffix).

(** The YAML files of the specification: the names matching [*.yml] or
    [*.yaml], whatever the case of the extension. *)
Definition is_yaml (name : string) : bool :=
  endswith ".yml" (lower_str name) || endswith ".yaml" (lower_str name).

(** The files the specification has the applier process: the YAML files
    of the directory, sorted by name. *)
Definition yaml_files (mdir : path) (fs : filesystem) : list path :=
  match fs !! mdir with
  | Some (Directory entries) =>
      (λ n, mdir ++ [n])
        <$> merge_sort String.le (filter (λ n, is_yaml n = true) entries)
  | _ => []
  end.

End Spec.

(** The commands run in a log, with their exit status, and the files
    submitted to the cluster API, in the order of the log. *)
Definition spawned (l : list event) : list (list string * Z) :=
  omap (λ ev, match ev with Spawn cmd rc => Some (cmd, rc) | _ => None end) l.

Definition submitted (l : list event) : list path :=
  omap (λ ev, match ev with CreateFromYaml yf _ => Some yf | _ => None end) l.

Definition playbooks_run (l : list event) : list string :=
  omap (λ ev, match ev with AnsibleRun pb _ _ => Some pb | _ => None end) l.

(** The log [new], written after the log [before], holds the answers of the
    world: each exit status and each answer of the cluster API in it is the
    one the world gives after the calls made before. *)
Fixpoint answers_of (w : world) (fs : filesystem) (before new : list event)
  : Prop :=
  match new with
  | [] => True
  | ev :: new' =>
      match ev with
      | Spawn cmd rc => rc = subprocess_exit w before cmd
      | CreateFromYaml yf failure =>
          ∃ data, FS.open_read yf fs = inr data
                  ∧ failure = create_from_yaml w before yf data
      | _ => True
      end
      ∧ answers_of w fs (before ++ [ev]) new'
  end.

Definition is_file (p : path) (fs : filesystem) : bool :=
  match fs !! p with
  | Some (RegularFile _) => true
  | _ => false
  end.

(** *** A small world to run the program in *)

Module Demo.

Definition nl : string := String "010" EmptyString.

(** [oc] is installed and fails on [a.yaml] with status 3; the cluster API
    refuses [a.yaml]; Jinja puts the template between angle brackets; no
    string is valid JSON. *)
Definition world_oc : world := {|
  ROOT := ["/"; "repo"]%string;
  environ := λ _, None;
  subprocess_exit := λ _ cmd,
    if bool_decide (cmd = oc_apply_cmd ["/"; "m"; "a.yaml"]%string) then 3
    else 0;
  load_config := λ _ _, None;
  create_from_yaml := λ _ yf _,
    if bool_decide (Path.name yf = "a.yaml"%string)
    then Some (LibraryError "rejected") else None;
  jinja_render := λ name source vars_, inr ("<" +:+ source +:+ ">");
  json_loads := λ s, inl (ValueError "Expecting value");
  ansible_rc := λ _ _ _, 0
|}.

(** The same world without [oc] and without [kubectl]. *)
Definition world_bare : world := {|
  ROOT := ROOT world_oc;
  environ := environ world_oc;
  subprocess_exit := λ _ cmd, 1;
  load_config := load_config world_oc;
  create_from_yaml := create_from_yaml world_oc;
  jinja_render := jinja_render world_oc;
  json_loads := json_loads world_oc;
  ansible_rc := ansible_rc world_oc
|}.

(** The same world with [kubectl] only. *)
Definition world_kubectl : world := {|
  ROOT := ROOT world_oc;
  environ := environ world_oc;
  subprocess_exit := λ _ cmd,
    if bool_decide (cmd = ["which"; "oc"]%string) then 1 else 0;
  load_config := load_config world_oc;
  create_from_yaml := create_from_yaml world_oc;
  jinja_render := jinja_render world_oc;
  json_loads := json_loads world_oc;
  ansible_rc := ansible_rc world_oc
|}.

Definition files : filesystem :=
  list_to_map [
    (["/"], Directory ["repo"; "m"; "env"; "odd"; "bad"]);
    (["/"; "bad"], Directory ["x.yaml"]);
    (["/"; "bad"; "x.yaml"], Directory []);
    (["/"; "env"],
     RegularFile ("A=1" +:+ nl +:+ "# note" +:+ nl +:+ " A = 2 " +:+ nl
                  +:+ " =x " +:+ nl +:+ "B=u=v" +:+ nl));
    (["/"; "m"], Directory ["b.yaml"; "a.yaml"; "notes.txt"]);
    (["/"; "m"; "a.yaml"], RegularFile "kind: A");
    (["/"; "m"; "b.yaml"], RegularFile "kind: B");
    (["/"; "m"; "notes.txt"], RegularFile "notes");
    (["/"; "odd"], Directory ["B.YML"; "a.yxml"]);
    (["/"; "odd"; "B.YML"], RegularFile "kind: B");
    (["/"; "odd"; "a.yxml"], RegularFile "<a/>");
    (["/"; "repo"], Directory ["openshift"]);
    (["/"; "repo"; "openshift"], Directory ["manifests"]);
    (["/"; "repo"; "openshift"; "manifests"],
     Directory ["deployment.yaml.j2"; "README.txt"; "charts"]);
    (["/"; "repo"; "openshift"; "manifests"; "deployment.yaml.j2"],
     RegularFile "name: {{APP_NAME}}");
    (["/"; "repo"; "openshift"; "manifests"; "README.txt"],
     RegularFile "read me");
    (["/"; "repo"; "openshift"; "manifests"; "charts"], Directory [])
  ]%string.

Definition start : state := State files [].

(** A source directory where a file and a template share their output
    name, with a file that has a carriage return and a file named [.j2]. *)
Definition clash : filesystem :=
  list_to_map [
    (["/"], Directory ["repo"]);
    (["/"; "repo"], Directory ["openshift"]);
    (["/"; "repo"; "openshift"], Directory ["manifests"]);
    (["/"; "repo"; "openshift"; "manifests"],
     Directory ["a"; "a.j2"; "crlf.txt"; ".j2"]);
    (["/"; "repo"; "openshift"; "manifests"; ".j2"], RegularFile "dot");
    (["/"; "repo"; "openshift"; "manifests"; "a"], RegularFile "plain");
    (["/"; "repo"; "openshift"; "manifests"; "a.j2"], RegularFile "tmpl");
    (["/"; "repo"; "openshift"; "manifests"; "crlf.txt"],
     RegularFile ("x" +:+ String "013" nl +:+ "y"))
  ]%string.

End Demo.

(** *** The renderer *)

Module Out.

(** An entry of the manifest source directory is a template when the suffix
    of its name is [.j2]. *)
Definition is_template (name : string) : bool :=
  bool_decide (Path.name_suffix name = ".j2"%string).

(** The name of the output file of an entry. *)
Definition name (name : string) : string :=
  if is_template name then Path.name_stem name else name.

(** The entries of the source directory that are no directories. *)
Definition is_entry_file (w : world) (fs : filesystem) (name : string) : bool :=
  negb (FS.is_dir (MANIFEST_DIR w ++ [name]) fs).

(** The text of the output file of an entry: what Jinja makes of a template,
    and the text of any other file as text mode reads it. *)
Definition text (w : world) (vars_ : gmap string string) (fs : filesystem)
    (name : string) : exn + string :=
  if is_template name then
    match FS.open_read (MANIFEST_DIR w ++ [name]) fs with
    | inr source => jinja_render w name source vars_
    | inl e => inl (LibraryError ("TemplateNotFound: " +:+ name))
    end
  else FS.read_text (MANIFEST_DIR w ++ [name]) fs.

End Out.

(** *** The test of the loader, [tests/test_cli.py] *)

(** [test_env_loader] up to its two assertions, which are on the mapping
    [vals] it is left with. *)
Definition test_env_loader (tmp_path : path) : M (gmap string string) :=
  let envf := Path.joinpath tmp_path ".env" in
  write_text envf ("APP_NAME=hello" +:+ Demo.nl +:+ "NAMESPACE=demo" +:+ Demo.nl);;
  _load_env_values (Some (Path.str envf)).

(** *** Words for the commands *)

(** The messages printed in a log, with their colours; the configurations
    loaded; the playbooks run, with their variables and exit status. *)
Definition echoed (l : list event) : list (string * option colour) :=
  omap (λ ev, match ev with Echo msg fg => Some (msg, fg) | _ => None end) l.

Definition configs_loaded (l : list event) : list bool :=
  omap (λ ev, match ev with LoadKubeConfig b => Some b | _ => None end) l.

Definition playbook_runs (l : list event) : list (string * extravars * Z) :=
  omap (λ ev, match ev with
              | AnsibleRun pb ev rc => Some (pb, ev, rc)
              | _ => None
              end) l.

(** The command line [oc_login] builds. *)
Definition oc_login_cmd (cluster_api token : string) (insecure : bool)
  : list string :=
  ["oc"; "login"; cluster_api; "--token=" +:+ token]%string
  ++ if insecure then ["--insecure-skip-tls-verify=true"%string] else [].

(** The line [render] prints for an entry of the source directory. *)
Definition render_message (outdir : string) (n : string) : string :=
  (if Out.is_template n then "Rendered " else "Copied ")
  +:+ n +:+ " -> " +:+ Path.str (Path.of_str outdir ++ [Out.name n]).

(** *** Values files written the plain way *)

(** [has_char f s]: some character of [s] satisfies [f]. *)
Fixpoint has_char (f : ascii → bool) (s : string) : bool :=
  match s with
  | EmptyString => false
  | String c s' => f c || has_char f s'
  end.

(** One line [KEY=VALUE] for each pair, each line ended by a newline. *)
Fixpoint env_text (kvs : list (string * string)) : string :=
  match kvs with
  | [] => EmptyString
  | (k, v) :: kvs' => k +:+ "=" +:+ v +:+ Demo.nl +:+ env_text kvs'
  end.

(** A key that such a line gives back as it is: trimmed, without [=] and
    line boundaries, and no comment marker in front. *)
Definition plain_key (k : string) : Prop :=
  Str.strip k = k ∧ Str.contains "=" k = false
  ∧ Str.startswith "#" k = false ∧ has_char Str.islinebreak k = false.

Definition plain_value (v : string) : Prop :=
  Str.strip v = v ∧ has_char Str.islinebreak v = false.

(** The mapping of a list of pairs, a later pair replacing an earlier one
    with its key. *)
Definition env_map (kvs : list (string * string)) : gmap string string :=
  foldl (λ m kv, <[kv.1 := kv.2]> m) ∅ kvs.

(** *** More small worlds *)

Module Lab.

(** A world with [oc] where every command but the probes fails with
    status 7, where the kubeconfig does not load, where ["{}"] is the one
    JSON text, and where playbooks exit with status 4. *)
Definition world_failing : world := {|
  ROOT := ["/"; "repo"]%string;
  environ := λ k,
    if bool_decide (k = "KUBERNETES_SERVICE_HOST"%string)
    then Some "10.0.0.1"%string else None;
  subprocess_exit := λ _ cmd,
    match cmd with
    | "which"%string :: _ => 0
    | _ => 7
    end;
  load_config := λ _ _, Some (LibraryError "no configuration");
  create_from_yaml := λ _ _ _, Some (LibraryError "rejected");
  jinja_render := λ name source vars_, inr source;
  json_loads := λ s,
    if bool_decide (s = "{}"%string) then inr (JObject [])
    else inl (ValueError "Expecting value");
  ansible_rc := λ _ _ _, 4
|}.

(** The same world without [oc] and [kubectl]. *)
Definition world_no_tools : world := {|
  ROOT := ROOT world_failing;
  environ := environ world_failing;
  subprocess_exit := λ _ _, 1;
  load_config := load_config world_failing;
  create_from_yaml := create_from_yaml world_failing;
  jinja_render := jinja_render world_failing;
  json_loads := json_loads world_failing;
  ansible_rc := ansible_rc world_failing
|}.

(** A values file that sets [manifest_dir]. *)
Definition files : filesystem :=
  <[["/"; "vals"]%string :=
      RegularFile ("manifest_dir=/elsewhere" +:+ Demo.nl +:+ "APP=web" +:+ Demo.nl)]>
    (<[["/"%string] := Directory ["repo"; "m"; "env"; "odd"; "bad"; "vals"]%string]>
       Demo.files).

Definition start : state := State files [].

(** A directory where a matched entry is a directory, between two files. *)
Definition mixed : filesystem :=
  list_to_map [
    (["/"], Directory ["mix"]);
    (["/"; "mix"], Directory ["c.yaml"; "b.yaml"; "a.yaml"]);
    (["/"; "mix"; "a.yaml"], RegularFile "kind: A");
    (["/"; "mix"; "b.yaml"], Directory []);
    (["/"; "mix"; "c.yaml"], RegularFile "kind: C")
  ]%string.

End Lab.

(** *** What a program adds to the log *)

(** [appends P m]: from every state, [m] adds only events that satisfy [P]
    to the log, whether it returns or raises. *)
Definition appends (P : event → Prop) {A} (m : M A) : Prop :=
  ∀ st, ∃ new, log (m st).1 = log st ++ new ∧ Forall P new.

(** [reports P final m]: from every state, [m] adds only events that satisfy
    [P], and then the event [final] when it returns, and only then. *)
Definition reports (P : event → Prop) (final : event) (m : M unit) : Prop :=
  ∀ st, ∃ new,
    log (m st).1 = log st ++ new
    ∧ match (m st).2 with
      | inr _ => ∃ new0, new = new0 ++ [final] ∧ Forall P new0
      | inl _ => Forall P new
      end.

(** An event that is no message in green: the colour of the lines that
    report the end of a command. *)
Definition not_green (ev : event) : Prop :=
  match ev with
  | Echo _ (Some GREEN) => False
  | _ => True
  end.

(** A message in cyan: the colour of the lines [render] prints for the
    entries it writes. *)
Definition is_cyan (ev : event) : Prop :=
  match ev with
  | Echo _ (Some CYAN) => True
  | _ => False
  end.

(** *** What a program keeps of the file system *)

(** [keeps m]: from every state, whether it returns or raises, [m] leaves
    every directory a directory and every regular file a regular file: it
    deletes nothing and turns no file into a directory or back. *)
Definition keeps {A} (m : M A) : Prop :=
  ∀ st p,
    (FS.is_dir p (fs st) = true → FS.is_dir p (fs (m st).1) = true)
    ∧ (is_file p (fs st) = true → is_file p (fs (m st).1) = true).

(** * Properties *)

(** ** Strings *)

Example str_ex :
  Str.strip (String "009" " a = b  ") = "a = b"%string
  ∧ Str.strip "   " = EmptyString
  ∧ Str.split1 "=" "k=v=w" = ["k"; "v=w"]%string
  ∧ Str.split1 "=" "kv" = ["kv"]%string
  ∧ Str.splitlines
      (String "a" (String "013" (String "010" (String "010"
         (String "b" (String "010" EmptyString))))))
    = ["a"; EmptyString; "b"]%string
  ∧ Str.splitlines EmptyString = []
  ∧ Str.universal_newlines (String "a" (String "013" (String "010" "b")))
    = String "a" (String "010" "b")
  ∧ Str.join " " ["oc"; "apply"; "-f"]%string = "oc apply -f"%string.
Proof. repeat split; reflexivity. Qed.

Example path_ex :
  Path.of_str "/a//b/./c.yaml.j2" = ["/"; "a"; "b"; "c.yaml.j2"]%string
  ∧ Path.stem ["c.yaml.j2"%string] = "c.yaml"%string
  ∧ Path.suffix ["c.yaml.j2"%string] = ".j2"%string
  ∧ Path.suffix [".j2"%string] = EmptyString
  ∧ Path.stem ["..j2"%string] = "."%string
  ∧ Path.fnmatch "*.y*ml" "a.yaml" = true
  ∧ Path.fnmatch "*.y*ml" ".yml" = true
  ∧ Path.fnmatch "*.y*ml" "a.yxml" = true
  ∧ Path.fnmatch "*.y*ml" "a.YML" = false
  ∧ Path.fnmatch "*.y*ml" "a.yml.bak" = false.
Proof. repeat split; reflexivity. Qed.

Section str_lemmas.
Implicit Types (s a b : string) (c d : ascii).

Lemma app_cons c a s : String c a +:+ s = String c (a +:+ s).
Proof. reflexivity. Qed.

Lemma app_empty s : EmptyString +:+ s = s.
Proof. reflexivity. Qed.

Lemma eqb_true c d : Ascii.eqb c d = true ↔ c = d.
Proof. apply Ascii.eqb_eq. Qed.

Lemma split1_first c a b :
  Str.contains c a = false → Str.split1 c (a +:+ String c b) = [a; b].
Proof.
  induction a as [|d a IH]; intros Ha.
  - rewrite app_empty. simpl. by rewrite Ascii.eqb_refl.
  - rewrite app_cons. simpl in *. apply orb_false_iff in Ha as [Hd Ha].
    rewrite Hd, (IH Ha). done.
Qed.

Lemma contains_split c s :
  Str.contains c s = true →
  ∃ a b, s = a +:+ String c b ∧ Str.contains c a = false.
Proof.
  induction s as [|d s IH]; simpl; [done|].
  destruct (Ascii.eqb d c) eqn:Hd; simpl.
  - intros _. apply eqb_true in Hd as ->. by exists EmptyString, s.
  - intros (a & b & -> & Ha)%IH. exists (String d a), b.
    split; [done|]. simpl. by rewrite Hd.
Qed.

Lemma contains_app c a b :
  Str.contains c (a +:+ b) = Str.contains c a || Str.contains c b.
Proof.
  induction a as [|d a IH]; [done|].
  rewrite app_cons. simpl. by rewrite IH, orb_assoc.
Qed.

Lemma rstrip_cons c s :
  Str.isspace c = false → Str.rstrip (String c s) = String c (Str.rstrip s).
Proof. intros Hc. simpl. rewrite Hc. by destruct (Str.rstrip s). Qed.

Lemma rstrip_idemp s : Str.rstrip (Str.rstrip s) = Str.rstrip s.
Proof.
  induction s as [|c s IH]; [done|]. simpl.
  destruct (Str.rstrip s) as [|d r] eqn:Hr.
  - destruct (Str.isspace c) eqn:Hc; [done|]. simpl. by rewrite Hc.
  - change (Str.rstrip (String c (String d r))) with
      (match Str.rstrip (String d r) with
       | EmptyString => if Str.isspace c then EmptyString else String c EmptyString
       | r' => String c r'
       end).
    by rewrite IH.
Qed.

Lemma lstrip_rstrip s : Str.lstrip (Str.rstrip s) = Str.rstrip (Str.lstrip s).
Proof.
  induction s as [|c s IH]; [done|].
  destruct (Str.isspace c) eqn:Hc.
  - simpl. rewrite Hc, <-IH.
    destruct (Str.rstrip s) as [|d r]; [done|]. simpl. by rewrite Hc.
  - rewrite rstrip_cons by done. cbn [Str.lstrip]. rewrite Hc.
    by rewrite rstrip_cons.
Qed.

Lemma strip_rstrip s : Str.strip (Str.rstrip s) = Str.strip s.
Proof. unfold Str.strip. by rewrite lstrip_rstrip, rstrip_idemp. Qed.

Lemma strip_idemp s : Str.strip (Str.strip s) = Str.strip s.
Proof.
  unfold Str.strip. rewrite lstrip_rstrip, rstrip_idemp.
  f_equal. induction s as [|c s IH]; [done|]. simpl.
  destruct (Str.isspace c) eqn:Hc; [done|]. simpl. by rewrite Hc.
Qed.

Lemma lstrip_app_space a s :
  Str.lstrip a = EmptyString → Str.lstrip (a +:+ s) = Str.lstrip s.
Proof.
  induction a as [|c a IH]; [done|]. rewrite app_cons. simpl.
  destruct (Str.isspace c); [done|]. discriminate.
Qed.

Lemma strip_empty_lstrip a : Str.strip a = EmptyString → Str.lstrip a = EmptyString.
Proof.
  unfold Str.strip. induction a as [|c a IH]; [done|]. simpl.
  destruct (Str.isspace c) eqn:Hc; [done|].
  rewrite rstrip_cons by done. discriminate.
Qed.

(** The first character of a trimmed string is no white space. *)
Lemma lstrip_head c s r : Str.lstrip s = String c r → Str.isspace c = false.
Proof.
  induction s as [|d s IH]; [done|]. simpl.
  destruct (Str.isspace d) eqn:Hd; [done|]. by intros [= <- _].
Qed.

Lemma rstrip_head c s r :
  Str.rstrip s = String c r → ∃ s', s = String c s'.
Proof.
  destruct s as [|d s]; [done|]. simpl.
  destruct (Str.rstrip s); [destruct (Str.isspace d)|]; intros [= <- _]; eauto.
Qed.

Lemma strip_head c s r : Str.strip s = String c r → Str.isspace c = false.
Proof.
  unfold Str.strip. intros (s' & Hs)%rstrip_head. by eapply lstrip_head.
Qed.
End str_lemmas.

(** ** Paths *)

Section path_lemmas.
Implicit Types (p q : path) (n s : string) (c : ascii).

Lemma split_no_sep c s : Str.contains c s = false → Str.split c s = [s].
Proof.
  induction s as [|d s IH]; [done|]. simpl.
  intros [Hd Hs]%orb_false_iff. by rewrite Hd, (IH Hs).
Qed.

Lemma contains_slice_to c i s :
  Str.contains c s = false → Str.contains c (Str.slice_to i s) = false.
Proof.
  revert i. induction s as [|d s IH]; intros [|i]; simpl; try done.
  intros [Hd Hs]%orb_false_iff. by rewrite Hd, IH.
Qed.

Lemma slice_to_from i s : Str.slice_to i s +:+ Str.slice_from i s = s.
Proof.
  revert i. induction s as [|d s IH]; intros [|i]; simpl; try done.
  by rewrite app_cons, IH.
Qed.

Lemma startswith_no_sep s :
  Str.contains "/" s = false → Str.startswith "/" s = false.
Proof.
  destruct s; [done|]. simpl. by intros [-> _]%orb_false_iff.
Qed.

Lemma root_of_relative s : Str.startswith "/" s = false → Path.root_of s = [].
Proof.
  destruct s as [|c s]; [done|]. simpl. intros Hc.
  by destruct c as [[] [] [] [] [] [] [] []].
Qed.

Lemma of_str_no_sep s :
  Str.contains "/" s = false →
  Path.of_str s = if bool_decide (s = EmptyString ∨ s = "."%string) then [] else [s].
Proof.
  intros Hs. unfold Path.of_str. rewrite split_no_sep by done.
  rewrite root_of_relative by (by apply startswith_no_sep).
  rewrite filter_cons, filter_nil. simpl.
  destruct (decide (s ≠ EmptyString ∧ s ≠ "."%string)) as [[H1 H2]|Hd].
  - rewrite bool_decide_false; [done|]. by intros [?|?].
  - rewrite bool_decide_true; [done|].
    destruct (decide (s = EmptyString)); [by left|].
    destruct (decide (s = "."%string)); [by right|]. by destruct Hd.
Qed.

Lemma joinpath_no_sep p s :
  Str.contains "/" s = false →
  Path.joinpath p s
  = if bool_decide (s = EmptyString ∨ s = "."%string) then p else p ++ [s].
Proof.
  intros Hs. unfold Path.joinpath. rewrite of_str_no_sep by done.
  rewrite startswith_no_sep by done.
  case_bool_decide; by rewrite ?app_nil_r.
Qed.

Lemma name_snoc p n : p ≠ [] → Path.name (p ++ [n]) = n.
Proof.
  intros Hp. unfold Path.name. rewrite last_snoc.
  destruct p as [|a [|b p]]; [done|..]; simpl; repeat case_match; done.
Qed.

Lemma parent_snoc_ne p n :
  n ≠ "/"%string → n ≠ "//"%string → Path.parent (p ++ [n]) = p.
Proof.
  intros Hn Hn'. unfold Path.parent.
  assert (take (length (p ++ [n]) - 1) (p ++ [n]) = p) as Htake.
  { rewrite length_app. simpl. replace (length p + 1 - 1)%nat with (length p) by lia.
    by rewrite take_app_length. }
  destruct p as [|a p].
  - simpl. by repeat case_match; subst.
  - rewrite Htake. simpl. repeat case_match; try done; by destruct p.
Qed.

Lemma parent_snoc p n : Str.contains "/" n = false → Path.parent (p ++ [n]) = p.
Proof.
  intros Hn. apply parent_snoc_ne; by intros ->.
Qed.
End path_lemmas.

(** ** Runs *)

(** A run that returns [x] is determined by the state it leaves. *)
Lemma run_inr {A} (m : M A) (st : state) (x : A) :
  (m st).2 = inr x → m st = ((m st).1, inr x).
Proof. destruct (m st) as [st' r]. cbn [fst snd]. by intros ->. Qed.

(** ** The values loader *)

Section loader_lemmas.
Implicit Types (m : gmap string string) (line k v : string) (st : state).

Lemma well_formed_parse line k v :
  well_formed line k v → parse_line line = Some (k, v).
Proof.
  intros (a & b & Hs & Ha & Hh & -> & ->). unfold parse_line.
  change (a +:+ "=" +:+ b) with (a +:+ String "=" b) in Hs.
  rewrite Hh, Hs, contains_app, split1_first by done.
  rewrite Ha. by destruct a.
Qed.

Lemma parse_well_formed line k v :
  parse_line line = Some (k, v) → well_formed line k v.
Proof.
  unfold parse_line.
  destruct (Str.truthy (Str.strip line)) eqn:Ht; [|done].
  destruct (Str.startswith "#" (Str.strip line)) eqn:Hh; [done|].
  destruct (Str.contains "=" (Str.strip line)) eqn:Hc; [|done]. simpl.
  destruct (contains_split _ _ Hc) as (a & b & Hs & Ha).
  rewrite Hs, split1_first by done. intros [= <- <-].
  by exists a, b.
Qed.

Lemma parse_skipped line : parse_line line = None ↔ skipped line.
Proof.
  unfold parse_line, skipped. set (l := Str.strip line).
  destruct (Str.truthy l) eqn:Ht; simpl;
    [|split; [intros _; left; by destruct l|done]].
  destruct (Str.startswith "#" l) eqn:Hh; simpl; [naive_solver|].
  destruct (Str.contains "=" l) eqn:Hc; simpl; [|naive_solver].
  destruct (contains_split _ _ Hc) as (a & b & Hs & Ha).
  rewrite Hs, split1_first by done. split; [done|].
  intros [He|[?|?]]; [|done..]. by destruct a.
Qed.

Lemma skipped_not_well_formed line :
  skipped line ↔ ¬ ∃ k v, well_formed line k v.
Proof.
  rewrite <-parse_skipped. split.
  - intros Hn (k & v & Hw%well_formed_parse). congruence.
  - intros Hn. destruct (parse_line line) as [[k v]|] eqn:Hp; [|done].
    destruct Hn. eauto using parse_well_formed.
Qed.

Lemma load_line_pure m line st :
  load_line m line st
  = (st, inr (match parse_line line with
              | Some (k, v) => <[k := v]> m
              | None => m
              end)).
Proof.
  unfold load_line, parse_line.
  destruct (_ || _) eqn:Hskip; [done|].
  apply orb_false_iff in Hskip as [_ Hc]. apply negb_false_iff in Hc.
  destruct (contains_split _ _ Hc) as (a & b & Hs & Ha).
  by rewrite Hs, split1_first.
Qed.

Lemma fold_each_load_line lines m st :
  fold_each lines load_line m st = (st, inr (load_pure lines m)).
Proof.
  revert m. induction lines as [|line lines IH]; intros m; [done|].
  simpl. unfold bind. by rewrite load_line_pure, IH.
Qed.

Lemma load_env_values_read st f text :
  Str.truthy f = true →
  FS.read_text (Path.of_str f) (fs st) = inr text →
  _load_env_values (Some f) st
  = (st, inr (load_pure (Str.splitlines text) ∅)).
Proof.
  intros Hf Hr. unfold _load_env_values. rewrite Hf. simpl.
  unfold bind, read_text, fs_op. rewrite Hr.
  rewrite fold_each_load_line. by destruct st.
Qed.

Lemma load_pure_app l1 l2 m :
  load_pure (l1 ++ l2) m = load_pure l2 (load_pure l1 m).
Proof. apply foldl_app. Qed.

Lemma load_pure_untouched lines m k :
  (∀ line v, line ∈ lines → ¬ well_formed line k v) →
  load_pure lines m !! k = m !! k.
Proof.
  revert m. induction lines as [|line lines IH]; intros m Hn; [done|].
  simpl. change (foldl _ ?m' lines) with (load_pure lines m').
  rewrite IH by (intros ???; apply Hn; by right).
  destruct (parse_line line) as [[k' v']|] eqn:Hp; [|done].
  apply lookup_insert_ne. intros ->.
  eapply Hn; [by left|]. by apply parse_well_formed.
Qed.

Lemma load_pure_last l1 line l2 m k v :
  well_formed line k v →
  (∀ l v', l ∈ l2 → ¬ well_formed l k v') →
  load_pure (l1 ++ line :: l2) m !! k = Some v.
Proof.
  intros Hw Hn. rewrite load_pure_app. simpl.
  change (foldl _ ?m' l2) with (load_pure l2 m').
  rewrite load_pure_untouched by done.
  rewrite (well_formed_parse _ _ _ Hw). apply lookup_insert_eq.
Qed.

Lemma load_pure_provenance lines m k v :
  load_pure lines m !! k = Some v →
  m !! k = Some v ∨ ∃ line, line ∈ lines ∧ well_formed line k v.
Proof.
  revert m. induction lines as [|line lines IH]; intros m; [by left|].
  simpl. change (foldl _ ?m' lines) with (load_pure lines m').
  intros [Hm|(l & Hl & Hw)]%IH.
  - destruct (parse_line line) as [[k' v']|] eqn:Hp; [|by left].
    destruct (decide (k' = k)) as [->|Hne].
    + rewrite lookup_insert_eq in Hm. injection Hm as ->.
      right. exists line. split; [by left|by apply parse_well_formed].
    + rewrite lookup_insert_ne in Hm by done. by left.
  - right. exists l. split; [by right|done].
Qed.

Lemma load_pure_skip l1 line l2 m :
  skipped line → load_pure (l1 ++ line :: l2) m = load_pure (l1 ++ l2) m.
Proof.
  intros Hs%parse_skipped. rewrite !load_pure_app. simpl. by rewrite Hs.
Qed.

(** A key never starts with [#] and never holds [=]. *)
Lemma well_formed_key line k v :
  well_formed line k v →
  Str.startswith "#" k = false ∧ Str.contains "=" k = false.
Proof.
  intros (a & b & Hs & Ha & Hh & -> & _). split.
  change (a +:+ "=" +:+ b) with (a +:+ String "=" b) in Hs.
  - destruct (Str.strip a) as [|c r] eqn:Hk; [done|].
    unfold Str.strip in Hk. apply rstrip_head in Hk as Hl. destruct Hl as [s' Hl].
    assert (Str.isspace c = false) as Hc by (by eapply lstrip_head).
    destruct a as [|d a]; [done|].
    rewrite app_cons in Hs. rewrite Hs in Hh.
    assert (Str.isspace d = false) as Hd by (by eapply strip_head).
    simpl in Hl. rewrite Hd in Hl. injection Hl as -> _. done.
  - clear Hs Hh. unfold Str.strip.
    assert (∀ s, Str.contains "=" s = false → Str.contains "=" (Str.lstrip s) = false) as Hl.
    { induction s as [|c s IH]; [done|]. simpl.
      intros [Hc Hs]%orb_false_iff. destruct (Str.isspace c); [by apply IH|].
      simpl. by rewrite Hc, Hs. }
    assert (∀ s, Str.contains "=" s = false → Str.contains "=" (Str.rstrip s) = false) as Hr.
    { induction s as [|c s IH]; [done|]. simpl.
      intros [Hc Hs]%orb_false_iff. specialize (IH Hs).
      destruct (Str.rstrip s); [destruct (Str.isspace c)|]; simpl in *; [done|..].
      - by rewrite Hc.
      - by rewrite Hc, IH. }
    by apply Hr, Hl.
Qed.
End loader_lemmas.

Section loader_theorems.
Implicit Types (m : gmap string string) (line k v : string) (st : state).

Lemma load_pure_mono lines m k :
  is_Some (m !! k) → is_Some (load_pure lines m !! k).
Proof.
  revert m. induction lines as [|line lines IH]; intros m Hm; [done|].
  simpl. apply IH. destruct (parse_line line) as [[k' v']|]; [|done].
  rewrite lookup_insert. case_decide; [by eexists|done].
Qed.

Lemma empty_key_well_formed pre rest :
  Str.strip pre = EmptyString →
  well_formed (pre +:+ "=" +:+ rest) EmptyString (Str.strip rest).
Proof.
  intros Hpre%strip_empty_lstrip. exists EmptyString, (Str.rstrip rest).
  assert (Str.strip (pre +:+ "=" +:+ rest) = String "=" (Str.rstrip rest)) as Hs.
  { unfold Str.strip. rewrite lstrip_app_space by done.
    change (Str.lstrip ("=" +:+ rest)) with (String "=" rest).
    by rewrite rstrip_cons. }
  rewrite Hs. by rewrite strip_rstrip.
Qed.
End loader_theorems.

(** C6: for a values file with repeated well-formed [KEY=VALUE] lines for one
    key, the loader returns a mapping that gives the key the value of its
    last occurrence; a line is split at its first [=] only, and key and value
    are trimmed. *)
Theorem load_env_values_last_occurrence st f text l1 line l2 k v :
  Str.truthy f = true →
  FS.read_text (Path.of_str f) (fs st) = inr text →
  Str.splitlines text = l1 ++ line :: l2 →
  well_formed line k v →
  (∀ l v', l ∈ l2 → ¬ well_formed l k v') →
  ∃ m, _load_env_values (Some f) st = (st, inr m) ∧ m !! k = Some v.
Proof.
  intros Hf Hr Hl Hw Hlast. eexists. split.
  - by apply load_env_values_read.
  - rewrite Hl. by apply load_pure_last.
Qed.

(** C7: for a readable values file the loader does not fail, and every entry
    of its mapping comes from a well-formed [key=value] line of the file;
    blank lines, [#] lines and lines without [=] are skipped: they give no
    entry, the file without such a line loads to the same mapping, and no key
    starts with [#] or holds [=]. *)
Theorem load_env_values_skips_malformed st f text :
  Str.truthy f = true →
  FS.read_text (Path.of_str f) (fs st) = inr text →
  ∃ m, _load_env_values (Some f) st = (st, inr m)
     ∧ (∀ k v, m !! k = Some v →
          ∃ line, line ∈ Str.splitlines text ∧ well_formed line k v
                  ∧ ¬ skipped line)
     ∧ (∀ k, is_Some (m !! k) →
          Str.startswith "#" k = false ∧ Str.contains "=" k = false)
     ∧ (∀ l1 line l2 st' f' text',
          Str.splitlines text = l1 ++ line :: l2 → skipped line →
          Str.truthy f' = true →
          FS.read_text (Path.of_str f') (fs st') = inr text' →
          Str.splitlines text' = l1 ++ l2 →
          _load_env_values (Some f') st' = (st', inr m)).
Proof.
  intros Hf Hr. eexists. split; [by apply load_env_values_read|].
  assert (∀ k v, load_pure (Str.splitlines text) ∅ !! k = Some v →
    ∃ line, line ∈ Str.splitlines text ∧ well_formed line k v) as Hprov.
  { intros k v [Hm|?]%load_pure_provenance; [|done].
    by rewrite lookup_empty in Hm. }
  split; [|split].
  - intros k v (line & Hin & Hw)%Hprov. exists line. split_and!; [done..|].
    rewrite skipped_not_well_formed. naive_solver.
  - intros k [v (line & _ & Hw)%Hprov]. by eapply well_formed_key.
  - intros l1 line l2 st' f' text' Hl Hs Hf' Hr' Hl'.
    rewrite (load_env_values_read _ _ _ Hf' Hr'), Hl, Hl'.
    by rewrite load_pure_skip.
Qed.

(** C10: a line whose part before the first [=] is empty or white space is
    not skipped: the loader stores an entry under the empty key, and the
    mapping gives the empty key the trimmed text after that [=], unless a
    later line sets the empty key again. *)
Theorem load_env_values_empty_key st f text l1 line l2 pre rest :
  Str.truthy f = true →
  FS.read_text (Path.of_str f) (fs st) = inr text →
  Str.splitlines text = l1 ++ line :: l2 →
  line = pre +:+ "=" +:+ rest →
  Str.strip pre = EmptyString →
  ¬ skipped line
  ∧ ∃ m, _load_env_values (Some f) st = (st, inr m)
       ∧ is_Some (m !! EmptyString)
       ∧ ((∀ l v', l ∈ l2 → ¬ well_formed l EmptyString v') →
          m !! EmptyString = Some (Str.strip rest)).
Proof.
  intros Hf Hr Hl -> Hpre.
  pose proof (empty_key_well_formed pre rest Hpre) as Hw. split.
  { rewrite skipped_not_well_formed. naive_solver. }
  eexists. split; [by apply load_env_values_read|]. rewrite Hl. split.
  - rewrite load_pure_app. simpl. apply load_pure_mono.
    rewrite (well_formed_parse _ _ _ Hw), lookup_insert_eq. by eexists.
  - intros Hlast. by apply load_pure_last.
Qed.

Lemma load_env_values_last_occurrence_witness :
  ∃ m, _load_env_values (Some "/env"%string) Demo.start = (Demo.start, inr m)
     ∧ m !! "A"%string = Some "2"%string.
Proof.
  apply (load_env_values_last_occurrence Demo.start "/env"
           ("A=1" +:+ Demo.nl +:+ "# note" +:+ Demo.nl +:+ " A = 2 " +:+ Demo.nl
            +:+ " =x " +:+ Demo.nl +:+ "B=u=v" +:+ Demo.nl)
           ["A=1"; "# note"]%string " A = 2 " [" =x "; "B=u=v"]%string "A" "2").
  - reflexivity.
  - vm_compute. reflexivity.
  - vm_compute. reflexivity.
  - exists "A "%string, " 2"%string. repeat split; vm_compute; reflexivity.
  - intros l v' Hin Hw%well_formed_parse.
    apply elem_of_cons in Hin as [->|Hin]; [vm_compute in Hw; discriminate|].
    apply elem_of_cons in Hin as [->|Hin]; [vm_compute in Hw; discriminate|].
    by apply elem_of_nil in Hin.
Defined.

Lemma load_env_values_skips_malformed_witness :
  ∃ m, _load_env_values (Some "/env"%string) Demo.start = (Demo.start, inr m)
     ∧ ∀ k, is_Some (m !! k) →
         Str.startswith "#" k = false ∧ Str.contains "=" k = false.
Proof.
  destruct (load_env_values_skips_malformed Demo.start "/env"
              ("A=1" +:+ Demo.nl +:+ "# note" +:+ Demo.nl +:+ " A = 2 " +:+ Demo.nl
               +:+ " =x " +:+ Demo.nl +:+ "B=u=v" +:+ Demo.nl))
    as (m & Hm & _ & Hkeys & _).
  - reflexivity.
  - vm_compute. reflexivity.
  - exists m. split; [exact Hm|exact Hkeys].
Defined.

Lemma load_env_values_empty_key_witness :
  ∃ m, _load_env_values (Some "/env"%string) Demo.start = (Demo.start, inr m)
     ∧ m !! EmptyString = Some "x"%string.
Proof.
  destruct (load_env_values_empty_key Demo.start "/env"
              ("A=1" +:+ Demo.nl +:+ "# note" +:+ Demo.nl +:+ " A = 2 " +:+ Demo.nl
               +:+ " =x " +:+ Demo.nl +:+ "B=u=v" +:+ Demo.nl)
              ["A=1"; "# note"; " A = 2 "]%string " =x " ["B=u=v"]%string
              " " "x ")
    as (_ & m & Hm & _ & Hv).
  - reflexivity.
  - vm_compute. reflexivity.
  - vm_compute. reflexivity.
  - reflexivity.
  - reflexivity.
  - exists m. split; [exact Hm|]. apply Hv.
    intros l v' Hin Hw%well_formed_parse.
    apply elem_of_cons in Hin as [->|Hin]; [vm_compute in Hw; discriminate|].
    by apply elem_of_nil in Hin.
Defined.

(** The example of the specification: [A=1], then [A=2]. *)
Example load_env_values_A_1_A_2 :
  let st := State {[ ["env"%string] := RegularFile ("A=1" +:+ Demo.nl +:+ "A=2") ]} [] in
  ∃ m, _load_env_values (Some "env"%string) st = (st, inr m)
     ∧ map_to_list m = [("A", "2")]%string.
Proof. eexists. split; vm_compute; reflexivity. Qed.

(** Without a values file the loader returns the empty mapping. *)
Lemma load_env_values_none st : _load_env_values None st = (st, inr ∅).
Proof. reflexivity. Qed.

(** ** The manifest applier *)

Section glob_lemmas.
Implicit Types (pat n a b : string).

Lemma fnmatch_star pat n :
  Path.fnmatch (String "*" pat) n
  = Path.fnmatch pat n
    || match n with
       | EmptyString => false
       | String _ n' => Path.fnmatch (String "*" pat) n'
       end.
Proof. by destruct n. Qed.

Lemma fnmatch_star_split pat n :
  Path.fnmatch (String "*" pat) n = true
  ↔ ∃ a b, n = a +:+ b ∧ Path.fnmatch pat b = true.
Proof.
  induction n as [|c n IH]; rewrite fnmatch_star.
  - rewrite orb_false_r. split.
    + by exists EmptyString, EmptyString.
    + by intros ([] & [] & ? & ?).
  - rewrite orb_true_iff, IH. split.
    + intros [Hm|(a & b & -> & Hm)].
      * by exists EmptyString, (String c n).
      * by exists (String c a), b.
    + intros ([|d a] & b & Hn & Hm).
      * left. by rewrite Hn.
      * right. rewrite app_cons in Hn. injection Hn as -> ->. eauto.
Qed.

Lemma fnmatch_literal (c : ascii) pat n :
  c ≠ "*"%char → c ≠ "?"%char →
  Path.fnmatch (String c pat) n
  = match n with
    | String d n' => Ascii.eqb c d && Path.fnmatch pat n'
    | EmptyString => false
    end.
Proof.
  intros Hstar Hq.
  destruct c as [[] [] [] [] [] [] [] []]; try done; by destruct n.
Qed.

Lemma fnmatch_empty n : Path.fnmatch EmptyString n = true ↔ n = EmptyString.
Proof. by destruct n. Qed.

Lemma fnmatch_cons (c : ascii) pat n :
  c ≠ "*"%char → c ≠ "?"%char →
  Path.fnmatch (String c pat) n = true
  ↔ ∃ r, n = String c r ∧ Path.fnmatch pat r = true.
Proof.
  intros Hstar Hq. rewrite fnmatch_literal by done. destruct n as [|d n].
  - split; [done|]. by intros (r & ? & _).
  - rewrite andb_true_iff, Ascii.eqb_eq. split.
    + intros [-> Hm]. eauto.
    + intros (r & [= -> ->] & Hm). done.
Qed.

Lemma fnmatch_ml n : Path.fnmatch "ml" n = true ↔ n = "ml"%string.
Proof.
  rewrite fnmatch_cons by done. split.
  - intros (r & -> & (r' & -> & ->%fnmatch_empty)%fnmatch_cons); done.
  - intros ->. by exists "l"%string.
Qed.

Lemma fnmatch_dot_y pat n :
  Path.fnmatch (String "." (String "y" pat)) n = true
  ↔ ∃ r, n = String "." (String "y" r) ∧ Path.fnmatch pat r = true.
Proof.
  rewrite fnmatch_cons by done. split.
  - intros (r & -> & (r' & -> & Hm)%fnmatch_cons); [eauto|done..].
  - intros (r & -> & Hm). eexists. split; [done|].
    apply fnmatch_cons; [done..|eauto].
Qed.

(** The names the pattern of the appliers matches: those with a [.y]
    somewhere before a final [ml]. *)
Lemma fnmatch_yaml_pattern n :
  Path.fnmatch "*.y*ml" n = true ↔ ∃ a b, n = a +:+ ".y" +:+ b +:+ "ml".
Proof.
  rewrite fnmatch_star_split. split.
  - intros (a & r & -> & (r' & -> & Hm)%fnmatch_dot_y).
    apply fnmatch_star_split in Hm as (b & r'' & -> & ->%fnmatch_ml).
    by exists a, b.
  - intros (a & b & ->). exists a, (".y" +:+ b +:+ "ml"). split; [done|].
    apply fnmatch_dot_y. exists (b +:+ "ml"). split; [done|].
    apply fnmatch_star_split. by exists b, "ml"%string.
Qed.

Lemma sorted_glob_spec fs mdir pat entries :
  fs !! mdir = Some (Directory entries) →
  ∃ names, FS.sorted_glob mdir pat fs = (λ n, mdir ++ [n]) <$> names
    ∧ Sorted String.le names
    ∧ names ≡ₚ filter (λ n, Path.fnmatch pat n = true) entries.
Proof.
  intros Hd. unfold FS.sorted_glob. rewrite Hd. eexists. split; [done|]. split.
  - apply (Sorted_merge_sort _).
  - apply merge_sort_Permutation.
Qed.

Lemma sorted_glob_not_dir fs mdir pat :
  FS.is_dir mdir fs = false → FS.sorted_glob mdir pat fs = [].
Proof. unfold FS.is_dir, FS.sorted_glob. by destruct (fs !! mdir) as [[]|]. Qed.
End glob_lemmas.

Section applier_lemmas.
Context (w : world).
Implicit Types (st : state) (files : list path) (yf : path).

Local Abbreviation oc_body := (λ yf : path,
  let cmd := oc_apply_cmd yf in
  echo ("Running: " +:+ Str.join " " cmd);;
  subprocess_check_call w cmd).

Local Abbreviation py_body := (λ yf : path,
  echo ("Applying " +:+ Path.name yf +:+ " via Python client");;
  f ← fs_op (λ fs, match FS.open_read yf fs with
                   | inr data => inr (fs, data)
                   | inl e => inl e
                   end);
  try_except
    (utils_create_from_yaml w yf f)
    (λ e, secho ("  warn: " +:+ exn_str e) YELLOW)).

Lemma spawned_app l1 l2 : spawned (l1 ++ l2) = spawned l1 ++ spawned l2.
Proof. apply omap_app. Qed.

Lemma submitted_app l1 l2 : submitted (l1 ++ l2) = submitted l1 ++ submitted l2.
Proof. apply omap_app. Qed.

Lemma answers_of_app fs before l1 l2 :
  answers_of w fs before (l1 ++ l2)
  ↔ answers_of w fs before l1 ∧ answers_of w fs (before ++ l1) l2.
Proof.
  revert before. induction l1 as [|ev l1 IH]; intros before.
  - rewrite app_nil_r. simpl. tauto.
  - simpl. rewrite IH, <-app_assoc. simpl. tauto.
Qed.

Lemma oc_body_run yf st :
  let cmd := oc_apply_cmd yf in
  let l1 := log st ++ [Echo ("Running: " +:+ Str.join " " cmd) None] in
  let rc := subprocess_exit w l1 cmd in
  oc_body yf st
  = (State (fs st) (l1 ++ [Spawn cmd rc]),
     if rc =? 0 then inr tt else inl (CalledProcessError rc cmd)).
Proof.
  intros cmd l1 rc.
  unfold bind, echo, emit, subprocess_check_call, subprocess_call, bind,
    get_log, emit, ret. cbn [fs log]. fold cmd l1 rc.
  by destruct (rc =? 0).
Qed.

(** The loop of [_apply_with_oc]: the commands run are those of a prefix
    of the files; all of them but a failing last one exit with 0. *)
Lemma oc_loop_spec files st :
  ∃ st' r new,
    for_each files oc_body st = (st', r)
    ∧ fs st' = fs st ∧ log st' = log st ++ new ∧ submitted new = []
    ∧ answers_of w (fs st) (log st) new
    ∧ match r with
      | inr _ => spawned new = (λ yf, (oc_apply_cmd yf, 0)) <$> files
      | inl e =>
          ∃ pre yf post rc,
            files = pre ++ yf :: post ∧ rc ≠ 0
            ∧ e = CalledProcessError rc (oc_apply_cmd yf)
            ∧ spawned new
              = ((λ yf, (oc_apply_cmd yf, 0)) <$> pre) ++ [(oc_apply_cmd yf, rc)]
      end.
Proof.
  revert st. induction files as [|yf files IH]; intros st.
  { exists st, (inr tt), []. by rewrite app_nil_r. }
  cbn [for_each]. unfold bind at 1. rewrite oc_body_run.
  set (cmd := oc_apply_cmd yf).
  set (l1 := log st ++ [Echo _ None]).
  set (rc := subprocess_exit w l1 cmd).
  destruct (rc =? 0) eqn:Hrc; cbv beta iota.
  - apply Z.eqb_eq in Hrc.
    destruct (IH (State (fs st) (l1 ++ [Spawn cmd rc])))
      as (st' & r & new & Hrun & Hfs & Hlog & Hsub & Hans & Hr).
    exists st', r, ([Echo ("Running: " +:+ Str.join " " cmd) None; Spawn cmd rc] ++ new).
    split_and!; [exact Hrun|done|..].
    + rewrite Hlog. simpl. unfold l1. by rewrite <-!app_assoc.
    + by rewrite submitted_app, Hsub.
    + apply answers_of_app. split; [by simpl|].
      cbn [fs log] in Hans. unfold l1 in Hans. by rewrite <-app_assoc in Hans.
    + rewrite spawned_app. simpl. rewrite Hrc. destruct r as [e|[]].
      * destruct Hr as (pre & yf' & post & rc' & -> & Hne & -> & ->).
        by exists (yf :: pre), yf', post, rc'.
      * by rewrite Hr.
  - apply Z.eqb_neq in Hrc.
    eexists _, _, [Echo ("Running: " +:+ Str.join " " cmd) None; Spawn cmd rc].
    split_and!; [done|done|..].
    + simpl. unfold l1. by rewrite <-app_assoc.
    + done.
    + by simpl.
    + by exists [], yf, files, rc.
Qed.

Lemma py_body_run yf st data :
  fs st !! yf = Some (RegularFile data) →
  let l1 := log st ++ [Echo ("Applying " +:+ Path.name yf +:+ " via Python client") None] in
  let failure := create_from_yaml w l1 yf data in
  py_body yf st
  = (State (fs st)
       (l1 ++ CreateFromYaml yf failure
           :: match failure with
              | Some e => [Echo ("  warn: " +:+ exn_str e) (Some YELLOW)]
              | None => []
              end),
     inr tt).
Proof.
  intros Hf l1 failure.
  unfold bind, echo, secho, emit, fs_op, try_except, utils_create_from_yaml,
    bind, get_log, emit, raise, ret, FS.open_read. cbn [fs log]. rewrite Hf.
  cbn [fs log]. fold l1. fold failure.
  destruct failure; cbn [fs log]; by rewrite <-?app_assoc.
Qed.

(** The loop of [_apply_with_python] over files that can be opened: every
    file is submitted, in order, and every refusal is followed by its
    warning. *)
Lemma py_loop_spec files st :
  Forall (λ yf, is_file yf (fs st) = true) files →
  ∃ new,
    for_each files py_body st = (State (fs st) (log st ++ new), inr tt)
    ∧ submitted new = files ∧ spawned new = []
    ∧ answers_of w (fs st) (log st) new
    ∧ ∀ yf e, CreateFromYaml yf (Some e) ∈ new →
        Echo ("  warn: " +:+ exn_str e) (Some YELLOW) ∈ new.
Proof.
  revert st. induction files as [|yf files IH]; intros st Hfiles.
  { exists []. rewrite app_nil_r. destruct st. split_and!; try done.
    by intros ?? ?%elem_of_nil. }
  apply Forall_cons in Hfiles as [Hyf Hfiles].
  unfold is_file in Hyf.
  destruct (fs st !! yf) as [[|data]|] eqn:Hnode; try done.
  cbn [for_each]. unfold bind at 1. rewrite (py_body_run _ _ data) by done.
  set (l1 := log st ++ [Echo _ None]).
  set (failure := create_from_yaml w l1 yf data).
  set (warn := match failure with Some e => _ | None => [] end).
  destruct (IH (State (fs st) (l1 ++ CreateFromYaml yf failure :: warn)))
    as (new & Hrun & Hsub & Hsp & Hans & Hwarn); [done|]. cbv beta iota.
  exists ([Echo ("Applying " +:+ Path.name yf +:+ " via Python client") None;
           CreateFromYaml yf failure] ++ warn ++ new).
  split_and!.
  - etrans; [exact Hrun|]. cbn [fs log]. do 2 f_equal. unfold l1.
    by rewrite <-!app_assoc.
  - rewrite !submitted_app, Hsub.
    unfold warn. by destruct failure.
  - rewrite !spawned_app, Hsp. unfold warn. by destruct failure.
  - cbn [fs log] in Hans. apply answers_of_app. split.
    + simpl. split_and!; [done| |done]. exists data. split; [|done].
      unfold FS.open_read. by rewrite Hnode.
    + apply answers_of_app. split.
      * unfold warn. by destruct failure.
      * unfold l1 in Hans. rewrite <-!app_assoc in Hans. simpl in Hans.
        by rewrite <-!app_assoc.
  - intros yf' e Hin.
    apply elem_of_cons in Hin as [?|Hin]; [done|].
    apply elem_of_cons in Hin as [Heq|Hin].
    + injection Heq as -> Hf. do 2 right. apply elem_of_app. left.
      unfold warn. rewrite <-Hf. by left.
    + do 2 right. apply elem_of_app. apply elem_of_app in Hin as [Hin|Hin].
      * unfold warn in Hin. destruct failure; [|by apply elem_of_nil in Hin].
        by apply list_elem_of_singleton in Hin.
      * right. eauto.
Qed.

Lemma kube_login_run st :
  ∃ new, _kube_login_if_needed w st = (State (fs st) (log st ++ new), inr tt)
       ∧ submitted new = [] ∧ spawned new = []
       ∧ answers_of w (fs st) (log st) new
       ∧ ∀ yf e, CreateFromYaml yf e ∉ new.
Proof.
  unfold _kube_login_if_needed, try_except.
  set (incluster := from_option Str.truthy false _).
  assert (∀ b, ∃ new,
    match config_load w b st with
    | (st', inr x) => (st', inr x)
    | (st', inl e) =>
        secho ("[warn] kubeconfig not loaded: " +:+ exn_str e) YELLOW st'
    end = (State (fs st) (log st ++ new), inr tt)
    ∧ submitted new = [] ∧ spawned new = []
    ∧ answers_of w (fs st) (log st) new
    ∧ ∀ yf e, CreateFromYaml yf e ∉ new) as Hload.
  { intros b. unfold config_load, bind, get_log, emit, raise, ret, secho, emit.
    simpl. destruct (load_config w (log st) b) as [e|]; simpl.
    - eexists [_; _]. rewrite <-app_assoc. split_and!; try done.
      intros yf e' Hin. by repeat (apply elem_of_cons in Hin as [?|Hin]; [done|]);
        apply elem_of_nil in Hin.
    - eexists [_]. split_and!; try done.
      intros yf e' Hin. by repeat (apply elem_of_cons in Hin as [?|Hin]; [done|]);
        apply elem_of_nil in Hin. }
  destruct incluster; apply Hload.
Qed.
Lemma py_body_open_fails yf st e :
  FS.open_read yf (fs st) = inl e →
  py_body yf st
  = (State (fs st)
       (log st ++ [Echo ("Applying " +:+ Path.name yf +:+ " via Python client") None]),
     inl e).
Proof.
  intros Hopen.
  unfold bind, echo, emit, fs_op, ret. cbn [fs log]. by rewrite Hopen.
Qed.

(** A failure of the loop of [_apply_with_oc] is the last thing it did. *)
Lemma oc_loop_last files st st' rc cmd :
  for_each files oc_body st = (st', inl (CalledProcessError rc cmd)) →
  last (log st') = Some (Spawn cmd rc).
Proof.
  revert st. induction files as [|yf files IH]; intros st; [done|].
  cbn [for_each]. unfold bind at 1. rewrite oc_body_run.
  destruct (_ =? 0); cbv beta iota; [apply IH|].
  intros [= <- <- <-]. cbn [log]. by rewrite last_snoc.
Qed.

(** The loop of [_apply_with_python] in general: it runs no command, and
    only an entry that cannot be opened ends it early. *)
Lemma py_loop_any files st :
  ∃ st' r new,
    for_each files py_body st = (st', r)
    ∧ fs st' = fs st ∧ log st' = log st ++ new ∧ spawned new = []
    ∧ match r with
      | inr _ => submitted new = files
      | inl e =>
          ∃ pre yf post,
            files = pre ++ yf :: post ∧ submitted new = pre
            ∧ FS.open_read yf (fs st) = inl e
      end.
Proof.
  revert st. induction files as [|yf files IH]; intros st.
  { exists st, (inr tt), []. by rewrite app_nil_r. }
  cbn [for_each]. unfold bind at 1.
  destruct (FS.open_read yf (fs st)) as [e|data] eqn:Hopen.
  - rewrite (py_body_open_fails _ _ e) by done.
    eexists _, _, [_]. split_and!; [done..|]. by exists [], yf, files.
  - assert (fs st !! yf = Some (RegularFile data)) as Hnode.
    { unfold FS.open_read in Hopen. by destruct (fs st !! yf) as [[]|]; simplify_eq. }
    rewrite (py_body_run _ _ data) by done.
    set (l1 := log st ++ [Echo _ None]).
    set (failure := create_from_yaml w l1 yf data).
    set (warn := match failure with Some e => _ | None => [] end).
    destruct (IH (State (fs st) (l1 ++ CreateFromYaml yf failure :: warn)))
      as (st' & r & new & Hrun & Hfs & Hlog & Hsp & Hr). cbv beta iota.
    exists st', r,
      ([Echo ("Applying " +:+ Path.name yf +:+ " via Python client") None;
        CreateFromYaml yf failure] ++ warn ++ new).
    split_and!; [exact Hrun|done|..].
    + rewrite Hlog. cbn [fs log]. unfold l1. by rewrite <-!app_assoc.
    + rewrite !spawned_app, Hsp. unfold warn. by destruct failure.
    + assert (submitted warn = []) as Hw by (unfold warn; by destruct failure).
      destruct r as [e|[]].
      * destruct Hr as (pre & yf' & post & -> & Hsub & Hopen').
        exists (yf :: pre), yf', post. split_and!; [done| |done].
        rewrite !submitted_app, Hw, Hsub. done.
      * rewrite !submitted_app, Hw, Hr. done.
Qed.

Lemma apply_with_python_any mdir st :
  ∃ st' r new,
    _apply_with_python w mdir st = (st', r)
    ∧ fs st' = fs st ∧ log st' = log st ++ new ∧ spawned new = []
    ∧ match r with
      | inr _ => submitted new = FS.sorted_glob mdir "*.y*ml" (fs st)
      | inl e =>
          ∃ pre yf post,
            FS.sorted_glob mdir "*.y*ml" (fs st) = pre ++ yf :: post
            ∧ submitted new = pre ∧ FS.open_read yf (fs st) = inl e
      end.
Proof.
  destruct (kube_login_run st) as (new0 & Hlogin & Hsub0 & Hsp0 & _).
  destruct (py_loop_any (FS.sorted_glob mdir "*.y*ml" (fs st))
              (State (fs st) (log st ++ new0)))
    as (st' & r & new & Hrun & Hfs & Hlog & Hsp & Hr).
  exists st', r, (new0 ++ new). split_and!.
  - unfold _apply_with_python, bind at 1. rewrite Hlogin.
    unfold bind, sorted_glob. exact Hrun.
  - done.
  - rewrite Hlog. cbn [log]. by rewrite <-app_assoc.
  - by rewrite spawned_app, Hsp0, Hsp.
  - destruct r as [e|[]].
    + destruct Hr as (pre & yf & post & Hf & Hsub & Hopen).
      exists pre, yf, post. by rewrite submitted_app, Hsub0, Hsub.
    + by rewrite submitted_app, Hsub0, Hr.
Qed.

(** The commands of the native-CLI loop are commands on listed files. *)
Lemma oc_runs_are_files files (r : exn + unit) new :
  match r with
  | inr _ => spawned new = (λ yf, (oc_apply_cmd yf, 0)) <$> files
  | inl e =>
      ∃ pre yf post rc,
        files = pre ++ yf :: post ∧ rc ≠ 0
        ∧ e = CalledProcessError rc (oc_apply_cmd yf)
        ∧ spawned new
          = ((λ yf, (oc_apply_cmd yf, 0)) <$> pre) ++ [(oc_apply_cmd yf, rc)]
  end →
  ∀ cmd rc, (cmd, rc) ∈ spawned new → ∃ yf, yf ∈ files ∧ cmd = oc_apply_cmd yf.
Proof.
  intros Hr cmd rc Hin. destruct r as [e|[]].
  - destruct Hr as (pre & yf & post & rc' & Hf & _ & _ & Hsp).
    rewrite Hsp in Hin. apply elem_of_app in Hin as [Hin|Hin].
    + apply list_elem_of_fmap in Hin as (yf' & [= -> _] & Hin).
      exists yf'. split; [|done]. rewrite Hf. apply elem_of_app. by left.
    + apply list_elem_of_singleton in Hin as [= -> _].
      exists yf. split; [|done]. rewrite Hf. apply elem_of_app. right. by left.
  - rewrite Hr in Hin. apply list_elem_of_fmap in Hin as (yf' & [= -> _] & Hin).
    eauto.
Qed.
End applier_lemmas.

Lemma sorted_glob_sorted fs mdir pat :
  ∃ names, FS.sorted_glob mdir pat fs = (λ n, mdir ++ [n]) <$> names
         ∧ Sorted String.le names.
Proof.
  destruct (fs !! mdir) as [[entries|data]|] eqn:Hd.
  - destruct (sorted_glob_spec fs mdir pat entries Hd) as (names & ? & ? & _).
    eauto.
  - exists []. unfold FS.sorted_glob. rewrite Hd. by split; [|constructor].
  - exists []. unfold FS.sorted_glob. rewrite Hd. by split; [|constructor].
Qed.

(** The example of the specification: [a.yaml] fails with status 3, and
    [b.yaml] is not attempted. *)
Example apply_with_oc_a_fails :
  let '(st', r) := _apply_with_oc Demo.world_oc ["/"; "m"]%string Demo.start in
  r = inl (CalledProcessError 3 ["oc"; "apply"; "-f"; "/m/a.yaml"]%string)
  ∧ spawned (log st') = [(["oc"; "apply"; "-f"; "/m/a.yaml"]%string, 3)].
Proof. vm_compute. done. Qed.

(** C2: under the API-client strategy every matched file that can be opened
    is submitted, one at a time and in the sorted order of the file names; a
    refused submission is logged as a warning and the loop goes on, so the
    applier ends without an error whatever the cluster answers. *)
Theorem apply_with_python_best_effort w mdir st :
  let files := FS.sorted_glob mdir "*.y*ml" (fs st) in
  Forall (λ yf, is_file yf (fs st) = true) files →
  (∃ names, files = (λ n, mdir ++ [n]) <$> names ∧ Sorted String.le names)
  ∧ ∃ new,
      _apply_with_python w mdir st = (State (fs st) (log st ++ new), inr tt)
      ∧ submitted new = files
      ∧ spawned new = []
      ∧ answers_of w (fs st) (log st) new
      ∧ ∀ yf e, CreateFromYaml yf (Some e) ∈ new →
          Echo ("  warn: " +:+ exn_str e) (Some YELLOW) ∈ new.
Proof.
  intros files Hfiles. split; [apply sorted_glob_sorted|].
  destruct (kube_login_run w st) as (new0 & Hlogin & Hsub0 & Hsp0 & Hans0 & Hno).
  destruct (py_loop_spec w files (State (fs st) (log st ++ new0)) Hfiles)
    as (new & Hloop & Hsub & Hsp & Hans & Hwarn).
  exists (new0 ++ new). split_and!.
  - unfold _apply_with_python, bind at 1. rewrite Hlogin.
    unfold bind, sorted_glob. etrans; [exact Hloop|].
    cbn [fs log]. by rewrite <-app_assoc.
  - by rewrite submitted_app, Hsub0, Hsub.
  - by rewrite spawned_app, Hsp0, Hsp.
  - by apply answers_of_app.
  - intros yf e [Hin|Hin]%elem_of_app; [by apply Hno in Hin|].
    apply elem_of_app. right. eauto.
Qed.

Lemma apply_with_python_best_effort_witness :
  ∃ new,
    _apply_with_python Demo.world_bare ["/"; "m"]%string Demo.start
    = (State Demo.files new, inr tt)
    ∧ submitted new = [["/"; "m"; "a.yaml"]; ["/"; "m"; "b.yaml"]]%string.
Proof.
  destruct (apply_with_python_best_effort Demo.world_bare ["/"; "m"]%string
              Demo.start) as (_ & new & Hrun & Hsub & _).
  - vm_compute. repeat constructor.
  - exists new. split; [exact Hrun|]. rewrite Hsub. vm_compute. reflexivity.
Defined.

(** The example of the specification: the cluster refuses [a.yaml], the
    refusal is logged, and [b.yaml] is still submitted. *)
Example apply_with_python_a_fails :
  let '(st', r) := _apply_with_python Demo.world_bare ["/"; "m"]%string Demo.start in
  r = inr tt
  ∧ log st'
    = [LoadKubeConfig false;
       Echo "Applying a.yaml via Python client" None;
       CreateFromYaml ["/"; "m"; "a.yaml"]%string (Some (LibraryError "rejected"));
       Echo "  warn: rejected" (Some YELLOW);
       Echo "Applying b.yaml via Python client" None;
       CreateFromYaml ["/"; "m"; "b.yaml"]%string None].
Proof. vm_compute. done. Qed.

(** The ways through [apply] on an existing directory, as one equation. *)
Lemma apply_run w manifests st :
  let mdir := Path.of_str manifests in
  FS.exists_ mdir (fs st) = true →
  let complete := secho "Apply complete." GREEN in
  let which_oc := subprocess_exit w (log st) ["which"; "oc"]%string in
  let st1 := State (fs st) (log st ++ [Spawn ["which"; "oc"]%string which_oc]) in
  apply w manifests st =
    if which_oc =? 0 then (_apply_with_oc w mdir;; complete) st1
    else
      let st2 :=
        State (fs st)
          (log st1 ++ [Echo "oc not found, using python client (or kubectl if present)"
                         (Some YELLOW)]) in
      match _apply_with_python w mdir st2 with
      | (st3, inr _) => complete st3
      | (st3, inl e) =>
          let which_kubectl :=
            subprocess_exit w (log st3) ["which"; "kubectl"]%string in
          let st4 :=
            State (fs st3)
              (log st3 ++ [Spawn ["which"; "kubectl"]%string which_kubectl]) in
          if which_kubectl =? 0 then
            (subprocess_check_call w ["kubectl"; "apply"; "-f"; Path.str mdir]%string;;
             complete) st4
          else
            (State (fs st4)
               (log st4 ++ [Echo "Neither oc nor kubectl available." (Some RED)]),
             inl e)
      end.
Proof.
  intros mdir Hex complete which_oc st1.
  unfold apply. fold mdir.
  unfold bind, path_exists, _oc_available, _kubectl_available,
    subprocess_call, bind, get_log, try_except, raise, ret.
  rewrite Hex. cbn [negb]. unfold emit at 1. cbn [fs log].
  fold which_oc. fold st1. fold complete.
  destruct (which_oc =? 0); [done|].
  unfold secho at 1, emit at 1. cbn [fs log].
  destruct (_apply_with_python w mdir _) as [st3 [e|[]]]; [|done].
  unfold emit at 1. cbn [fs log].
  destruct (subprocess_exit w (log st3) _ =? 0); [done|].
  unfold secho, emit. by cbn [fs log].
Qed.

(** C3: on an existing manifest directory [apply] probes for [oc] first.
    With [oc] it applies file by file with it: the cluster API and [kubectl]
    are not used.  Without [oc] it takes the API-client path; when that path
    goes through, no other tool is probed; when it raises, [apply] probes
    for [kubectl] and, with it, applies the whole directory with one
    [kubectl apply -f]; without it, [apply] reports that neither tool is
    available and fails with the error the API-client path raised. *)
Theorem apply_strategy_order w manifests st :
  let mdir := Path.of_str manifests in
  let files := FS.sorted_glob mdir "*.y*ml" (fs st) in
  let kubectl_apply := ["kubectl"; "apply"; "-f"; Path.str mdir]%string in
  let which_oc := subprocess_exit w (log st) ["which"; "oc"]%string in
  let st2 :=
    State (fs st)
      (log st ++ [Spawn ["which"; "oc"]%string which_oc;
                  Echo "oc not found, using python client (or kubectl if present)"
                    (Some YELLOW)]) in
  FS.exists_ mdir (fs st) = true →
  ∃ st' r new,
    apply w manifests st = (st', r) ∧ fs st' = fs st ∧ log st' = log st ++ new
    ∧ if which_oc =? 0 then
        submitted new = []
        ∧ ∃ runs,
            spawned new = (["which"; "oc"]%string, 0) :: runs
            ∧ (∀ cmd rc, (cmd, rc) ∈ runs →
                 ∃ yf, yf ∈ files ∧ cmd = oc_apply_cmd yf)
            ∧ (r = inr tt → runs = (λ yf, (oc_apply_cmd yf, 0)) <$> files)
      else
        match _apply_with_python w mdir st2 with
        | (_, inr _) =>
            r = inr tt
            ∧ spawned new = [(["which"; "oc"]%string, which_oc)]
            ∧ submitted new = files
        | (st3, inl e) =>
            let which_kubectl :=
              subprocess_exit w (log st3) ["which"; "kubectl"]%string in
            if which_kubectl =? 0 then
              ∃ rc,
                spawned new
                = [(["which"; "oc"]%string, which_oc);
                   (["which"; "kubectl"]%string, 0); (kubectl_apply, rc)]
                ∧ r = if rc =? 0 then inr tt
                      else inl (CalledProcessError rc kubectl_apply)
            else
              spawned new
              = [(["which"; "oc"]%string, which_oc);
                 (["which"; "kubectl"]%string, which_kubectl)]
              ∧ r = inl e
              ∧ last new = Some (Echo "Neither oc nor kubectl available." (Some RED))
        end.
Proof.
  intros mdir files kubectl_apply which_oc st2 Hex.
  rewrite apply_run by done. fold mdir which_oc.
  destruct (which_oc =? 0) eqn:Hoc.
  - apply Z.eqb_eq in Hoc. rewrite Hoc.
    set (st1 := State (fs st) (log st ++ [Spawn ["which"; "oc"]%string 0])).
    destruct (oc_loop_spec w files st1)
      as (st' & r & new & Hrun & Hfs & Hlog & Hsub & _ & Hr).
    pose proof (oc_runs_are_files files r new Hr) as Hruns.
    assert (_apply_with_oc w mdir st1 = (st', r)) as Hoc_run by exact Hrun.
    unfold bind. rewrite Hoc_run. destruct r as [e|[]].
    + eexists _, _, ([Spawn ["which"; "oc"]%string 0] ++ new).
      split_and!; [done|done| |..].
      * rewrite Hlog. unfold st1. cbn [fs log]. by rewrite <-app_assoc.
      * by rewrite submitted_app, Hsub.
      * exists (spawned new). by rewrite spawned_app.
    + eexists _, _, ([Spawn ["which"; "oc"]%string 0] ++ new ++ [_]).
      split_and!; [done|done|..].
      * cbn [fs log secho emit]. rewrite Hlog. unfold st1. cbn [fs log].
        by rewrite <-!app_assoc.
      * by rewrite !submitted_app, Hsub.
      * exists (spawned new). rewrite !spawned_app, app_nil_r.
        split_and!; [done|exact Hruns|by intros _].
  - cbv zeta. change (State (fs st) (_ ++ [Echo _ (Some YELLOW)])) with
      (State (fs st) ((log st ++ [Spawn ["which"; "oc"]%string which_oc])
                      ++ [Echo "oc not found, using python client (or kubectl if present)"
                            (Some YELLOW)])).
    assert (State (fs st)
              ((log st ++ [Spawn ["which"; "oc"]%string which_oc])
               ++ [Echo "oc not found, using python client (or kubectl if present)"
                     (Some YELLOW)]) = st2) as ->
      by (unfold st2; by rewrite <-app_assoc).
    destruct (apply_with_python_any w mdir st2)
      as (st3 & r3 & new & Hrun & Hfs & Hlog & Hsp & Hr).
    rewrite Hrun. cbn [fs log] in Hfs, Hlog.
    set (probe := [Spawn ["which"; "oc"]%string which_oc;
                   Echo "oc not found, using python client (or kubectl if present)"
                     (Some YELLOW)]) in *.
    destruct r3 as [e|[]].
    + set (wk := subprocess_exit w (log st3) ["which"; "kubectl"]%string).
      destruct (wk =? 0) eqn:Hk.
      * apply Z.eqb_eq in Hk.
        unfold bind, subprocess_check_call, bind, subprocess_call, bind, get_log,
          emit, ret, raise, secho, emit. cbn [fs log]. fold kubectl_apply.
        set (rc := subprocess_exit w _ kubectl_apply).
        destruct (rc =? 0) eqn:Hrc.
        -- eexists _, _, (probe ++ new ++ [_; _; _]).
           split_and!; [done|done|..].
           ++ cbn [fs log]. rewrite Hlog. unfold st2. cbn [fs log].
              by rewrite <-!app_assoc.
           ++ exists rc. rewrite !spawned_app, Hsp. simpl. by rewrite Hk, Hrc.
        -- eexists _, _, (probe ++ new ++ [_; _]).
           split_and!; [done|done|..].
           ++ cbn [fs log]. rewrite Hlog. unfold st2. cbn [fs log].
              by rewrite <-!app_assoc.
           ++ exists rc. rewrite !spawned_app, Hsp. simpl. by rewrite Hk, Hrc.
      * eexists _, _, (probe ++ new ++ [_; _]).
        split_and!; [done|done|..].
        -- cbn [fs log]. rewrite Hlog. unfold st2. cbn [fs log].
           by rewrite <-!app_assoc.
        -- by rewrite !spawned_app, Hsp.
        -- done.
        -- by rewrite app_assoc, last_app_cons.
    + eexists _, _, (probe ++ new ++ [_]).
      split_and!; [done|done|..].
      * cbn [fs log secho emit]. rewrite Hlog. unfold st2. cbn [fs log].
        by rewrite <-!app_assoc.
      * done.
      * by rewrite !spawned_app, Hsp.
      * rewrite !submitted_app, Hr. unfold probe. simpl. by rewrite app_nil_r.
Qed.

Lemma apply_strategy_order_witness :
  FS.exists_ (Path.of_str "/bad") (fs Demo.start) = true
  ∧ ∃ st' r new,
      apply Demo.world_bare "/bad" Demo.start = (st', r)
      ∧ log st' = new
      ∧ spawned new = [(["which"; "oc"], 1); (["which"; "kubectl"], 1)]%string
      ∧ r = inl (IsADirectoryError ["/"; "bad"; "x.yaml"]%string)
      ∧ last new = Some (Echo "Neither oc nor kubectl available." (Some RED)).
Proof.
  split; [reflexivity|].
  destruct (apply_strategy_order Demo.world_bare "/bad" Demo.start eq_refl)
    as (st' & r & new & Hrun & _ & Hlog & Hcase).
  vm_compute in Hcase. destruct Hcase as (Hsp & Hr & Hlast).
  exists st', r, new. split; [exact Hrun|]. split; [exact Hlog|].
  split; [exact Hsp|]. split; [exact Hr|exact Hlast].
Defined.

(** The three other ways through [apply]: [oc] present; [oc] absent and the
    API-client path going through; [oc] absent, the API-client path raising
    and [kubectl] present. *)
Example apply_with_oc_present :
  spawned (log (apply Demo.world_oc "/bad" Demo.start).1)
  = [(["which"; "oc"], 0); (["oc"; "apply"; "-f"; "/bad/x.yaml"], 0)]%string
  ∧ (apply Demo.world_oc "/bad" Demo.start).2 = inr tt.
Proof. vm_compute. done. Qed.

Example apply_with_api_client :
  spawned (log (apply Demo.world_bare "/m" Demo.start).1)
  = [(["which"; "oc"], 1)]%string
  ∧ submitted (log (apply Demo.world_bare "/m" Demo.start).1)
    = [["/"; "m"; "a.yaml"]; ["/"; "m"; "b.yaml"]]%string
  ∧ (apply Demo.world_bare "/m" Demo.start).2 = inr tt.
Proof. vm_compute. done. Qed.

Example apply_with_kubectl_fallback :
  spawned (log (apply Demo.world_kubectl "/bad" Demo.start).1)
  = [(["which"; "oc"], 1); (["which"; "kubectl"], 0);
     (["kubectl"; "apply"; "-f"; "/bad"], 0)]%string
  ∧ (apply Demo.world_kubectl "/bad" Demo.start).2 = inr tt.
Proof. vm_compute. done. Qed.

(** With [oc] present, a failure of the native-CLI applier is the failure of
    [apply], and nothing is done after it. *)
Lemma apply_oc_failure w manifests st st' e :
  let mdir := Path.of_str manifests in
  FS.exists_ mdir (fs st) = true →
  subprocess_exit w (log st) ["which"; "oc"]%string = 0 →
  _apply_with_oc w mdir
    (State (fs st) (log st ++ [Spawn ["which"; "oc"]%string 0])) = (st', inl e) →
  apply w manifests st = (st', inl e).
Proof.
  intros mdir Hex Hoc Hrun. rewrite apply_run by done. fold mdir.
  rewrite Hoc. cbn [Z.eqb]. unfold bind. by rewrite Hrun.
Qed.

(** A missing manifest directory ends [apply] before any probe. *)
Lemma apply_missing_directory w manifests st :
  FS.exists_ (Path.of_str manifests) (fs st) = false →
  ∃ msg, apply w manifests st
         = (State (fs st) (log st ++ [Echo msg (Some RED)]), inl (Exit 1)).
Proof.
  intros Hex. eexists. unfold apply, bind at 1, path_exists. rewrite Hex.
  reflexivity.
Qed.

(** C1 as stated fails: with [oc] present and [a.yaml] failing with status
    3, [b.yaml] is not attempted and [apply] fails with the error that
    carries the status 3, but nothing turns that error into an exit status:
    the command exits with status 1, not with 3. *)
Lemma apply_exit_code_counterexample :
  let '(st', r) := apply Demo.world_oc "/m" Demo.start in
  spawned (log st')
  = [(["which"; "oc"], 0); (["oc"; "apply"; "-f"; "/m/a.yaml"], 3)]%string
  ∧ r = inl (CalledProcessError 3 ["oc"; "apply"; "-f"; "/m/a.yaml"]%string)
  ∧ exit_status r = 1
  ∧ exit_status r ≠ 3.
Proof. vm_compute. split_and!; done. Qed.

(** C1, amended: when [apply] finds [oc], the commands it runs after the
    probe are one [oc apply -f] per matched file, in the sorted order of the
    file names.  The first non-zero exit status ends the run: no later file
    is attempted, nothing more is done, and [apply] fails with a
    [CalledProcessError] that carries that status and that command.  The
    status the process exits with is then 1, whatever the status of the
    failed command; it is 0 when every command went through. *)
Theorem apply_with_oc_fail_fast w manifests st :
  let mdir := Path.of_str manifests in
  let files := FS.sorted_glob mdir "*.y*ml" (fs st) in
  FS.exists_ mdir (fs st) = true →
  subprocess_exit w (log st) ["which"; "oc"]%string = 0 →
  (∃ names, files = (λ n, mdir ++ [n]) <$> names ∧ Sorted String.le names)
  ∧ ∃ st' r new,
      apply w manifests st = (st', r)
      ∧ fs st' = fs st ∧ log st' = log st ++ new
      ∧ answers_of w (fs st) (log st) new
      ∧ submitted new = []
      ∧ match r with
        | inr _ =>
            spawned new
            = (["which"; "oc"]%string, 0) :: ((λ yf, (oc_apply_cmd yf, 0)) <$> files)
        | inl e =>
            ∃ pre yf post rc,
              files = pre ++ yf :: post ∧ rc ≠ 0
              ∧ e = CalledProcessError rc (oc_apply_cmd yf)
              ∧ spawned new
                = (["which"; "oc"]%string, 0)
                  :: ((λ yf, (oc_apply_cmd yf, 0)) <$> pre)
                  ++ [(oc_apply_cmd yf, rc)]
              ∧ last new = Some (Spawn (oc_apply_cmd yf) rc)
        end
      ∧ exit_status r = match r with inr _ => 0 | inl _ => 1 end.
Proof.
  intros mdir files Hex Hoc. split; [apply sorted_glob_sorted|].
  rewrite apply_run by done. fold mdir. rewrite Hoc. cbn [Z.eqb].
  set (st1 := State (fs st) (log st ++ [Spawn ["which"; "oc"]%string 0])).
  destruct (oc_loop_spec w files st1)
    as (st' & r & new & Hrun & Hfs & Hlog & Hsub & Hans & Hr).
  assert (_apply_with_oc w mdir st1 = (st', r)) as Hoc_run by exact Hrun.
  assert (answers_of w (fs st) (log st) [Spawn ["which"; "oc"]%string 0]) as Hprobe
    by done.
  unfold bind. rewrite Hoc_run. destruct r as [e|[]].
  - exists st', (inl e), ([Spawn ["which"; "oc"]%string 0] ++ new).
    destruct Hr as (pre & yf & post & rc & Hfiles & Hrc & -> & Hsp).
    split_and!; [done|done| | | | |done].
    + rewrite Hlog. unfold st1. cbn [fs log]. by rewrite <-app_assoc.
    + by apply answers_of_app.
    + by rewrite submitted_app, Hsub.
    + exists pre, yf, post, rc. split_and!; [done..| |].
      * by rewrite spawned_app, Hsp.
      * pose proof (oc_loop_last w files st1 st' rc (oc_apply_cmd yf) Hrun) as Hlast.
        rewrite Hlog, last_app in Hlast. rewrite last_app.
        destruct (last new) as [ev|] eqn:Hnew; [done|].
        apply last_None in Hnew. subst new. by destruct pre.
  - eexists _, (inr tt), ([Spawn ["which"; "oc"]%string 0] ++ new ++ [_]).
    split_and!; [done|done| | | | |done].
    + cbn [fs log secho emit]. rewrite Hlog. unfold st1. cbn [fs log].
      by rewrite <-!app_assoc.
    + apply answers_of_app. split; [done|].
      apply answers_of_app. split; [done|]. by simpl.
    + by rewrite !submitted_app, Hsub.
    + by rewrite !spawned_app, Hr, app_nil_r.
Qed.

Lemma apply_with_oc_fail_fast_witness :
  ∃ st' r new,
    apply Demo.world_oc "/m" Demo.start = (st', r)
    ∧ log st' = log Demo.start ++ new
    ∧ submitted new = []
    ∧ exit_status r = match r with inr _ => 0 | inl _ => 1 end.
Proof.
  destruct (apply_with_oc_fail_fast Demo.world_oc "/m" Demo.start)
    as (_ & st' & r & new & Hrun & _ & Hlog & _ & Hsub & _ & Hexit).
  - vm_compute. reflexivity.
  - vm_compute. reflexivity.
  - exists st', r, new. split; [exact Hrun|]. split; [exact Hlog|].
    split; [exact Hsub|exact Hexit].
Defined.

(** C4 as stated fails: in a directory that holds [B.YML] and [a.yxml] both
    appliers process [a.yxml], which is no YAML file of the specification,
    and leave out [B.YML], which is one. *)
Lemma applier_yaml_glob_counterexample :
  submitted (log (_apply_with_python Demo.world_bare ["/"; "odd"]%string Demo.start).1)
  = [["/"; "odd"; "a.yxml"]]%string
  ∧ spawned (log (_apply_with_oc Demo.world_oc ["/"; "odd"]%string Demo.start).1)
    = [(["oc"; "apply"; "-f"; "/odd/a.yxml"], 0)]%string
  ∧ Spec.yaml_files ["/"; "odd"]%string (fs Demo.start)
    = [["/"; "odd"; "B.YML"]]%string.
Proof. vm_compute. done. Qed.

(** C4, amended: both appliers process the direct entries of the manifest
    directory whose names match the pattern [*.y*ml] as it is written, case
    included (the names with a [.y] somewhere before a final [ml], among
    them every [*.yml] and [*.yaml]), sorted by name: the API-client applier
    submits all of them when each can be opened, and the native-CLI applier
    runs its commands for them and for nothing else, for all of them when it
    succeeds. *)
Theorem applier_processes_glob w mdir st entries :
  fs st !! mdir = Some (Directory entries) →
  let files := FS.sorted_glob mdir "*.y*ml" (fs st) in
  (∃ names,
     files = (λ n, mdir ++ [n]) <$> names
     ∧ Sorted String.le names
     ∧ names ≡ₚ filter (λ n, Path.fnmatch "*.y*ml" n = true) entries
     ∧ ∀ n, n ∈ names ↔ n ∈ entries ∧ ∃ a b, n = a +:+ ".y" +:+ b +:+ "ml")
  ∧ (∀ a, Path.fnmatch "*.y*ml" (a +:+ ".yml") = true
          ∧ Path.fnmatch "*.y*ml" (a +:+ ".yaml") = true)
  ∧ (Forall (λ yf, is_file yf (fs st) = true) files →
     ∃ new, _apply_with_python w mdir st = (State (fs st) (log st ++ new), inr tt)
          ∧ submitted new = files)
  ∧ ∃ st' r new,
      _apply_with_oc w mdir st = (st', r) ∧ log st' = log st ++ new
      ∧ (r = inr tt → spawned new = (λ yf, (oc_apply_cmd yf, 0)) <$> files)
      ∧ ∀ cmd rc, (cmd, rc) ∈ spawned new → ∃ yf, yf ∈ files ∧ cmd = oc_apply_cmd yf.
Proof.
  intros Hd files. split_and!.
  - destruct (sorted_glob_spec _ _ "*.y*ml" _ Hd) as (names & Hn & Hs & Hp).
    exists names. split_and!; [done..|].
    intros n. rewrite Hp, list_elem_of_filter, fnmatch_yaml_pattern. tauto.
  - intros a. split; apply fnmatch_yaml_pattern.
    + by exists a, EmptyString.
    + by exists a, "a"%string.
  - intros Hfiles.
    destruct (kube_login_run w st) as (new0 & Hlogin & Hsub0 & _).
    destruct (py_loop_spec w files (State (fs st) (log st ++ new0)) Hfiles)
      as (new & Hloop & Hsub & _).
    exists (new0 ++ new). split.
    + unfold _apply_with_python, bind at 1. rewrite Hlogin.
      unfold bind, sorted_glob. etrans; [exact Hloop|].
      cbn [fs log]. by rewrite <-app_assoc.
    + by rewrite submitted_app, Hsub0, Hsub.
  - destruct (oc_loop_spec w files st)
      as (st' & r & new & Hrun & _ & Hlog & _ & _ & Hr).
    exists st', r, new. split_and!; [done..| |].
    + by intros ->.
    + by apply (oc_runs_are_files files r new).
Qed.

Lemma applier_processes_glob_witness :
  ∃ names,
    FS.sorted_glob ["/"; "m"]%string "*.y*ml" (fs Demo.start)
    = (λ n, ["/"; "m"]%string ++ [n]) <$> names
    ∧ names ≡ₚ filter (λ n, Path.fnmatch "*.y*ml" n = true)
                 ["b.yaml"; "a.yaml"; "notes.txt"]%string.
Proof.
  destruct (applier_processes_glob Demo.world_oc ["/"; "m"]%string Demo.start
              ["b.yaml"; "a.yaml"; "notes.txt"]%string)
    as ((names & Hfiles & _ & Hperm & _) & _).
  - vm_compute. reflexivity.
  - exists names. split; [exact Hfiles|exact Hperm].
Defined.

(** ** [run-playbook] *)

(** With extra variables that parse, or with none (an empty string counts as
    none and is not parsed), the playbook runs once and its exit status is
    the one of the command. *)
Lemma run_playbook_runs w playbook extravars_ ev st :
  match extravars_ with
  | Some s => if Str.truthy s
              then ∃ j, json_loads w s = inr j ∧ ev = VarsJson j
              else ev = VarsDict ∅
  | None => ev = VarsDict ∅
  end →
  ∃ rc, run_playbook w playbook extravars_ st
        = (State (fs st)
             (log st ++ [Echo ("> Ansible playbook: " +:+ playbook) None;
                         AnsibleRun playbook ev rc]),
           inl (Exit rc)).
Proof.
  intros Hev. eexists.
  unfold run_playbook, bind at 1.
  assert ((match extravars_ with
           | Some s => if Str.truthy s
                       then j ← lift (json_loads w s); ret (VarsJson j)
                       else ret (VarsDict ∅)
           | None => ret (VarsDict ∅)
           end) st = (st, inr ev)) as ->.
  { destruct extravars_ as [s|]; [|by subst].
    destruct (Str.truthy s); [|by subst].
    destruct Hev as (j & Hj & ->). unfold bind, lift. by rewrite Hj. }
  unfold _run_ansible, bind, echo, emit, get_log, ret, raise. cbn [fs log].
  by rewrite <-app_assoc.
Qed.

(** C9 as stated fails: the empty string does not parse, and with it for
    the extra variables the playbook runs all the same. *)
Lemma run_playbook_empty_extravars_counterexample :
  json_loads Demo.world_oc EmptyString = inl (ValueError "Expecting value")
  ∧ playbooks_run
      (log (run_playbook Demo.world_oc "site.yml" (Some EmptyString) Demo.start).1)
    = ["site.yml"%string].
Proof. vm_compute. done. Qed.

(** C9, amended: when the extra-variables string is not empty and does not
    parse, [run_playbook] fails at once with the parser's error: the state
    is the one it started from, so ansible-runner was not called and nothing
    was printed.  The empty string is not parsed: it counts as no extra
    variables, and the playbook runs once, with an empty mapping. *)
Theorem run_playbook_malformed_extravars w playbook s e st :
  json_loads w s = inl e →
  if Str.truthy s then
    run_playbook w playbook (Some s) st = (st, inl e)
    ∧ playbooks_run (log (run_playbook w playbook (Some s) st).1)
      = playbooks_run (log st)
  else
    ∃ rc, run_playbook w playbook (Some s) st
          = (State (fs st)
               (log st ++ [Echo ("> Ansible playbook: " +:+ playbook) None;
                           AnsibleRun playbook (VarsDict ∅) rc]),
             inl (Exit rc)).
Proof.
  intros He. destruct (Str.truthy s) eqn:Hs.
  - assert (run_playbook w playbook (Some s) st = (st, inl e)) as Hrun.
    { unfold run_playbook, bind, lift. by rewrite Hs, He. }
    by rewrite Hrun.
  - apply run_playbook_runs. by rewrite Hs.
Qed.

Lemma run_playbook_malformed_extravars_witness :
  run_playbook Demo.world_oc "site.yml" (Some "{"%string) Demo.start
  = (Demo.start, inl (ValueError "Expecting value"))
  ∧ playbooks_run
      (log (run_playbook Demo.world_oc "site.yml" (Some "{"%string) Demo.start).1)
    = playbooks_run (log Demo.start).
Proof.
  apply (run_playbook_malformed_extravars Demo.world_oc "site.yml" "{"
           (ValueError "Expecting value") Demo.start); reflexivity.
Defined.


(** ** The renderer *)

Section render_equivalence.
Context (w : world).
Implicit Types (st : state) (tmpl : path).

(** One entry: [render] and [deploy] leave the same file system and end the
    same way when they start from the same file system. *)
Lemma render_deploy_entry (vars_ : gmap string string) outdir tmpl st1 st2 :
  Path.of_str outdir = BUILD_DIR w →
  fs st1 = fs st2 →
  fs (render_entry w vars_ outdir tmpl st1).1
  = fs (deploy_entry w vars_ (BUILD_DIR w) tmpl st2).1
  ∧ (render_entry w vars_ outdir tmpl st1).2
    = (deploy_entry w vars_ (BUILD_DIR w) tmpl st2).2.
Proof.
  intros Hout Hfs. destruct st1 as [fs1 log1], st2 as [fs2 log2].
  cbn [fs] in Hfs. subst fs2.
  unfold render_entry, deploy_entry, bind, is_dir, get_template_render,
    write_text, read_text, fs_op, secho, emit, ret.
  rewrite Hout. cbn [fs log].
  destruct (FS.is_dir tmpl fs1); [done|].
  destruct (bool_decide (Path.suffix tmpl = ".j2"%string)).
  - cbn [fs log].
    destruct (FS.open_read (MANIFEST_DIR w ++ [Path.name tmpl]) fs1)
      as [e|source]; [done|].
    destruct (jinja_render w (Path.name tmpl) source vars_) as [e|rendered];
      [done|].
    cbn [fs log].
    by destruct (FS.write_text (Path.joinpath (BUILD_DIR w) (Path.stem tmpl))
                   rendered fs1).
  - cbn [fs log]. destruct (FS.read_text tmpl fs1) as [e|text]; [done|].
    cbn [fs log].
    by destruct (FS.write_text (Path.joinpath (BUILD_DIR w) (Path.name tmpl))
                   text fs1).
Qed.

Lemma render_deploy_loop (vars_ : gmap string string) outdir entries st1 st2 :
  Path.of_str outdir = BUILD_DIR w →
  fs st1 = fs st2 →
  fs (for_each entries (render_entry w vars_ outdir) st1).1
  = fs (for_each entries (deploy_entry w vars_ (BUILD_DIR w)) st2).1
  ∧ (for_each entries (render_entry w vars_ outdir) st1).2
    = (for_each entries (deploy_entry w vars_ (BUILD_DIR w)) st2).2.
Proof.
  intros Hout. revert st1 st2.
  induction entries as [|tmpl entries IH]; intros st1 st2 Hfs; [done|].
  cbn [for_each]. unfold bind.
  destruct (render_deploy_entry vars_ outdir tmpl st1 st2 Hout Hfs) as [Hfs' Hr].
  destruct (render_entry w vars_ outdir tmpl st1) as [st1' r1].
  destruct (deploy_entry w vars_ (BUILD_DIR w) tmpl st2) as [st2' r2].
  cbn [fst snd] in Hfs', Hr. subst r2.
  destruct r1 as [e|[]]; [done|]. by apply IH.
Qed.
End render_equivalence.

(** [render] into the build directory and the first phase of [deploy]. *)
Lemma render_deploy_same w values outdir st :
  Path.of_str outdir = BUILD_DIR w →
  fs (render w values outdir st).1 = fs (deploy_render w values st).1
  ∧ ∀ e, (render w values outdir st).2 = inl e
         ↔ (deploy_render w values st).2 = inl e.
Proof.
  intros Hout. unfold render, deploy_render.
  change (Path.joinpath (Path.joinpath (ROOT w) "build") "manifests")
    with (BUILD_DIR w).
  unfold bind, iterdir. rewrite Hout.
  destruct (_load_env_values values st) as [st0 [e|vars_]];
    [by split; [|intros ?; split; intros [= ->]]|].
  destruct (_ensure_dir (BUILD_DIR w) st0) as [st1 [e|[]]];
    [by split; [|intros ?; split; intros [= ->]]|].
  destruct (FS.iterdir (MANIFEST_DIR w) (fs st1)) as [e|entries];
    [by split; [|intros ?; split; intros [= ->]]|].
  destruct (render_deploy_loop w vars_ outdir entries st1 st1 Hout eq_refl)
    as [Hfs Hr].
  destruct (for_each entries (render_entry w vars_ outdir) st1) as [st2 r2].
  destruct (for_each entries (deploy_entry w vars_ (BUILD_DIR w)) st1) as [st3 r3].
  cbn [fst snd] in Hfs, Hr. subst r3.
  destruct r2 as [e|[]]; [by split; [|intros ?; split; intros [= ->]]|].
  unfold secho, emit, ret. by split.
Qed.


Section round_trip.
Implicit Types (p parts : path) (s x : string) (c : ascii).

Lemma split_app_sep c x s :
  Str.contains c x = false → Str.split c (x +:+ String c s) = x :: Str.split c s.
Proof.
  induction x as [|d x IH]; intros Hx.
  - rewrite app_empty. simpl. by rewrite Ascii.eqb_refl.
  - rewrite app_cons. simpl in *. apply orb_false_iff in Hx as [Hd Hx].
    by rewrite Hd, (IH Hx).
Qed.

Lemma split_join parts :
  parts ≠ [] →
  Forall (λ x, Str.contains "/" x = false) parts →
  Str.split "/" (Str.join "/" parts) = parts.
Proof.
  induction parts as [|x [|y parts] IH]; intros Hne Hparts; [done|..].
  - apply Forall_cons in Hparts as [Hx _]. simpl. by apply split_no_sep.
  - apply Forall_cons in Hparts as [Hx Hparts].
    change (Str.join "/" (x :: y :: parts))
      with (x +:+ String "/" (Str.join "/" (y :: parts))).
    rewrite split_app_sep by done. f_equal. by apply IH.
Qed.

Lemma root_of_single s :
  Str.startswith "/" s = false → Path.root_of (String "/" s) = ["/"%string].
Proof.
  destruct s as [|c s]; [done|]. simpl. intros Hc.
  by destruct c as [[] [] [] [] [] [] [] []].
Qed.

(** Two slashes in front are kept, as [pathlib] keeps them; three and more
    are one. *)
Example of_str_two_slashes :
  Path.of_str "//m/a.yaml" = ["//"; "m"; "a.yaml"]%string
  ∧ Path.str (Path.of_str "//m/a.yaml") = "//m/a.yaml"%string
  ∧ Path.str (Path.parent (Path.of_str "//m")) = "//"%string
  ∧ Path.of_str "///m" = ["/"; "m"]%string
  ∧ Path.joinpath (Path.of_str "/repo") "//m" = ["//"; "m"]%string.
Proof. vm_compute. done. Qed.

Lemma of_str_str parts :
  Forall (λ x, Str.contains "/" x = false ∧ x ≠ EmptyString ∧ x ≠ "."%string) parts →
  Path.of_str (Path.str ("/"%string :: parts)) = "/"%string :: parts.
Proof.
  intros Hparts. unfold Path.of_str, Path.str.
  change ("/" +:+ Str.join "/" parts) with (String "/" (Str.join "/" parts)).
  rewrite root_of_single.
  2:{ destruct parts as [|x parts]; [done|].
      apply Forall_cons in Hparts as [(Hx & Hne & _) _].
      destruct x as [|c x]; [done|]. simpl in Hx.
      apply orb_false_iff in Hx as [Hc _].
      destruct parts; simpl; by rewrite ?app_cons. }
  cbn [Str.split]. rewrite Ascii.eqb_refl.
  rewrite filter_cons_False by (by intros [? _]). cbn [app]. f_equal.
  destruct parts as [|x parts]; [done|].
  rewrite split_join; [|done|].
  - clear -Hparts. induction Hparts as [|y l Hy _ IH]; [done|].
    rewrite filter_cons_True by (by destruct Hy as (_ & ? & ?)). by rewrite IH.
  - eapply Forall_impl; [done|]. by intros ? (? & _).
Qed.
End round_trip.

(** The default of [--outdir], [str(BUILD_DIR)], names the directory
    [deploy] writes to, for a root that is an absolute path with ordinary
    parts. *)
Lemma default_outdir w root_parts :
  ROOT w = "/"%string :: root_parts →
  Forall (λ x, Str.contains "/" x = false ∧ x ≠ EmptyString ∧ x ≠ "."%string)
    root_parts →
  Path.of_str (Path.str (BUILD_DIR w)) = BUILD_DIR w.
Proof.
  intros Hroot Hparts.
  assert (BUILD_DIR w = "/"%string :: (root_parts ++ ["build"; "manifests"]%string))
    as ->.
  { unfold BUILD_DIR, Path.joinpath. cbn [Str.startswith Ascii.eqb Bool.eqb].
    rewrite Hroot. by rewrite <-app_assoc. }
  apply of_str_str. apply Forall_app. split; [done|].
  repeat constructor; done.
Qed.

(** *** The file system *)

Section fs_lemmas.
Implicit Types (p q : path) (fs : filesystem) (data : string).

Lemma parent_snoc_cases p n :
  Path.parent (p ++ [n]) = p ∨ Path.parent (p ++ [n]) = p ++ [n].
Proof.
  destruct (decide (n = "/"%string ∨ n = "//"%string)) as [Hn|Hn].
  - destruct p as [|a p]; [by right; destruct Hn as [-> | ->]|]. left.
    unfold Path.parent.
    assert (take (length ((a :: p) ++ [n]) - 1) ((a :: p) ++ [n]) = a :: p) as ->.
    { rewrite length_app. simpl.
      replace (length p + 1 - 0)%nat with (S (length p)) by lia.
      rewrite firstn_cons. f_equal. by rewrite take_app_length. }
    simpl. repeat case_match; try done; by destruct p.
  - left. apply parent_snoc_ne; intros ->; apply Hn; auto.
Qed.

Lemma write_text_inr p data fs fs' :
  FS.write_text p data fs = inr fs' →
  FS.is_dir (Path.parent p) fs = true
  ∧ FS.is_dir p fs = false
  ∧ (∃ n, last p = Some n ∧ n ≠ ".."%string)
  ∧ fs' !! p = Some (RegularFile data)
  ∧ (∀ q, q ≠ p → q ≠ Path.parent p → fs' !! q = fs !! q)
  ∧ (∀ q, FS.is_dir q fs = true → FS.is_dir q fs' = true)
  ∧ (∀ q, is_file q fs = true → is_file q fs' = true).
Proof.
  unfold FS.write_text, FS.is_dir, is_file.
  destruct (last p) as [n|] eqn:Hlast; [|done].
  case_bool_decide as Hn; [done|].
  destruct (fs !! Path.parent p) as [[es|]|] eqn:Hpar; [|done..].
  destruct (fs !! p) as [[es'|data']|] eqn:Hp; [done|..]; intros [= <-].
  - assert (Path.parent p ≠ p) as Hne by congruence.
    split_and!; try done; [by eexists|by rewrite lookup_insert_eq|..].
    + intros q ??. by rewrite lookup_insert_ne.
    + intros q. rewrite lookup_insert. case_decide; [by subst; rewrite Hp|done].
    + intros q. rewrite lookup_insert. by case_decide.
  - split_and!; try done; [by eexists|by rewrite lookup_insert_eq|..].
    + intros q ??. by rewrite !lookup_insert_ne.
    + intros q. rewrite !lookup_insert. case_decide; [by subst; rewrite Hp|].
      by case_decide.
    + intros q. rewrite !lookup_insert. case_decide; [done|].
      case_decide; [by subst; rewrite Hpar|done].
Qed.

Lemma mkdir_inr p fs fs' :
  FS.mkdir p fs = inr fs' →
  FS.is_dir p fs' = true
  ∧ ∀ q, q ≠ p → q ≠ Path.parent p → fs' !! q = fs !! q.
Proof.
  unfold FS.mkdir, FS.is_dir.
  destruct (fs !! p) as [[es|data]|] eqn:Hp; [| done |].
  - intros [= <-]. by rewrite Hp.
  - destruct (fs !! Path.parent p) as [[es|]|]; [|done..]. intros [= <-].
    rewrite lookup_insert_eq. split; [done|].
    intros q ??. by rewrite !lookup_insert_ne.
Qed.

Lemma mkdir_parents_inr done todo fs fs' :
  FS.mkdir_parents done todo fs = inr fs' →
  (todo ≠ [] → FS.is_dir (done ++ todo) fs' = true)
  ∧ ∀ q, ¬ q `prefix_of` done ++ todo → fs' !! q = fs !! q.
Proof.
  revert done fs. induction todo as [|c todo IH]; intros done fs; simpl.
  { by intros [= <-]. }
  destruct (FS.mkdir (done ++ [c]) fs) as [e|fs1] eqn:Hmk;
    [by destruct e, todo|].
  apply mkdir_inr in Hmk as [Hdir Hframe]. intros Hrest.
  pose proof Hrest as Hrest'.
  apply IH in Hrest as [Hdir' Hframe']. rewrite <-app_assoc in Hdir', Hframe'.
  simpl in Hdir', Hframe'. split.
  - intros _. destruct todo as [|c' todo]; [|by apply Hdir'].
    simpl in Hrest'. by injection Hrest' as <-.
  - intros q Hq. rewrite Hframe' by done. apply Hframe.
    + intros ->. apply Hq. by exists todo; rewrite <-app_assoc.
    + intros ->. apply Hq.
      destruct (parent_snoc_cases done c) as [-> | ->].
      * by exists (c :: todo).
      * by exists todo; rewrite <-app_assoc.
Qed.
End fs_lemmas.

(** *** One run of [render] *)

Section template_lemmas.
Implicit Types (n s a b stem : string) (c : ascii).

Lemma rfind_none c s : Str.contains c s = false → Str.rfind c s = None.
Proof.
  induction s as [|d s IH]; [done|]. simpl.
  intros [Hd Hs]%orb_false_iff. by rewrite (IH Hs), Hd.
Qed.

Lemma rfind_app_last c a b :
  Str.contains c b = false →
  Str.rfind c (a +:+ String c b) = Some (String.length a).
Proof.
  intros Hb. induction a as [|d a IH].
  - rewrite app_empty. simpl. by rewrite (rfind_none _ _ Hb), Ascii.eqb_refl.
  - rewrite app_cons. simpl. by rewrite IH.
Qed.

Lemma slice_from_app a b : Str.slice_from (String.length a) (a +:+ b) = b.
Proof. induction a as [|d a IH]; [by destruct b|]. by rewrite app_cons. Qed.

Lemma slice_to_app a b : Str.slice_to (String.length a) (a +:+ b) = a.
Proof.
  induction a as [|d a IH]; [by destruct b|]. rewrite app_cons. simpl.
  by rewrite IH.
Qed.

Lemma length_app_str a b :
  String.length (a +:+ b) = (String.length a + String.length b)%nat.
Proof. induction a as [|d a IH]; [done|]. rewrite app_cons. simpl. by rewrite IH. Qed.

(** The templates are the names made of a stem that is not empty and of
    [.j2]; their output name is the stem. *)
Lemma is_template_spec n :
  Out.is_template n = true ↔ ∃ stem, stem ≠ EmptyString ∧ n = stem +:+ ".j2".
Proof.
  unfold Out.is_template, Path.name_suffix. split.
  - intros Hs%bool_decide_eq_true.
    destruct (Str.rfind "." n) as [i|]; [|done].
    case_bool_decide as Hi; [|done].
    exists (Str.slice_to i n). split.
    + destruct n, i; simpl in *; try done; lia.
    + by rewrite <-Hs, slice_to_from.
  - intros (stem & Hstem & ->). apply bool_decide_eq_true.
    change (stem +:+ ".j2") with (stem +:+ String "." "j2").
    rewrite rfind_app_last by done.
    rewrite bool_decide_true.
    + by rewrite slice_from_app.
    + rewrite length_app_str. simpl. destruct stem; [done|]. simpl. lia.
Qed.

Lemma out_name_template stem :
  stem ≠ EmptyString → Out.name (stem +:+ ".j2") = stem.
Proof.
  intros Hstem. unfold Out.name.
  rewrite (proj2 (is_template_spec _)) by eauto.
  unfold Path.name_stem.
  change (stem +:+ ".j2") with (stem +:+ String "." "j2").
  rewrite rfind_app_last by done. rewrite bool_decide_true.
  - by rewrite slice_to_app.
  - rewrite length_app_str. simpl. destruct stem; [done|]. simpl. lia.
Qed.

Lemma out_name_other n :
  (¬ ∃ stem, stem ≠ EmptyString ∧ n = stem +:+ ".j2") → Out.name n = n.
Proof.
  intros Hn. unfold Out.name.
  destruct (Out.is_template n) eqn:Ht; [|done].
  by apply is_template_spec in Ht.
Qed.

Lemma out_text_other w vars_ fs n :
  (¬ ∃ stem, stem ≠ EmptyString ∧ n = stem +:+ ".j2") →
  Out.text w vars_ fs n = FS.read_text (MANIFEST_DIR w ++ [n]) fs.
Proof.
  intros Hn. unfold Out.text.
  destruct (Out.is_template n) eqn:Ht; [|done].
  by apply is_template_spec in Ht.
Qed.

(** A text without carriage return is read as it is. *)
Lemma universal_newlines_id s :
  Str.contains "013" s = false → Str.universal_newlines s = s.
Proof.
  induction s as [|c s IH]; [done|]. simpl.
  intros [Hc Hs]%orb_false_iff. by rewrite Hc, (IH Hs).
Qed.
End template_lemmas.

Lemma load_env_values_state values st :
  (_load_env_values values st).1 = st.
Proof.
  destruct values as [f|]; [|done]. unfold _load_env_values.
  destruct (Str.truthy f); [|done]. simpl.
  unfold bind, read_text, fs_op.
  destruct (FS.read_text (Path.of_str f) (fs st)) as [e|text]; [done|].
  rewrite fold_each_load_line. by destruct st.
Qed.

Section render_lemmas.
Context (w : world) (vars_ : gmap string string) (outdir : string).
Implicit Types (n : string) (st : state) (p : path).

Local Abbreviation src := (MANIFEST_DIR w).
Local Abbreviation out := (Path.of_str outdir).

Hypothesis out_not_inside : ¬ src `prefix_of` out.

Lemma MANIFEST_DIR_parts : src = ROOT w ++ ["openshift"; "manifests"]%string.
Proof.
  unfold MANIFEST_DIR, Path.joinpath. cbn [Str.startswith Ascii.eqb Bool.eqb].
  by rewrite <-app_assoc.
Qed.

Lemma MANIFEST_DIR_not_nil : src ≠ [].
Proof. rewrite MANIFEST_DIR_parts. by destruct (ROOT w). Qed.

Lemma src_entry_not_out n o : src ++ [n] ≠ out ++ [o] ∧ src ++ [n] ≠ out.
Proof.
  split.
  - intros [Heq _]%app_inj_tail. apply out_not_inside. by rewrite Heq.
  - intros Heq. apply out_not_inside. rewrite <-Heq. by exists [n].
Qed.

Lemma is_entry_file_ext fs1 fs2 n :
  fs1 !! (src ++ [n]) = fs2 !! (src ++ [n]) →
  Out.is_entry_file w fs1 n = Out.is_entry_file w fs2 n.
Proof. intros H. unfold Out.is_entry_file, FS.is_dir. by rewrite H. Qed.

Lemma out_text_ext fs1 fs2 n text :
  fs1 !! (src ++ [n]) = fs2 !! (src ++ [n]) →
  Out.text w vars_ fs1 n = inr text → Out.text w vars_ fs2 n = inr text.
Proof.
  intros H. unfold Out.text, FS.read_text, FS.open_read. rewrite H.
  destruct (fs2 !! (src ++ [n])) as [[]|]; [done|done|].
  by destruct (Out.is_template n).
Qed.

Lemma write_text_dir_fails p data fs :
  (p ≠ [] → FS.is_dir p fs = true) → ∃ e, FS.write_text p data fs = inl e.
Proof.
  intros Hdir. unfold FS.write_text.
  destruct (last p) as [x|] eqn:Hlast; [|by eexists].
  case_bool_decide; [by eexists|].
  assert (FS.is_dir p fs = true) as Hp by (apply Hdir; by intros ->).
  unfold FS.is_dir in Hp.
  destruct (fs !! Path.parent p) as [[es|]|]; [|by eexists..].
  destruct (fs !! p) as [[es'|]|]; [by eexists|done..].
Qed.

Lemma out_name_no_sep n :
  Str.contains "/" n = false → Str.contains "/" (Out.name n) = false.
Proof.
  intros Hn. unfold Out.name, Path.name_stem.
  destruct (Out.is_template n); [|done].
  destruct (Str.rfind "." n); [|done].
  case_bool_decide; [|done]. by apply contains_slice_to.
Qed.

(** Where an entry is written: straight under the output directory, unless
    its output name is empty or a dot, and then on the directory itself. *)
Lemma out_path n :
  Str.contains "/" n = false →
  Path.joinpath out (Out.name n)
  = if bool_decide (Out.name n = EmptyString ∨ Out.name n = "."%string)
    then out else out ++ [Out.name n].
Proof. intros Hn. by apply joinpath_no_sep, out_name_no_sep. Qed.

Lemma render_entry_inr n st st1 :
  Str.contains "/" n = false →
  (out ≠ [] → FS.is_dir out (fs st) = true) →
  render_entry w vars_ outdir (src ++ [n]) st = (st1, inr tt) →
  if Out.is_entry_file w (fs st) n then
    ∃ text, Out.text w vars_ (fs st) n = inr text
      ∧ FS.write_text (out ++ [Out.name n]) text (fs st) = inr (fs st1)
      ∧ Path.parent (out ++ [Out.name n]) = out
  else fs st1 = fs st.
Proof.
  intros Hn Hdir. pose proof (out_path n Hn) as Hpath.
  assert (Path.parent (out ++ [Out.name n]) = out) as Hparent.
  { by apply parent_snoc, out_name_no_sep. }
  unfold render_entry, bind, is_dir, get_template_render, write_text, read_text,
    fs_op, secho, emit, ret, Path.suffix, Path.stem, Out.is_entry_file.
  rewrite (name_snoc _ _ MANIFEST_DIR_not_nil).
  destruct (FS.is_dir (src ++ [n]) (fs st)); cbn [negb]; [by intros [= <-]|].
  unfold Out.text. unfold Out.name in Hpath, Hparent |- *.
  fold (Out.is_template n). destruct (Out.is_template n).
  - destruct (FS.open_read (src ++ [n]) (fs st)) as [e|source]; [done|].
    destruct (jinja_render w n source vars_) as [e|rendered]; [done|].
    rewrite Hpath. cbn [fs log].
    case_bool_decide.
    { by destruct (write_text_dir_fails out rendered (fs st) Hdir) as [e ->]. }
    destruct (FS.write_text _ rendered (fs st)) as [e|fs'] eqn:Hw; [done|].
    intros [= <-]. by exists rendered.
  - destruct (FS.read_text (src ++ [n]) (fs st)) as [e|text]; [done|].
    rewrite Hpath. cbn [fs log].
    case_bool_decide.
    { by destruct (write_text_dir_fails out text (fs st) Hdir) as [e ->]. }
    destruct (FS.write_text _ text (fs st)) as [e|fs'] eqn:Hw; [done|].
    intros [= <-]. by exists text.
Qed.

(** What one written entry changes. *)
Lemma render_entry_file n st st1 :
  Str.contains "/" n = false →
  (out ≠ [] → FS.is_dir out (fs st) = true) →
  render_entry w vars_ outdir (src ++ [n]) st = (st1, inr tt) →
  Out.is_entry_file w (fs st) n = true →
  ∃ text, Out.text w vars_ (fs st) n = inr text
    ∧ fs st1 !! (out ++ [Out.name n]) = Some (RegularFile text)
    ∧ (∀ p, p ≠ out → p ≠ out ++ [Out.name n] → fs st1 !! p = fs st !! p)
    ∧ (∀ p, FS.is_dir p (fs st) = true → FS.is_dir p (fs st1) = true)
    ∧ (∀ p, is_file p (fs st) = true → is_file p (fs st1) = true).
Proof.
  intros Hn Hdir Hrun Hfile.
  pose proof (render_entry_inr n st st1 Hn Hdir Hrun) as Hstep.
  rewrite Hfile in Hstep. destruct Hstep as (text & Htext & Hw & Hparent).
  apply write_text_inr in Hw as (_ & _ & _ & Hp & Hframe & Hdirs & Hfiles).
  rewrite Hparent in Hframe. exists text. split_and!; try done.
  intros p ??. by apply Hframe.
Qed.

Lemma render_loop_inr names st st' :
  (∀ n, n ∈ names → Str.contains "/" n = false) →
  (out ≠ [] → FS.is_dir out (fs st) = true) →
  for_each ((λ n, src ++ [n]) <$> names) (render_entry w vars_ outdir) st
  = (st', inr tt) →
  (∀ p, p ≠ out →
     (∀ n, n ∈ names → Out.is_entry_file w (fs st) n = true →
           p ≠ out ++ [Out.name n]) →
     fs st' !! p = fs st !! p)
  ∧ (∀ l1 n l2, names = l1 ++ n :: l2 →
       Out.is_entry_file w (fs st) n = true →
       (∀ n', n' ∈ l2 → Out.is_entry_file w (fs st) n' = true →
              Out.name n' ≠ Out.name n) →
       ∃ text, Out.text w vars_ (fs st) n = inr text
             ∧ fs st' !! (out ++ [Out.name n]) = Some (RegularFile text))
  ∧ (∀ p, is_file p (fs st) = true → is_file p (fs st') = true)
  ∧ (∀ n, n ∈ names → Out.is_entry_file w (fs st) n = true →
          is_file (out ++ [Out.name n]) (fs st') = true).
Proof.
  revert st. induction names as [|n0 names IH]; intros st Hnames Hdir.
  { intros [= <-]. split_and!; try done.
    - by intros [] ???.
    - by intros ? ?%elem_of_nil. }
  rewrite fmap_cons. cbn [for_each]. unfold bind at 1.
  destruct (render_entry w vars_ outdir (src ++ [n0]) st) as [st1 [e|[]]] eqn:Hstep;
    [done|].
  intros Hrest.
  assert (Str.contains "/" n0 = false) as Hn0 by (apply Hnames; by left).
  assert (∀ n, n ∈ names → Str.contains "/" n = false) as Hnames'
    by (intros ??; apply Hnames; by right).
  destruct (Out.is_entry_file w (fs st) n0) eqn:Hfile.
  - destruct (render_entry_file n0 st st1 Hn0 Hdir Hstep Hfile)
      as (text0 & Htext0 & Hp0 & Hframe & Hdirs & Hfiles).
    assert (∀ n, fs st1 !! (src ++ [n]) = fs st !! (src ++ [n])) as Hsrc.
    { intros n. destruct (src_entry_not_out n (Out.name n0)) as [??].
      by apply Hframe. }
    assert (∀ n, Out.is_entry_file w (fs st1) n = Out.is_entry_file w (fs st) n)
      as Hef by (intros n; by apply is_entry_file_ext).
    assert (∀ n text, Out.text w vars_ (fs st1) n = inr text →
                      Out.text w vars_ (fs st) n = inr text)
      as Htx by (intros n text; by apply out_text_ext).
    destruct (IH st1 Hnames' (λ H, Hdirs _ (Hdir H)) Hrest) as (IHa & IHb & IHc & IHd).
    split_and!.
    + intros p Hp Hpn. rewrite IHa; [|done|].
      * apply Hframe; [done|]. apply Hpn; [by left|done].
      * intros n Hin Hf. apply Hpn; [by right|]. by rewrite <-Hef.
    + intros [|n1 l1] n l2 Heq Hf Hlast; simplify_eq/=.
      * exists text0. split; [done|]. rewrite IHa; [done|..].
        -- intros Heq. apply (f_equal length) in Heq.
           rewrite length_app in Heq. simpl in Heq. lia.
        -- intros n' Hin Hf' [_ Heq]%app_inj_tail.
           apply (Hlast n' Hin); [by rewrite <-Hef|done].
      * destruct (IHb l1 n l2 eq_refl) as (text & Ht & Hl); [by rewrite Hef|..].
        { intros n' Hin Hf'. apply Hlast; [done|by rewrite <-Hef]. }
        exists text. split; [by apply Htx|done].
    + intros p Hp. by apply IHc, Hfiles.
    + intros n [->|Hin]%elem_of_cons Hf.
      * apply IHc. unfold is_file. by rewrite Hp0.
      * apply IHd; [done|by rewrite Hef].
  - pose proof (render_entry_inr n0 st st1 Hn0 Hdir Hstep) as Hfs.
    rewrite Hfile in Hfs.
    assert (out ≠ [] → FS.is_dir out (fs st1) = true) as Hdir1 by by rewrite Hfs.
    destruct (IH st1 Hnames' Hdir1 Hrest) as (IHa & IHb & IHc & IHd).
    rewrite Hfs in IHa, IHb, IHc, IHd.
    split_and!.
    + intros p Hp Hpn. apply IHa; [done|].
      intros n Hin Hf. apply Hpn; [by right|done].
    + intros [|n1 l1] n l2 Heq Hf Hlast; simplify_eq/=.
      * congruence.
      * by apply (IHb l1 n l2).
    + done.
    + intros n [->|Hin]%elem_of_cons Hf; [congruence|by apply IHd].
Qed.
End render_lemmas.

(** What a run of [render] that succeeds leaves. *)
Lemma render_run_inr w values outdir st st' entries :
  let src := MANIFEST_DIR w in
  let out := Path.of_str outdir in
  ¬ src `prefix_of` out →
  fs st !! src = Some (Directory entries) →
  Forall (λ n, Str.contains "/" n = false) entries →
  render w values outdir st = (st', inr tt) →
  ∃ vars_,
    _load_env_values values st = (st, inr vars_)
    ∧ (∀ n, n ∈ entries → Out.is_entry_file w (fs st) n = true →
         is_file (out ++ [Out.name n]) (fs st') = true)
    ∧ (∀ l1 n l2, entries = l1 ++ n :: l2 →
         Out.is_entry_file w (fs st) n = true →
         (∀ n', n' ∈ l2 → Out.is_entry_file w (fs st) n' = true →
                Out.name n' ≠ Out.name n) →
         ∃ text, Out.text w vars_ (fs st) n = inr text
               ∧ fs st' !! (out ++ [Out.name n]) = Some (RegularFile text))
    ∧ (∀ p, ¬ p `prefix_of` out →
         (∀ n, n ∈ entries → Out.is_entry_file w (fs st) n = true →
               p ≠ out ++ [Out.name n]) →
         fs st' !! p = fs st !! p).
Proof.
  intros src out Hbelow Hsrc Hnames. rewrite Forall_forall in Hnames.
  subst src out.
  unfold render, bind at 1.
  pose proof (load_env_values_state values st) as Hst0.
  destruct (_load_env_values values st) as [st0 [e|vars_]]; [by cbv beta iota; intros ?; simplify_eq|]; cbv beta iota.
  cbn [fst] in Hst0. subst st0.
  unfold bind at 1, _ensure_dir, fs_op.
  destruct (FS.mkdir_parents [] (Path.of_str outdir) (fs st)) as [e|fs1] eqn:Hmk;
    [by cbv beta iota; intros ?; simplify_eq|]; cbv beta iota.
  apply mkdir_parents_inr in Hmk as [Hdir Hframe]. rewrite app_nil_l in Hdir, Hframe.
  unfold bind at 1, iterdir, FS.iterdir. cbn [fs log].
  rewrite (Hframe _ Hbelow), Hsrc.
  unfold bind at 1.
  destruct (for_each _ (render_entry w vars_ outdir) _) as [st2 [e|[]]] eqn:Hloop;
    [by cbv beta iota; intros ?; simplify_eq|]; cbv beta iota.
  unfold secho, emit. intros [= <-]. cbn [fs].
  destruct (render_loop_inr w vars_ outdir Hbelow entries (State fs1 (log st)) st2
              Hnames Hdir Hloop)
    as (Ha & Hb & _ & Hd).
  cbn [fs] in Ha, Hb, Hd.
  assert (∀ n, fs1 !! (MANIFEST_DIR w ++ [n]) = fs st !! (MANIFEST_DIR w ++ [n]))
    as Hsame.
  { intros n. apply Hframe. intros [k Hk]. apply Hbelow.
    exists ([n] ++ k). by rewrite app_assoc. }
  assert (∀ n, Out.is_entry_file w fs1 n = Out.is_entry_file w (fs st) n) as Hef
    by (intros n; by apply is_entry_file_ext).
  assert (∀ n text, Out.text w vars_ fs1 n = inr text →
                    Out.text w vars_ (fs st) n = inr text) as Htx
    by (intros n text; by apply out_text_ext).
  exists vars_. split_and!; [done|..].
  - intros n Hin Hf. apply Hd; [done|by rewrite Hef].
  - intros l1 n l2 Heq Hf Hlast.
    destruct (Hb l1 n l2 Heq) as (text & Ht & Hl); [by rewrite Hef|..].
    { intros n' Hin Hf'. apply Hlast; [done|by rewrite <-Hef]. }
    exists text. split; [by apply Htx|done].
  - intros p Hp Hpn. rewrite Ha; [by apply Hframe| |].
    + intros ->. by apply Hp.
    + intros n Hin Hf. apply Hpn; [done|by rewrite <-Hef].
Qed.


Section same_files.
Context (w : world).

Lemma build_dir_not_inside : ¬ MANIFEST_DIR w `prefix_of` BUILD_DIR w.
Proof.
  unfold MANIFEST_DIR, BUILD_DIR, Path.joinpath.
  cbn [Str.startswith Ascii.eqb Bool.eqb]. rewrite <-!app_assoc.
  intros [k Hk]. rewrite <-app_assoc in Hk. apply app_inv_head in Hk.
  discriminate.
Qed.

(** The last entry of a list that is a file with a given output name. *)
Lemma last_entry_with fs (o : string) entries n :
  n ∈ entries → Out.is_entry_file w fs n = true → Out.name n = o →
  ∃ l1 y l2, entries = l1 ++ y :: l2
    ∧ Out.is_entry_file w fs y = true ∧ Out.name y = o
    ∧ ∀ z, z ∈ l2 → Out.is_entry_file w fs z = true → Out.name z ≠ o.
Proof.
  intros Hin Hf Ho.
  set (P := λ z, Out.is_entry_file w fs z = true ∧ Out.name z = o).
  assert (Exists P entries) as Hex by (apply Exists_exists; by exists n).
  clear n Hin Hf Ho.
  induction entries as [|a entries IH]; [by apply Exists_nil in Hex|].
  destruct (decide (Exists P entries)) as [Hlater|Hnone].
  - destruct (IH Hlater) as (l1 & y & l2 & -> & Hy).
    by exists (a :: l1), y, l2.
  - apply Exists_cons in Hex as [[Hfa Hoa]|Hex]; [|done].
    exists [], a, entries. split_and!; [done..|].
    intros z Hz Hfz Hoz. apply Hnone, Exists_exists. by exists z.
Qed.

(** [render] into any output directory and the first phase of [deploy]:
    the output file of every entry holds the same bytes. *)
Lemma render_deploy_same_files values outdir st st1 st2 x entries root_parts :
  ROOT w = "/"%string :: root_parts →
  Forall (λ c, Str.contains "/" c = false ∧ c ≠ EmptyString ∧ c ≠ "."%string)
    root_parts →
  ¬ MANIFEST_DIR w `prefix_of` Path.of_str outdir →
  fs st !! MANIFEST_DIR w = Some (Directory entries) →
  Forall (λ n, Str.contains "/" n = false) entries →
  render w values outdir st = (st1, inr tt) →
  deploy_render w values st = (st2, inr x) →
  ∀ n, n ∈ entries → Out.is_entry_file w (fs st) n = true →
    ∃ text,
      fs st1 !! (Path.of_str outdir ++ [Out.name n]) = Some (RegularFile text)
      ∧ fs st2 !! (BUILD_DIR w ++ [Out.name n]) = Some (RegularFile text).
Proof.
  intros Hroot Hparts Hout Hsrc Hnames Hrender Hdeploy n Hin Hfile.
  pose proof (default_outdir w root_parts Hroot Hparts) as Hdefault.
  destruct (render_deploy_same w values (Path.str (BUILD_DIR w)) st Hdefault)
    as [Hfs Hfail].
  rewrite Hdeploy in Hfs, Hfail. cbn [fst snd] in Hfs, Hfail.
  destruct (render w values (Path.str (BUILD_DIR w)) st) as [st3 [e|[]]] eqn:Hbuild.
  { pose proof (proj1 (Hfail e) eq_refl) as Habs. discriminate. }
  cbn [fst] in Hfs.
  destruct (render_run_inr w values outdir st st1 entries Hout Hsrc Hnames Hrender)
    as (vars1 & Hload1 & _ & Hlast1 & _).
  destruct (render_run_inr w values (Path.str (BUILD_DIR w)) st st3 entries)
    as (vars3 & Hload3 & _ & Hlast3 & _).
  { rewrite Hdefault. apply build_dir_not_inside. }
  { done. }
  { done. }
  { done. }
  rewrite Hload1 in Hload3. injection Hload3 as <-.
  destruct (last_entry_with (fs st) (Out.name n) entries n Hin Hfile eq_refl)
    as (l1 & y & l2 & Hsplit & Hfy & Hoy & Hlater).
  destruct (Hlast1 l1 y l2 Hsplit Hfy) as (text & Htext & Hone).
  { intros z Hz Hfz. rewrite Hoy. by apply Hlater. }
  destruct (Hlast3 l1 y l2 Hsplit Hfy) as (text' & Htext' & Htwo).
  { intros z Hz Hfz. rewrite Hoy. by apply Hlater. }
  rewrite Htext in Htext'. injection Htext' as <-.
  exists text. rewrite <-Hoy. split; [done|].
  rewrite <-Hfs, <-Hdefault. exact Htwo.
Qed.
End same_files.

(** C5: on the same source files and the same values file, [render] and
    the first phase of [deploy] produce the same output files with the same
    bytes.  Into the build directory they leave the same file system, and
    one fails exactly when the other does, with the same error; into any
    other output directory that is not the source directory nor inside it,
    when both succeed, the output file of every entry holds the same bytes
    as the one [deploy] writes. *)
Theorem render_deploy_same_output w values st :
  (∀ outdir,
     Path.of_str outdir = BUILD_DIR w →
     fs (render w values outdir st).1 = fs (deploy_render w values st).1
     ∧ ∀ e, (render w values outdir st).2 = inl e
            ↔ (deploy_render w values st).2 = inl e)
  ∧ (∀ outdir st1 st2 x entries root_parts,
       ROOT w = "/"%string :: root_parts →
       Forall (λ c, Str.contains "/" c = false ∧ c ≠ EmptyString ∧ c ≠ "."%string)
         root_parts →
       ¬ MANIFEST_DIR w `prefix_of` Path.of_str outdir →
       fs st !! MANIFEST_DIR w = Some (Directory entries) →
       Forall (λ n, Str.contains "/" n = false) entries →
       render w values outdir st = (st1, inr tt) →
       deploy_render w values st = (st2, inr x) →
       ∀ n, n ∈ entries → Out.is_entry_file w (fs st) n = true →
         ∃ text,
           fs st1 !! (Path.of_str outdir ++ [Out.name n]) = Some (RegularFile text)
           ∧ fs st2 !! (BUILD_DIR w ++ [Out.name n]) = Some (RegularFile text)).
Proof.
  split.
  - intros outdir Hout. by apply render_deploy_same.
  - intros outdir st1 st2 x entries root_parts.
    apply render_deploy_same_files.
Qed.

Lemma render_deploy_same_output_witness :
  fs (render Demo.world_oc (Some "/env"%string) "/repo/build/manifests" Demo.start).1
  = fs (deploy_render Demo.world_oc (Some "/env"%string) Demo.start).1
  ∧ ∃ text,
      fs (render Demo.world_oc (Some "/env"%string) "/out" Demo.start).1
        !! ["/"; "out"; "deployment.yaml"]%string = Some (RegularFile text)
      ∧ fs (deploy_render Demo.world_oc (Some "/env"%string) Demo.start).1
          !! ["/"; "repo"; "build"; "manifests"; "deployment.yaml"]%string
        = Some (RegularFile text).
Proof.
  destruct (render_deploy_same_output Demo.world_oc (Some "/env"%string) Demo.start)
    as [Hsame Hfiles].
  split; [apply (proj1 (Hsame "/repo/build/manifests"%string eq_refl))|].
  destruct (Hfiles "/out"%string
           (render Demo.world_oc (Some "/env"%string) "/out" Demo.start).1
           (deploy_render Demo.world_oc (Some "/env"%string) Demo.start).1
           ({["A" := "2"; "" := "x"; "B" := "u=v"]}%string,
            ["/"; "repo"; "build"; "manifests"]%string)
           ["deployment.yaml.j2"; "README.txt"; "charts"]%string
           ["repo"%string] eq_refl) with "deployment.yaml.j2"%string
    as (text & Hrender & Hdeploy).
  - repeat constructor; done.
  - intros [k Hk]. vm_compute in Hk. discriminate.
  - vm_compute. reflexivity.
  - repeat constructor.
  - apply run_inr. vm_compute. reflexivity.
  - apply run_inr. vm_compute. reflexivity.
  - by left.
  - vm_compute. reflexivity.
  - exists text. split; [exact Hrender|exact Hdeploy].
Defined.

(** The example of the specification: a template and a static file. *)
Example render_example :
  let st' := (render Demo.world_oc (Some "/env"%string) "/out" Demo.start).1 in
  (render Demo.world_oc (Some "/env"%string) "/out" Demo.start).2 = inr tt
  ∧ fs st' !! ["/"; "out"]%string
    = Some (Directory ["deployment.yaml"; "README.txt"]%string)
  ∧ fs st' !! ["/"; "out"; "deployment.yaml"]%string
    = Some (RegularFile "<name: {{APP_NAME}}>")
  ∧ fs st' !! ["/"; "out"; "README.txt"]%string = Some (RegularFile "read me").
Proof. vm_compute. done. Qed.

(** C8 as stated fails: with a file [a] and a template [a.j2] in the source
    directory, four file entries leave three output files, [a] holding the
    rendered template; the copy of a file with a carriage return is not the
    file; and the file [.j2], whose name ends in the template extension, is
    copied under its own name. *)
Lemma render_one_to_one_counterexample :
  let st' := (render Demo.world_oc None "/out" (State Demo.clash [])).1 in
  (render Demo.world_oc None "/out" (State Demo.clash [])).2 = inr tt
  ∧ Demo.clash !! MANIFEST_DIR Demo.world_oc
    = Some (Directory ["a"; "a.j2"; "crlf.txt"; ".j2"]%string)
  ∧ fs st' !! ["/"; "out"]%string
    = Some (Directory ["a"; "crlf.txt"; ".j2"]%string)
  ∧ fs st' !! ["/"; "out"; "a"]%string = Some (RegularFile "<tmpl>")
  ∧ fs st' !! ["/"; "out"; "crlf.txt"]%string
    ≠ Demo.clash !! ["/"; "repo"; "openshift"; "manifests"; "crlf.txt"]%string
  ∧ fs st' !! ["/"; "out"; ".j2"]%string = Some (RegularFile "dot").
Proof. vm_compute. split_and!; done. Qed.

(** C8, amended: when [render] succeeds into an output directory that is
    not the source directory nor inside it, every entry of the source
    directory that is no directory has its output file straight under the
    output directory, named by the stem for a template (a name made of a stem
    that is not empty and of [.j2]) and by the entry's own name otherwise;
    the file holds what the last entry with that output name gives: the text
    Jinja renders for a template, the text of the file as text mode reads it
    otherwise (the file itself when it has no carriage return), whatever was
    there before; nothing else changes outside the output directory's own
    node and its ancestors, so directories give no output.  Two entries with
    one output name share one output file. *)
Theorem render_output w values outdir st st' entries :
  let src := MANIFEST_DIR w in
  let out := Path.of_str outdir in
  ¬ src `prefix_of` out →
  fs st !! src = Some (Directory entries) →
  Forall (λ n, Str.contains "/" n = false) entries →
  render w values outdir st = (st', inr tt) →
  ∃ vars_,
    _load_env_values values st = (st, inr vars_)
    ∧ (∀ n, n ∈ entries → Out.is_entry_file w (fs st) n = true →
         is_file (out ++ [Out.name n]) (fs st') = true)
    ∧ (∀ l1 n l2, entries = l1 ++ n :: l2 →
         Out.is_entry_file w (fs st) n = true →
         (∀ n', n' ∈ l2 → Out.is_entry_file w (fs st) n' = true →
                Out.name n' ≠ Out.name n) →
         ∃ text, Out.text w vars_ (fs st) n = inr text
               ∧ fs st' !! (out ++ [Out.name n]) = Some (RegularFile text))
    ∧ (∀ p, ¬ p `prefix_of` out →
         (∀ n, n ∈ entries → Out.is_entry_file w (fs st) n = true →
               p ≠ out ++ [Out.name n]) →
         fs st' !! p = fs st !! p)
    ∧ (∀ stem, stem ≠ EmptyString → Out.name (stem +:+ ".j2") = stem)
    ∧ (∀ n, (¬ ∃ stem, stem ≠ EmptyString ∧ n = stem +:+ ".j2") →
         Out.name n = n
         ∧ ∀ data, fs st !! (src ++ [n]) = Some (RegularFile data) →
             Out.text w vars_ (fs st) n = inr (Str.universal_newlines data)
             ∧ (Str.contains "013" data = false →
                Out.text w vars_ (fs st) n = inr data)).
Proof.
  intros src out Hbelow Hsrc Hnames Hrun.
  destruct (render_run_inr w values outdir st st' entries Hbelow Hsrc Hnames Hrun)
    as (vars_ & Hload & Hfiles & Hlast & Hframe).
  exists vars_. split_and!; [done..| |].
  - apply out_name_template.
  - intros n Hn. split; [by apply out_name_other|].
    intros data Hdata. rewrite out_text_other by done.
    unfold FS.read_text, FS.open_read. subst src. rewrite Hdata.
    split; [done|]. intros Hcr. by rewrite universal_newlines_id.
Qed.

Lemma render_output_witness :
  ∃ vars_,
    _load_env_values (Some "/env"%string) Demo.start = (Demo.start, inr vars_)
    ∧ ∀ n, n ∈ ["deployment.yaml.j2"; "README.txt"; "charts"]%string →
        Out.is_entry_file Demo.world_oc (fs Demo.start) n = true →
        is_file (Path.of_str "/out" ++ [Out.name n])
          (fs (render Demo.world_oc (Some "/env"%string) "/out" Demo.start).1)
        = true.
Proof.
  destruct (render_output Demo.world_oc (Some "/env"%string) "/out" Demo.start
              (render Demo.world_oc (Some "/env"%string) "/out" Demo.start).1
              ["deployment.yaml.j2"; "README.txt"; "charts"]%string)
    as (vars_ & Hload & Hfiles & _).
  - intros [k Hk]. vm_compute in Hk. discriminate.
  - vm_compute. reflexivity.
  - repeat constructor.
  - apply run_inr. vm_compute. reflexivity.
  - exists vars_. split; [exact Hload|exact Hfiles].
Defined.

(** Re-running: a stale output file is replaced. *)
Example render_replaces_stale_output :
  let stale :=
    State (<[["/"; "out"]%string := Directory ["README.txt"]%string]>
             (<[["/"; "out"; "README.txt"]%string := RegularFile "old"]> Demo.files)) [] in
  let st' := (render Demo.world_oc (Some "/env"%string) "/out" stale).1 in
  fs st' !! ["/"; "out"; "README.txt"]%string = Some (RegularFile "read me")
  ∧ fs st' !! ["/"; "out"]%string
    = Some (Directory ["README.txt"; "deployment.yaml"]%string).
Proof. split; vm_compute; reflexivity. Qed.

(** ** The other commands *)

Section projections.
Implicit Types (l : list event).

Lemma echoed_app l1 l2 : echoed (l1 ++ l2) = echoed l1 ++ echoed l2.
Proof. apply omap_app. Qed.

Lemma configs_loaded_app l1 l2 :
  configs_loaded (l1 ++ l2) = configs_loaded l1 ++ configs_loaded l2.
Proof. apply omap_app. Qed.

Lemma playbook_runs_app l1 l2 :
  playbook_runs (l1 ++ l2) = playbook_runs l1 ++ playbook_runs l2.
Proof. apply omap_app. Qed.
End projections.

(** *** [_kube_login_if_needed] *)

(** X1: [_kube_login_if_needed] never raises and leaves the file system as
    it is.  It loads one configuration, the in-cluster one exactly when
    [KUBERNETES_SERVICE_HOST] is set to a string that is not empty; a
    configuration that does not load leaves a yellow warning with the text
    of the error, and nothing else. *)
Theorem kube_login_never_raises w st :
  ∃ incluster new,
    _kube_login_if_needed w st = (State (fs st) (log st ++ new), inr tt)
    ∧ (incluster = true
       ↔ ∃ v, environ w "KUBERNETES_SERVICE_HOST" = Some v ∧ v ≠ EmptyString)
    ∧ new = LoadKubeConfig incluster
            :: match load_config w (log st) incluster with
               | Some e =>
                   [Echo ("[warn] kubeconfig not loaded: " +:+ exn_str e)
                      (Some YELLOW)]
               | None => []
               end.
Proof.
  exists (from_option Str.truthy false (environ w "KUBERNETES_SERVICE_HOST")).
  eexists. split_and!; [|
    destruct (environ w _) as [[|c v]|]; simpl;
      (split; [intros ?; try done; by eexists
              |intros (v' & ? & ?); by simplify_eq]) |reflexivity].
  unfold _kube_login_if_needed, try_except.
  set (incluster := from_option Str.truthy false _).
  assert (∀ b, match config_load w b st with
               | (st', inr x) => (st', inr x)
               | (st', inl e) =>
                   secho ("[warn] kubeconfig not loaded: " +:+ exn_str e) YELLOW st'
               end
               = (State (fs st)
                    (log st ++ LoadKubeConfig b
                       :: match load_config w (log st) b with
                          | Some e =>
                              [Echo ("[warn] kubeconfig not loaded: " +:+ exn_str e)
                                 (Some YELLOW)]
                          | None => []
                          end), inr tt)) as Hload.
  { intros b. unfold config_load, bind, get_log, emit, raise, ret, secho, emit.
    simpl. destruct (load_config w (log st) b) as [e|]; simpl; [|done].
    by rewrite <-app_assoc. }
  destruct incluster eqn:Hin; apply Hload.
Qed.

Example kube_login_warns :
  _kube_login_if_needed Lab.world_failing Demo.start
  = (State Demo.files
       [LoadKubeConfig true;
        Echo "[warn] kubeconfig not loaded: no configuration" (Some YELLOW)],
     inr tt).
Proof. reflexivity. Qed.

(** *** [oc_login] *)

Section strings_more.
Implicit Types (a b c s : string).

Lemma app_assoc_str a b c : (a +:+ b) +:+ c = a +:+ (b +:+ c).
Proof. induction a as [|x a IH]; [done|]. rewrite !app_cons. by f_equal. Qed.

Lemma app_nil_str a : a +:+ "" = a.
Proof. induction a as [|x a IH]; [done|]. rewrite app_cons. by f_equal. Qed.
End strings_more.

(** The run of [oc_login], as one equation. *)
Lemma oc_login_eq w cluster_api token insecure st :
  let which := ["which"; "oc"]%string in
  let cmd := oc_login_cmd cluster_api token insecure in
  let rc0 := subprocess_exit w (log st) which in
  let l1 := log st ++ [Spawn which rc0;
                       Echo ("Running: " +:+ Str.join " " cmd) None] in
  let rc := subprocess_exit w l1 cmd in
  oc_login w cluster_api token insecure st
  = if rc0 =? 0 then
      (State (fs st)
         (l1 ++ Spawn cmd rc
             :: if rc =? 0 then [Echo "Logged in with oc." (Some GREEN)] else []),
       if rc =? 0 then inr tt else inl (CalledProcessError rc cmd))
    else
      (State (fs st)
         (log st ++ [Spawn which rc0;
                     Echo "oc not found in PATH. Install OpenShift CLI." (Some RED)]),
       inl (Exit 1)).
Proof.
  intros which cmd rc0 l1 rc.
  unfold oc_login, _oc_available, subprocess_check_call, subprocess_call, bind,
    get_log, emit, echo, secho, emit, raise, ret. cbn [fs log].
  fold which. fold rc0. destruct (rc0 =? 0) eqn:Hrc0; cbn [negb].
  - cbn [fs log].
    assert ((if insecure
             then ["oc"; "login"; cluster_api; "--token=" +:+ token]%string
                  ++ ["--insecure-skip-tls-verify=true"%string]
             else ["oc"; "login"; cluster_api; "--token=" +:+ token]%string) = cmd)
      as -> by (unfold cmd, oc_login_cmd; destruct insecure; by rewrite ?app_nil_r).
    rewrite <-!app_assoc. cbn [app]. fold l1. fold rc.
    destruct (rc =? 0); cbn [fs log]; unfold l1; by rewrite <-!app_assoc.
  - cbn [fs log]. by rewrite <-!app_assoc.
Qed.

(** X2: [oc_login] probes for [oc] first.  Without [oc] it prints a red
    message and exits with status 1, having run no other command.  With [oc]
    it runs one [oc login] command, made of the API address, the token and,
    when asked, the flag that skips the TLS check; the command's exit status
    decides: on 0 the login is reported, otherwise the command's failure is
    the failure of [oc_login] and no login is reported.  The file system is
    not touched. *)
Theorem oc_login_run w cluster_api token insecure st :
  let which := ["which"; "oc"]%string in
  let cmd := oc_login_cmd cluster_api token insecure in
  let rc0 := subprocess_exit w (log st) which in
  ∃ new r,
    oc_login w cluster_api token insecure st = (State (fs st) (log st ++ new), r)
    ∧ answers_of w (fs st) (log st) new
    ∧ if rc0 =? 0 then
        ∃ rc,
          spawned new = [(which, 0); (cmd, rc)]
          ∧ r = (if rc =? 0 then inr tt else inl (CalledProcessError rc cmd))
          ∧ (Echo "Logged in with oc." (Some GREEN) ∈ new ↔ rc = 0)
      else
        spawned new = [(which, rc0)] ∧ r = inl (Exit 1)
        ∧ echoed new = [("oc not found in PATH. Install OpenShift CLI."%string, Some RED)].
Proof.
  intros which cmd rc0. rewrite oc_login_eq.
  fold which. fold cmd. fold rc0.
  destruct (rc0 =? 0) eqn:Hrc0.
  - apply Z.eqb_eq in Hrc0.
    set (l1 := log st ++ _). set (rc := subprocess_exit w l1 cmd).
    eexists ([Spawn which rc0; Echo ("Running: " +:+ Str.join " " cmd) None]
             ++ Spawn cmd rc
             :: if rc =? 0 then [Echo "Logged in with oc." (Some GREEN)] else []), _.
    split_and!.
    + unfold l1. by rewrite <-!app_assoc.
    + simpl. split_and!; try done.
      * unfold rc, l1. by rewrite <-app_assoc.
      * by destruct (rc =? 0).
    + exists rc. rewrite Hrc0. split_and!; [by destruct (rc =? 0)|done|].
      destruct (rc =? 0) eqn:Hrc.
      * apply Z.eqb_eq in Hrc. split; [done|]. intros _.
        do 3 right. by left.
      * apply Z.eqb_neq in Hrc. split; [|done]. intros Hin.
        by repeat (apply elem_of_cons in Hin as [?|Hin]; [done|]);
          apply elem_of_nil in Hin.
  - eexists [_; _], _. split_and!; done.
Qed.

(** X3: whenever [oc] is there, [oc_login] prints the command line it is
    about to run, and so the token in clear, before it runs it, whether the
    login succeeds or not. *)
Theorem oc_login_prints_token w cluster_api token insecure st :
  subprocess_exit w (log st) ["which"; "oc"]%string = 0 →
  ∃ before after rc,
    log (oc_login w cluster_api token insecure st).1
    = before
      ++ Echo ("Running: oc login " +:+ cluster_api +:+ " --token=" +:+ token
               +:+ (if insecure then " --insecure-skip-tls-verify=true" else ""))
           None
      :: Spawn (oc_login_cmd cluster_api token insecure) rc :: after.
Proof.
  intros Hoc. rewrite oc_login_eq, Hoc. cbn [Z.eqb].
  set (cmd := oc_login_cmd cluster_api token insecure).
  set (l1 := log st ++ _). set (rc := subprocess_exit w l1 cmd).
  exists (log st ++ [Spawn ["which"; "oc"]%string 0]),
    (if rc =? 0 then [Echo "Logged in with oc." (Some GREEN)] else []), rc.
  cbn [fst log]. unfold l1. rewrite <-!app_assoc. cbn [app].
  do 3 f_equal.
  unfold cmd, oc_login_cmd. destruct insecure; cbn [app Str.join].
  - by rewrite !app_assoc_str.
  - by rewrite app_nil_str.
Qed.

Lemma oc_login_prints_token_witness :
  ∃ before after rc,
    log (oc_login Demo.world_oc "https://api:6443" "s3cret" true Demo.start).1
    = before
      ++ Echo "Running: oc login https://api:6443 --token=s3cret --insecure-skip-tls-verify=true"
           None
      :: Spawn (oc_login_cmd "https://api:6443" "s3cret" true) rc :: after.
Proof.
  apply (oc_login_prints_token Demo.world_oc "https://api:6443" "s3cret" true
           Demo.start).
  reflexivity.
Defined.

Example oc_login_fails :
  oc_login Lab.world_failing "https://api:6443" "s3cret" false Demo.start
  = (State Demo.files
       [Spawn ["which"; "oc"]%string 0;
        Echo "Running: oc login https://api:6443 --token=s3cret" None;
        Spawn ["oc"; "login"; "https://api:6443"; "--token=s3cret"]%string 7],
     inl (CalledProcessError 7
            ["oc"; "login"; "https://api:6443"; "--token=s3cret"]%string)).
Proof. reflexivity. Qed.

(** *** [rollback], [run_playbook], [deploy] *)

(** One run of the playbook runner. *)
Lemma run_ansible_run w playbook ev st :
  let l1 := log st ++ [Echo ("> Ansible playbook: " +:+ playbook) None] in
  let rc := ansible_rc w l1 playbook ev in
  _run_ansible w playbook ev st
  = (State (fs st) (l1 ++ [AnsibleRun playbook ev rc]), inr rc).
Proof. reflexivity. Qed.

(** X4: [rollback] runs the playbook [rollback.yml] once, with the one
    variable [NAMESPACE] set to the namespace it was given.  On the exit
    status 0 it reports success and returns; on any other status it reports
    the failure and exits with that status.  The file system is not
    touched. *)
Theorem rollback_run w namespace st :
  let ev := VarsDict {["NAMESPACE"%string := namespace]} in
  let rc := ansible_rc w (log st ++ [Echo "> Ansible playbook: rollback.yml" None])
              "rollback.yml" ev in
  ∃ new,
    rollback w namespace st
    = (State (fs st) (log st ++ new), if rc =? 0 then inr tt else inl (Exit rc))
    ∧ playbook_runs new = [("rollback.yml"%string, ev, rc)]
    ∧ echoed new
      = [("> Ansible playbook: rollback.yml"%string, None);
         if rc =? 0 then ("Rollback succeeded."%string, Some GREEN)
         else ("Rollback failed"%string, Some RED)].
Proof.
  intros ev rc. unfold rollback, bind at 1. rewrite run_ansible_run.
  change ("> Ansible playbook: " +:+ "rollback.yml")
    with "> Ansible playbook: rollback.yml"%string.
  fold ev. fold rc. unfold secho, emit, raise, bind.
  destruct (rc =? 0); cbn [negb fs log]; rewrite <-!app_assoc;
    eexists; split_and!; reflexivity.
Qed.

(** X5: [run_playbook] never returns normally.  With no extra variables,
    or with the empty string for them, it runs the playbook once with an
    empty dictionary; with a string that parses, once with the parsed value.
    Each time it then exits with the exit status of the playbook, 0
    included, and the file system is not touched. *)
Theorem run_playbook_always_exits w playbook extravars_ st :
  ∃ st' e,
    run_playbook w playbook extravars_ st = (st', inl e)
    ∧ fs st' = fs st
    ∧ ∀ ev,
        match extravars_ with
        | None => ev = VarsDict ∅
        | Some s => (s = EmptyString ∧ ev = VarsDict ∅)
                    ∨ (s ≠ EmptyString ∧ ∃ j, json_loads w s = inr j ∧ ev = VarsJson j)
        end →
        let rc := ansible_rc w (log st ++ [Echo ("> Ansible playbook: " +:+ playbook) None])
                    playbook ev in
        e = Exit rc
        ∧ log st'
          = log st ++ [Echo ("> Ansible playbook: " +:+ playbook) None;
                       AnsibleRun playbook ev rc].
Proof.
  unfold run_playbook, bind at 1.
  assert (∀ ev,
    (rc ← _run_ansible w playbook ev; raise (A:=unit) (Exit rc)) st
    = (State (fs st)
         (log st ++ [Echo ("> Ansible playbook: " +:+ playbook) None;
                     AnsibleRun playbook ev
                       (ansible_rc w
                          (log st ++ [Echo ("> Ansible playbook: " +:+ playbook) None])
                          playbook ev)]),
       inl (Exit (ansible_rc w
                    (log st ++ [Echo ("> Ansible playbook: " +:+ playbook) None])
                    playbook ev)))) as Hrun.
  { intros ev. unfold bind. rewrite run_ansible_run. unfold raise.
    by rewrite <-app_assoc. }
  destruct extravars_ as [[|c s]|]; cbn [Str.truthy].
  - unfold ret at 1. rewrite Hrun. eexists _, _. split_and!; [done..|].
    intros ev [[_ ->]|[? _]]; done.
  - unfold bind at 1, lift.
    destruct (json_loads w (String c s)) as [e|j] eqn:Hj.
    + eexists _, _. split_and!; [done..|].
      intros ev [[? _]|[_ (j & ? & _)]]; done.
    + unfold ret at 1. rewrite Hrun. eexists _, _. split_and!; [done..|].
      intros ev [[? _]|[_ (j' & [= <-] & ->)]]; done.
  - unfold ret at 1. rewrite Hrun. eexists _, _. split_and!; [done..|].
    by intros ev ->.
Qed.

Example run_playbook_exit_0 :
  run_playbook Demo.world_oc "site.yml" (Some "") Demo.start
  = (State Demo.files
       [Echo "> Ansible playbook: site.yml" None;
        AnsibleRun "site.yml" (VarsDict ∅) 0],
     inl (Exit 0)).
Proof. reflexivity. Qed.

Example run_playbook_parsed :
  run_playbook Lab.world_failing "site.yml" (Some "{}") Demo.start
  = (State Demo.files
       [Echo "> Ansible playbook: site.yml" None;
        AnsibleRun "site.yml" (VarsJson (JObject [])) 4],
     inl (Exit 4)).
Proof. reflexivity. Qed.

Section deploy_lemmas.
Context (w : world).
Implicit Types (st : state) (tmpl outdir : path).

Lemma write_text_log p data st : log (write_text p data st).1 = log st.
Proof.
  unfold write_text, fs_op. by destruct (FS.write_text p data (fs st)).
Qed.

Lemma read_text_state p st : (read_text p st).1 = st.
Proof.
  unfold read_text, fs_op. destruct (FS.read_text p (fs st)); [done|].
  by destruct st.
Qed.

Lemma get_template_render_state name (vars_ : gmap string string) st :
  (get_template_render w name vars_ st).1 = st.
Proof.
  unfold get_template_render. by destruct (FS.open_read _ _).
Qed.

Lemma deploy_entry_log (vars_ : gmap string string) outdir tmpl st :
  log (deploy_entry w vars_ outdir tmpl st).1 = log st.
Proof.
  unfold deploy_entry, bind at 1, is_dir.
  destruct (FS.is_dir tmpl (fs st)); [done|].
  case_bool_decide.
  - unfold bind.
    pose proof (get_template_render_state (Path.name tmpl) vars_ st) as Hst.
    destruct (get_template_render w (Path.name tmpl) vars_ st) as [st0 [e|text]];
      cbn [fst] in Hst; subst st0; [done|]. apply write_text_log.
  - unfold bind. pose proof (read_text_state tmpl st) as Hst.
    destruct (read_text tmpl st) as [st0 [e|text]];
      cbn [fst] in Hst; subst st0; [done|]. apply write_text_log.
Qed.

Lemma deploy_loop_log (vars_ : gmap string string) outdir (entries : list path) st :
  log (for_each entries (deploy_entry w vars_ outdir) st).1 = log st.
Proof.
  revert st. induction entries as [|tmpl entries IH]; intros st; [done|].
  cbn [for_each]. unfold bind.
  pose proof (deploy_entry_log vars_ outdir tmpl st) as Hlog.
  destruct (deploy_entry w vars_ outdir tmpl st) as [st1 [e|[]]];
    cbn [fst] in Hlog; [done|]. by rewrite IH.
Qed.

Lemma ensure_dir_log p st : log (_ensure_dir p st).1 = log st.
Proof.
  unfold _ensure_dir, fs_op. by destruct (FS.mkdir_parents [] p (fs st)).
Qed.

(** The first phase of [deploy] prints nothing and calls nothing; what it
    returns are the loader's values and the build directory. *)
Lemma deploy_render_run values st st1 r :
  deploy_render w values st = (st1, r) →
  log st1 = log st
  ∧ match r with
    | inr (vars_, outdir) =>
        _load_env_values values st = (st, inr vars_) ∧ outdir = BUILD_DIR w
    | inl _ => True
    end.
Proof.
  unfold deploy_render, bind at 1.
  pose proof (load_env_values_state values st) as Hst.
  destruct (_load_env_values values st) as [st0 [e|vars_]];
    cbn [fst] in Hst; subst st0; [by intros [= <- <-]|].
  unfold bind at 1. pose proof (ensure_dir_log (BUILD_DIR w) st) as Hlog1.
  fold (BUILD_DIR w).
  destruct (_ensure_dir (BUILD_DIR w) st) as [st2 [e|[]]]; cbn [fst] in Hlog1;
    [by intros [= <- <-]|].
  unfold bind at 1, iterdir.
  destruct (FS.iterdir (MANIFEST_DIR w) (fs st2)) as [e|entries];
    [by intros [= <- <-]|].
  unfold bind.
  pose proof (deploy_loop_log vars_ (BUILD_DIR w) entries st2) as Hlog2.
  destruct (for_each entries _ st2) as [st3 [e|[]]]; cbn [fst] in Hlog2.
  - intros [= <- <-]. split; [congruence|done].
  - unfold ret. intros [= <- <-]. split; [congruence|done].
Qed.
End deploy_lemmas.

(** X6: when its rendering phase goes through, [deploy] runs the playbook
    [deploy.yml] once, and its exit status decides as for [rollback]: 0 is
    reported as success, any other status is reported and is the status
    [deploy] exits with.  The playbook gets the values of the values file
    and, under [manifest_dir], the build directory — unless the values file
    sets [manifest_dir] itself: then the playbook gets that value, whatever
    directory the manifests were rendered into. *)
Theorem deploy_runs_playbook w values st st1 vars_ outdir :
  deploy_render w values st = (st1, inr (vars_, outdir)) →
  ∃ d rc,
    deploy w values st
    = (State (fs st1)
         (log st ++ [Echo "> Ansible playbook: deploy.yml" None;
                     AnsibleRun "deploy.yml" (VarsDict d) rc;
                     if rc =? 0 then Echo "Deploy succeeded." (Some GREEN)
                     else Echo ("Deploy failed with code " +:+ pretty rc) (Some RED)]),
       if rc =? 0 then inr tt else inl (Exit rc))
    ∧ _load_env_values values st = (st, inr vars_)
    ∧ rc = ansible_rc w (log st ++ [Echo "> Ansible playbook: deploy.yml" None])
             "deploy.yml" (VarsDict d)
    ∧ d !! "manifest_dir"%string
      = Some (default (Path.str (BUILD_DIR w)) (vars_ !! "manifest_dir"%string))
    ∧ ∀ k, k ≠ "manifest_dir"%string → d !! k = vars_ !! k.
Proof.
  intros Hrender.
  destruct (deploy_render_run w values st _ _ Hrender) as (Hlog & Hload & ->).
  set (d := vars_ ∪ {["manifest_dir"%string := Path.str (BUILD_DIR w)]}).
  set (rc := ansible_rc w (log st ++ [Echo "> Ansible playbook: deploy.yml" None])
               "deploy.yml" (VarsDict d)).
  exists d, rc. split_and!; [|done|done| |].
  - unfold deploy, bind at 1. rewrite Hrender. cbv beta iota.
    unfold bind at 1. rewrite run_ansible_run. rewrite Hlog.
    change ("> Ansible playbook: " +:+ "deploy.yml")
      with "> Ansible playbook: deploy.yml"%string.
    fold d. fold rc. unfold secho, emit, raise, bind. cbn [fs log].
    destruct (rc =? 0); cbn [negb fs log]; by rewrite <-!app_assoc.
  - unfold d. rewrite lookup_union.
    destruct (vars_ !! "manifest_dir"%string) as [v|] eqn:Hv; rewrite ?Hv.
    + by rewrite lookup_singleton_eq.
    + by rewrite lookup_singleton_eq.
  - intros k Hk. unfold d. rewrite lookup_union, lookup_singleton_ne by done.
    by destruct (vars_ !! k).
Qed.

(** X7: when its rendering phase fails, [deploy] fails with the same
    error; no playbook is run and nothing has been printed. *)
Theorem deploy_failed_render w values st st1 e :
  deploy_render w values st = (st1, inl e) →
  deploy w values st = (st1, inl e) ∧ log st1 = log st.
Proof.
  intros Hrender. split.
  - unfold deploy, bind at 1. by rewrite Hrender.
  - by destruct (deploy_render_run w values st _ _ Hrender) as [Hlog _].
Qed.

Lemma deploy_runs_playbook_witness :
  let st1 := (deploy_render Lab.world_failing (Some "/vals"%string) Lab.start).1 in
  let vars_ : gmap string string :=
    <["APP"%string := "web"%string]> {["manifest_dir"%string := "/elsewhere"%string]} in
  ∃ d rc,
    deploy Lab.world_failing (Some "/vals"%string) Lab.start
    = (State (fs st1)
         (log Lab.start
            ++ [Echo "> Ansible playbook: deploy.yml" None;
                AnsibleRun "deploy.yml" (VarsDict d) rc;
                if rc =? 0 then Echo "Deploy succeeded." (Some GREEN)
                else Echo ("Deploy failed with code " +:+ pretty rc) (Some RED)]),
       if rc =? 0 then inr tt else inl (Exit rc))
    ∧ _load_env_values (Some "/vals"%string) Lab.start = (Lab.start, inr vars_)
    ∧ rc = ansible_rc Lab.world_failing
             (log Lab.start ++ [Echo "> Ansible playbook: deploy.yml" None])
             "deploy.yml" (VarsDict d)
    ∧ d !! "manifest_dir"%string
      = Some (default (Path.str (BUILD_DIR Lab.world_failing))
                (vars_ !! "manifest_dir"%string))
    ∧ ∀ k, k ≠ "manifest_dir"%string → d !! k = vars_ !! k.
Proof.
  intros st1 vars_.
  apply (deploy_runs_playbook Lab.world_failing (Some "/vals"%string) Lab.start
           st1 vars_ ["/"; "repo"; "build"; "manifests"]%string).
  apply run_inr. vm_compute. reflexivity.
Defined.

Example deploy_manifest_dir_overridden :
  playbook_runs (log (deploy Lab.world_failing (Some "/vals"%string) Lab.start).1)
  = [("deploy.yml"%string,
      VarsDict (<["APP"%string := "web"%string]>
                  {["manifest_dir"%string := "/elsewhere"%string]}), 4)]
  ∧ (deploy Lab.world_failing (Some "/vals"%string) Lab.start).2 = inl (Exit 4)
  ∧ is_file ["/"; "repo"; "build"; "manifests"; "deployment.yaml"]%string
      (fs (deploy Lab.world_failing (Some "/vals"%string) Lab.start).1) = true.
Proof. vm_compute. done. Qed.

Lemma deploy_failed_render_witness :
  deploy Demo.world_oc (Some "/nope"%string) Demo.start
  = (Demo.start, inl (FileNotFoundError ["/"; "nope"]%string))
  ∧ log Demo.start = log Demo.start.
Proof.
  apply (deploy_failed_render Demo.world_oc (Some "/nope"%string) Demo.start
           Demo.start (FileNotFoundError ["/"; "nope"]%string)).
  reflexivity.
Defined.

(** *** [_ensure_dir] *)

Section ensure_dir_lemmas.
Implicit Types (p q base todo : path) (fs : filesystem).

Lemma mkdir_keeps p fs fs' :
  FS.mkdir p fs = inr fs' →
  (∀ q data, fs !! q = Some (RegularFile data) → fs' !! q = Some (RegularFile data))
  ∧ (∀ q, FS.is_dir q fs = true → FS.is_dir q fs' = true).
Proof.
  unfold FS.mkdir, FS.is_dir.
  destruct (fs !! p) as [[es|data]|] eqn:Hp; [by intros [= <-]|done|].
  destruct (fs !! Path.parent p) as [[es|]|] eqn:Hpar; [|done..].
  intros [= <-]. split.
  - intros q data Hq. rewrite !lookup_insert_ne; [done|..]; congruence.
  - intros q. rewrite !lookup_insert. case_decide; [done|].
    case_decide; [done|done].
Qed.

Lemma mkdir_parents_keeps base todo fs fs' :
  FS.mkdir_parents base todo fs = inr fs' →
  (∀ q data, fs !! q = Some (RegularFile data) → fs' !! q = Some (RegularFile data))
  ∧ (∀ q, FS.is_dir q fs = true → FS.is_dir q fs' = true).
Proof.
  revert base fs. induction todo as [|c todo IH]; intros base fs; simpl.
  { by intros [= <-]. }
  destruct (FS.mkdir (base ++ [c]) fs) as [e|fs1] eqn:Hmk;
    [by destruct e, todo|].
  apply mkdir_keeps in Hmk as [Hf Hd]. intros [Hf' Hd']%IH. split.
  - intros q data Hq. by apply Hf', Hf.
  - intros q Hq. by apply Hd', Hd.
Qed.

(** After [mkdir_parents], every part of the way is a directory. *)
Lemma mkdir_parents_way base todo fs fs' :
  FS.mkdir_parents base todo fs = inr fs' →
  ∀ pre post, todo = pre ++ post → pre ≠ [] → FS.is_dir (base ++ pre) fs' = true.
Proof.
  revert base fs. induction todo as [|c todo IH]; intros base fs; simpl.
  { intros _ pre post Heq Hne. by destruct pre. }
  destruct (FS.mkdir (base ++ [c]) fs) as [e|fs1] eqn:Hmk;
    [by destruct e, todo|].
  intros Hrest pre post Heq Hne.
  destruct pre as [|c' pre]; [done|]. injection Heq as <- ->.
  destruct pre as [|c'' pre].
  - apply mkdir_inr in Hmk as [Hdir _].
    by apply (mkdir_parents_keeps _ _ _ _ Hrest).
  - replace (base ++ c :: c'' :: pre) with ((base ++ [c]) ++ c'' :: pre)
      by (by rewrite <-app_assoc).
    by eapply IH.
Qed.

(** On a way made of directories [mkdir_parents] has nothing to do. *)
Lemma mkdir_parents_there base todo fs :
  (∀ pre post, todo = pre ++ post → pre ≠ [] → FS.is_dir (base ++ pre) fs = true) →
  FS.mkdir_parents base todo fs = inr fs.
Proof.
  revert base. induction todo as [|c todo IH]; intros base Hway; [done|].
  simpl.
  assert (FS.mkdir (base ++ [c]) fs = inr fs) as ->.
  { specialize (Hway [c] todo eq_refl ltac:(done)).
    unfold FS.is_dir in Hway. unfold FS.mkdir.
    by destruct (fs !! (base ++ [c])) as [[]|]. }
  apply IH. intros pre post -> Hne. rewrite <-app_assoc.
  by apply (Hway (c :: pre) post).
Qed.

(** A regular file on the way stops [mkdir_parents]: it exists when it is
    the end of the way, and is no directory otherwise. *)
Lemma mkdir_parents_blocked base pre c post fs data :
  (∀ a b, pre = a ++ b → a ≠ [] → FS.is_dir (base ++ a) fs = true) →
  fs !! (base ++ pre ++ [c]) = Some (RegularFile data) →
  FS.mkdir_parents base (pre ++ c :: post) fs
  = inl (match post with
         | [] => FileExistsError (base ++ pre ++ [c])
         | _ => NotADirectoryError (base ++ pre ++ c :: post)
         end).
Proof.
  revert base. induction pre as [|a pre IH]; intros base Hway Hfile; simpl.
  - unfold FS.mkdir. simpl in Hfile. rewrite Hfile. by destruct post.
  - assert (FS.mkdir (base ++ [a]) fs = inr fs) as ->.
    { specialize (Hway [a] pre eq_refl ltac:(done)).
      unfold FS.is_dir in Hway. unfold FS.mkdir.
      by destruct (fs !! (base ++ [a])) as [[]|]. }
    rewrite (IH (base ++ [a])).
    + rewrite <-!app_assoc. done.
    + intros a' b -> Hne. rewrite <-app_assoc. by apply (Hway (a :: a') b).
    + by rewrite <-app_assoc.
Qed.
End ensure_dir_lemmas.

(** X8: when [_ensure_dir] succeeds on a path without [..] (a part the
    file system of the embedding does not resolve), the path and every part
    of the way to it are directories afterwards; every regular file is kept
    with its content and every directory stays one; what is not on the way
    is as before; and nothing is printed or called. *)
Theorem ensure_dir_makes_directories p st st' :
  ".."%string ∉ p →
  _ensure_dir p st = (st', inr tt) →
  log st' = log st
  ∧ (∀ q, q ≠ [] → q `prefix_of` p → FS.is_dir q (fs st') = true)
  ∧ (∀ q data, fs st !! q = Some (RegularFile data) →
               fs st' !! q = Some (RegularFile data))
  ∧ (∀ q, FS.is_dir q (fs st) = true → FS.is_dir q (fs st') = true)
  ∧ (∀ q, ¬ q `prefix_of` p → fs st' !! q = fs st !! q).
Proof.
  intros _. unfold _ensure_dir, fs_op.
  destruct (FS.mkdir_parents [] p (fs st)) as [e|fs'] eqn:Hmk; [done|].
  intros [= <-]. cbn [fs log].
  destruct (mkdir_parents_keeps _ _ _ _ Hmk) as [Hf Hd].
  destruct (mkdir_parents_inr _ _ _ _ Hmk) as [_ Hframe].
  split_and!; [done| |done|done|done].
  intros q Hq [k ->]. by apply (mkdir_parents_way _ _ _ _ Hmk q k).
Qed.

(** On a way made of directories [_ensure_dir] changes nothing. *)
Lemma ensure_dir_there p st :
  (∀ q, q ≠ [] → q `prefix_of` p → FS.is_dir q (fs st) = true) →
  _ensure_dir p st = (st, inr tt).
Proof.
  intros Hway. unfold _ensure_dir, fs_op.
  rewrite mkdir_parents_there; [by destruct st|].
  intros pre post -> Hne. apply Hway; [done|]. by exists post.
Qed.

(** X9: [_ensure_dir] is idempotent: after a run that succeeded, a second
    run succeeds and changes nothing; and when every part of the way was a
    directory already, the first run changed nothing either. *)
Theorem ensure_dir_idempotent p st st' :
  _ensure_dir p st = (st', inr tt) →
  _ensure_dir p st' = (st', inr tt)
  ∧ ((∀ q, q ≠ [] → q `prefix_of` p → FS.is_dir q (fs st) = true) → st' = st).
Proof.
  intros Hrun. split.
  - apply ensure_dir_there. intros q Hq [k ->].
    unfold _ensure_dir, fs_op in Hrun.
    destruct (FS.mkdir_parents [] (q ++ k) (fs st)) as [e|fs'] eqn:Hmk; [done|].
    injection Hrun as <-. cbn [fs].
    by apply (mkdir_parents_way _ _ _ _ Hmk q k).
  - intros Hway. rewrite (ensure_dir_there p st Hway) in Hrun.
    by injection Hrun as <-.
Qed.

Lemma ensure_dir_idempotent_witness :
  let p := ["/"; "repo"; "build"; "manifests"]%string in
  let st' := (_ensure_dir p Demo.start).1 in
  _ensure_dir p st' = (st', inr tt)
  ∧ ((∀ q, q ≠ [] → q `prefix_of` p → FS.is_dir q (fs Demo.start) = true) →
     st' = Demo.start).
Proof.
  intros p st'. apply (ensure_dir_idempotent p Demo.start st').
  apply run_inr. vm_compute. reflexivity.
Defined.

(** X10: a regular file on the way makes [_ensure_dir] fail and leave
    everything as it is: with [FileExistsError] when the file is at the path
    itself, with [NotADirectoryError] when it is at a part of the way
    before. *)
Theorem ensure_dir_blocked_by_file pre c post st data :
  (∀ q, q ≠ [] → q `prefix_of` pre → FS.is_dir q (fs st) = true) →
  fs st !! (pre ++ [c]) = Some (RegularFile data) →
  _ensure_dir (pre ++ c :: post) st
  = (st, inl (match post with
              | [] => FileExistsError (pre ++ [c])
              | _ => NotADirectoryError (pre ++ c :: post)
              end)).
Proof.
  intros Hway Hfile. unfold _ensure_dir, fs_op.
  rewrite (mkdir_parents_blocked [] pre c post (fs st) data); [done| |done].
  intros a b -> Hne. apply Hway; [done|]. by exists b.
Qed.

Lemma ensure_dir_makes_directories_witness :
  let p := ["/"; "repo"; "build"; "manifests"]%string in
  let st' := (_ensure_dir p Demo.start).1 in
  log st' = log Demo.start
  ∧ (∀ q, q ≠ [] → q `prefix_of` p → FS.is_dir q (fs st') = true)
  ∧ (∀ q data, fs Demo.start !! q = Some (RegularFile data) →
               fs st' !! q = Some (RegularFile data))
  ∧ (∀ q, FS.is_dir q (fs Demo.start) = true → FS.is_dir q (fs st') = true)
  ∧ (∀ q, ¬ q `prefix_of` p → fs st' !! q = fs Demo.start !! q).
Proof.
  intros p st'.
  apply (ensure_dir_makes_directories p Demo.start st').
  - apply (bool_decide_unpack _). vm_compute. exact I.
  - apply run_inr. vm_compute. reflexivity.
Defined.

Example ensure_dir_example :
  let st' := (_ensure_dir ["/"; "repo"; "build"; "manifests"]%string Demo.start).1 in
  fs Demo.start !! ["/"; "repo"; "build"]%string = None
  ∧ fs st' !! ["/"; "repo"]%string = Some (Directory ["openshift"; "build"]%string)
  ∧ fs st' !! ["/"; "repo"; "build"]%string = Some (Directory ["manifests"]%string)
  ∧ fs st' !! ["/"; "repo"; "build"; "manifests"]%string = Some (Directory []).
Proof. vm_compute. done. Qed.

Lemma ensure_dir_blocked_by_file_witness :
  _ensure_dir (["/"%string] ++ "env"%string :: ["x"%string]) Demo.start
  = (Demo.start,
     inl (NotADirectoryError (["/"%string] ++ "env"%string :: ["x"%string]))).
Proof.
  apply (ensure_dir_blocked_by_file ["/"%string] "env"%string ["x"%string]
           Demo.start
           ("A=1" +:+ Demo.nl +:+ "# note" +:+ Demo.nl +:+ " A = 2 " +:+ Demo.nl
            +:+ " =x " +:+ Demo.nl +:+ "B=u=v" +:+ Demo.nl)).
  - intros q Hq [k Hk]. destruct q as [|a [|b q]]; [done| |done].
    injection Hk as <- _. vm_compute. reflexivity.
  - vm_compute. reflexivity.
Defined.

(** ** What the commands add to the log *)

Section appends_lemmas.
Context (P : event → Prop).

Lemma appends_ret {A} (x : A) : appends P (ret x).
Proof. intros st. exists []. by rewrite app_nil_r. Qed.

Lemma appends_raise {A} e : appends P (raise (A:=A) e).
Proof. intros st. exists []. by rewrite app_nil_r. Qed.

Lemma appends_lift {A} (r : exn + A) : appends P (lift r).
Proof. intros st. exists []. by rewrite app_nil_r. Qed.

Lemma appends_get_log : appends P get_log.
Proof. intros st. exists []. by rewrite app_nil_r. Qed.

Lemma appends_emit ev : P ev → appends P (emit ev).
Proof. intros Hev st. exists [ev]. split; [done|]. by constructor. Qed.

Lemma appends_fs_op {A} (op : filesystem → exn + (filesystem * A)) :
  appends P (fs_op op).
Proof.
  intros st. exists []. rewrite app_nil_r. unfold fs_op.
  by destruct (op (fs st)) as [e|[fs' x]].
Qed.

Lemma appends_pure {A} (f : state → exn + A) : appends P (λ st, (st, f st)).
Proof. intros st. exists []. by rewrite app_nil_r. Qed.

Lemma appends_bind {A B} (m : M A) (f : A → M B) :
  appends P m → (∀ x, appends P (f x)) → appends P (bind m f).
Proof.
  intros Hm Hf st. unfold bind. destruct (Hm st) as (new & Hlog & Hnew).
  destruct (m st) as [st' [e|x]]; cbn [fst] in Hlog; [by exists new|].
  destruct (Hf x st') as (new' & Hlog' & Hnew').
  exists (new ++ new'). split; [|by apply Forall_app].
  by rewrite Hlog', Hlog, <-app_assoc.
Qed.

Lemma appends_try_except {A} (body : M A) (handler : exn → M A) :
  appends P body → (∀ e, appends P (handler e)) →
  appends P (try_except body handler).
Proof.
  intros Hm Hf st. unfold try_except. destruct (Hm st) as (new & Hlog & Hnew).
  destruct (body st) as [st' [e|x]]; cbn [fst] in Hlog; [|by exists new].
  destruct (Hf e st') as (new' & Hlog' & Hnew').
  exists (new ++ new'). split; [|by apply Forall_app].
  by rewrite Hlog', Hlog, <-app_assoc.
Qed.

Lemma appends_for_each {A} (l : list A) (body : A → M unit) :
  (∀ x, appends P (body x)) → appends P (for_each l body).
Proof.
  intros Hbody. induction l as [|x l IH]; [apply appends_ret|].
  cbn [for_each]. by apply appends_bind.
Qed.

Lemma appends_fold_each {A S} (l : list A) (body : S → A → M S) (s : S) :
  (∀ s x, appends P (body s x)) → appends P (fold_each l body s).
Proof.
  intros Hbody. revert s. induction l as [|x l IH]; intros s; [apply appends_ret|].
  cbn [fold_each]. by apply appends_bind.
Qed.

Lemma reports_final final : reports P final (emit final).
Proof.
  intros st. exists [final]. split; [done|]. by exists [].
Qed.

Lemma reports_bind {A} final (m : M A) (f : A → M unit) :
  appends P m → (∀ x, reports P final (f x)) → reports P final (bind m f).
Proof.
  intros Hm Hf st. unfold bind. destruct (Hm st) as (new & Hlog & Hnew).
  destruct (m st) as [st' [e|x]]; cbn [fst] in Hlog; [by exists new|].
  destruct (Hf x st') as (new' & Hlog' & Hnew').
  exists (new ++ new'). split; [by rewrite Hlog', Hlog, <-app_assoc|].
  destruct (f x st').2 as [e|[]].
  - by apply Forall_app.
  - destruct Hnew' as (new0 & -> & Hnew0). exists (new ++ new0).
    split; [by rewrite <-app_assoc|by apply Forall_app].
Qed.

End appends_lemmas.

Ltac appends_step :=
  lazymatch goal with
  | |- appends _ (bind _ _) => apply appends_bind; [|intros ?]
  | |- appends _ (try_except _ _) => apply appends_try_except; [|intros ?]
  | |- appends _ (for_each _ _) => apply appends_for_each; intros ?
  | |- appends _ (fold_each _ _ _) => apply appends_fold_each; intros ? ?
  | |- appends _ (emit _) => apply appends_emit; exact I
  | |- appends _ (ret _) => apply appends_ret
  | |- appends _ (raise _) => apply appends_raise
  | |- appends _ (lift _) => apply appends_lift
  | |- appends _ get_log => apply appends_get_log
  | |- appends _ (fs_op _) => apply appends_fs_op
  | |- appends _ (if ?b then _ else _) => destruct b
  | |- appends _ (match ?x with Some _ => _ | None => _ end) => destruct x
  | |- appends _ (match ?x with inl _ => _ | inr _ => _ end) => destruct x
  | |- appends _ (match ?x with [] => _ | _ :: _ => _ end) => destruct x
  | |- appends _ (let _ := _ in _) => cbv zeta
  | |- appends _ (λ st, (st, _)) => apply appends_pure
  end.

Section commands_append.
Context (w : world).

Lemma appends_echo msg : appends not_green (echo msg).
Proof. apply appends_emit. exact I. Qed.

Lemma appends_subprocess_call cmd : appends not_green (subprocess_call w cmd).
Proof. unfold subprocess_call. repeat appends_step. Qed.

Lemma appends_subprocess_check_call cmd :
  appends not_green (subprocess_check_call w cmd).
Proof.
  unfold subprocess_check_call. appends_step; [apply appends_subprocess_call|].
  repeat appends_step.
Qed.

Lemma appends_apply_with_oc mdir : appends not_green (_apply_with_oc w mdir).
Proof.
  unfold _apply_with_oc, sorted_glob, echo. repeat appends_step.
  apply appends_subprocess_check_call.
Qed.

Lemma appends_kube_login : appends not_green (_kube_login_if_needed w).
Proof.
  unfold _kube_login_if_needed, config_load, secho. repeat appends_step.
Qed.

Lemma appends_apply_with_python mdir :
  appends not_green (_apply_with_python w mdir).
Proof.
  unfold _apply_with_python. appends_step; [apply appends_kube_login|].
  unfold sorted_glob, echo, secho, utils_create_from_yaml. repeat appends_step.
Qed.

Lemma reports_apply manifests :
  reports not_green (Echo "Apply complete." (Some GREEN)) (apply w manifests).
Proof.
  unfold apply. cbv zeta.
  apply reports_bind; [unfold path_exists; appends_step|intros ex].
  apply reports_bind; [unfold secho; repeat appends_step|intros _].
  apply reports_bind.
  { unfold _oc_available. appends_step; [apply appends_subprocess_call|].
    appends_step. }
  intros oc. apply reports_bind; [|intros _; apply reports_final].
  destruct oc; [apply appends_apply_with_oc|].
  appends_step; [unfold secho; appends_step|].
  appends_step; [apply appends_apply_with_python|].
  appends_step.
  { unfold _kubectl_available. appends_step; [apply appends_subprocess_call|].
    appends_step. }
  appends_step; [apply appends_subprocess_check_call|].
  unfold secho. repeat appends_step.
Qed.
End commands_append.

Section reports_lemmas.
Context (P : event → Prop) (final : event).

(** A command that reports its end prints the final event exactly when it
    returns, and as the last one. *)
Lemma reports_iff (m : M unit) st :
  reports P final m → ¬ P final →
  ∃ new,
    log (m st).1 = log st ++ new
    ∧ ((m st).2 = inr tt ↔ final ∈ new)
    ∧ ((m st).2 = inr tt ↔ last new = Some final)
    ∧ ∀ ev, ev ∈ new → ev = final ∨ P ev.
Proof.
  intros Hm Hfinal. destruct (Hm st) as (new & Hlog & Hnew).
  exists new. split; [done|].
  destruct (m st).2 as [e|[]].
  - rewrite Forall_forall in Hnew. split_and!.
    + split; [done|]. intros Hin. by apply Hnew in Hin.
    + split; [done|]. intros Hin%last_Some_elem_of. by apply Hnew in Hin.
    + intros ev Hin. right. by apply Hnew.
  - destruct Hnew as (new0 & -> & Hnew0). rewrite Forall_forall in Hnew0.
    split_and!.
    + split; [|done]. intros _. apply elem_of_app. right. by left.
    + split; [|done]. intros _. by rewrite last_snoc.
    + intros ev [Hin|Hin%list_elem_of_singleton]%elem_of_app; [right|left]; auto.
Qed.
End reports_lemmas.

(** X11: [apply] prints the green line [Apply complete.] exactly when it
    returns normally, and then as the last thing it does; a run that fails,
    for a missing directory or in whatever tool it used, prints no green
    line. *)
Theorem apply_reports_completion w manifests st :
  let complete := Echo "Apply complete." (Some GREEN) in
  ∃ new,
    log (apply w manifests st).1 = log st ++ new
    ∧ ((apply w manifests st).2 = inr tt ↔ complete ∈ new)
    ∧ ((apply w manifests st).2 = inr tt ↔ last new = Some complete)
    ∧ ∀ ev, ev ∈ new → ev = complete ∨ not_green ev.
Proof.
  intros complete. apply reports_iff; [apply reports_apply|]. by intros [].
Qed.

Section quiet_lemmas.
Context (P : event → Prop).

(** A program that leaves the log as it is appends nothing. *)
Lemma appends_quiet {A} (m : M A) :
  (∀ st, log (m st).1 = log st) → appends P m.
Proof. intros Hm st. exists []. by rewrite app_nil_r. Qed.

Lemma appends_load_env_values values : appends P (_load_env_values values).
Proof.
  apply appends_quiet. intros st. by rewrite load_env_values_state.
Qed.

Lemma appends_ensure_dir p : appends P (_ensure_dir p).
Proof. apply appends_quiet, ensure_dir_log. Qed.

Lemma appends_write_text p data : appends P (write_text p data).
Proof. apply appends_quiet, write_text_log. Qed.

Lemma appends_read_text p : appends P (read_text p).
Proof. apply appends_quiet. intros st. by rewrite read_text_state. Qed.

Lemma appends_get_template_render w name (vars_ : gmap string string) :
  appends P (get_template_render w name vars_).
Proof.
  apply appends_quiet. intros st. by rewrite get_template_render_state.
Qed.
End quiet_lemmas.

Lemma appends_render_entry w (vars_ : gmap string string) outdir tmpl :
  appends is_cyan (render_entry w vars_ outdir tmpl).
Proof.
  unfold render_entry, is_dir. appends_step; [appends_step|].
  appends_step; [appends_step|].
  case_bool_decide.
  - appends_step; [apply appends_get_template_render|]. cbv zeta.
    appends_step; [apply appends_write_text|]. unfold secho. appends_step.
  - cbv zeta. appends_step; [apply appends_read_text|].
    appends_step; [apply appends_write_text|]. unfold secho. appends_step.
Qed.

Lemma reports_render w values outdir :
  reports is_cyan (Echo "Render complete." (Some GREEN)) (render w values outdir).
Proof.
  unfold render.
  apply reports_bind; [apply appends_load_env_values|intros vars_].
  apply reports_bind; [apply appends_ensure_dir|intros _].
  apply reports_bind; [unfold iterdir; appends_step|intros entries].
  apply reports_bind; [|intros _; apply reports_final].
  appends_step. apply appends_render_entry.
Qed.

(** X12: all [render] adds to the log are lines it prints: a cyan line for
    an entry, and the green line [Render complete.], which it prints
    exactly when it returns normally, and then last.  It runs no command and
    makes no call to the cluster or to a playbook. *)
Theorem render_reports_completion w values outdir st :
  let complete := Echo "Render complete." (Some GREEN) in
  ∃ new,
    log (render w values outdir st).1 = log st ++ new
    ∧ ((render w values outdir st).2 = inr tt ↔ complete ∈ new)
    ∧ ((render w values outdir st).2 = inr tt ↔ last new = Some complete)
    ∧ ∀ ev, ev ∈ new → ev = complete ∨ is_cyan ev.
Proof.
  intros complete. apply reports_iff; [apply reports_render|]. by intros [].
Qed.

(** ** More on [apply] *)

Section apply_more.
Context (w : world).
Implicit Types (st : state) (files pre post : list path) (yf mdir : path).

Lemma for_each_app {A} (l1 l2 : list A) (body : A → M unit) st :
  for_each (l1 ++ l2) body st
  = match for_each l1 body st with
    | (st', inr _) => for_each l2 body st'
    | (st', inl e) => (st', inl e)
    end.
Proof.
  revert st. induction l1 as [|x l1 IH]; intros st; [done|].
  cbn [app for_each]. unfold bind.
  destruct (body x st) as [st1 [e|[]]]; [done|]. apply IH.
Qed.

(** The API-client applier on entries that can all be opened. *)
Lemma apply_with_python_files mdir st :
  Forall (λ yf, is_file yf (fs st) = true) (FS.sorted_glob mdir "*.y*ml" (fs st)) →
  ∃ new,
    _apply_with_python w mdir st = (State (fs st) (log st ++ new), inr tt)
    ∧ submitted new = FS.sorted_glob mdir "*.y*ml" (fs st) ∧ spawned new = [].
Proof.
  intros Hfiles.
  destruct (kube_login_run w st) as (new0 & Hlogin & Hsub0 & Hsp0 & _).
  destruct (py_loop_spec w _ (State (fs st) (log st ++ new0)) Hfiles)
    as (new & Hloop & Hsub & Hsp & _).
  exists (new0 ++ new). split_and!.
  - unfold _apply_with_python, bind at 1. rewrite Hlogin.
    unfold bind, sorted_glob. etrans; [exact Hloop|].
    cbn [fs log]. by rewrite <-app_assoc.
  - by rewrite submitted_app, Hsub0, Hsub.
  - by rewrite spawned_app, Hsp0, Hsp.
Qed.

(** The API-client applier stopped by an entry that cannot be opened. *)
Lemma apply_with_python_stopped mdir st pre yf post e :
  FS.sorted_glob mdir "*.y*ml" (fs st) = pre ++ yf :: post →
  Forall (λ yf, is_file yf (fs st) = true) pre →
  FS.open_read yf (fs st) = inl e →
  ∃ new,
    _apply_with_python w mdir st
    = (State (fs st)
         (log st ++ new
            ++ [Echo ("Applying " +:+ Path.name yf +:+ " via Python client") None]),
       inl e)
    ∧ submitted new = pre ∧ spawned new = [].
Proof.
  intros Hglob Hpre Hopen.
  destruct (kube_login_run w st) as (new0 & Hlogin & Hsub0 & Hsp0 & _).
  destruct (py_loop_spec w pre (State (fs st) (log st ++ new0)) Hpre)
    as (new & Hloop & Hsub & Hsp & _).
  exists (new0 ++ new). split_and!.
  - unfold _apply_with_python, bind at 1. rewrite Hlogin.
    unfold bind at 1, sorted_glob. cbn [fs]. rewrite Hglob, for_each_app, Hloop.
    cbn [for_each]. unfold bind at 1.
    rewrite (py_body_open_fails w yf _ e) by done.
    cbn [fs log]. by rewrite <-!app_assoc.
  - by rewrite submitted_app, Hsub0, Hsub.
  - by rewrite spawned_app, Hsp0, Hsp.
Qed.
End apply_more.

(** X13: the API-client applier is stopped by a matched entry that cannot
    be opened, such as a directory whose name matches the pattern: the
    entries before it have been submitted, the entry has been announced, the
    error of opening it is raised, and the entries after it are not
    submitted. *)
Theorem apply_with_python_stops_at_unopenable w mdir st pre yf post e :
  FS.sorted_glob mdir "*.y*ml" (fs st) = pre ++ yf :: post →
  Forall (λ yf, is_file yf (fs st) = true) pre →
  FS.open_read yf (fs st) = inl e →
  ∃ new,
    _apply_with_python w mdir st = (State (fs st) (log st ++ new), inl e)
    ∧ submitted new = pre
    ∧ spawned new = []
    ∧ last new
      = Some (Echo ("Applying " +:+ Path.name yf +:+ " via Python client") None)
    ∧ (∀ es, fs st !! yf = Some (Directory es) → e = IsADirectoryError yf).
Proof.
  intros Hglob Hpre Hopen.
  destruct (apply_with_python_stopped w mdir st pre yf post e Hglob Hpre Hopen)
    as (new & Hrun & Hsub & Hsp).
  eexists. split_and!; [exact Hrun|..].
  - by rewrite submitted_app, Hsub, app_nil_r.
  - by rewrite spawned_app, Hsp.
  - by rewrite last_snoc.
  - intros es Hdir. unfold FS.open_read in Hopen. rewrite Hdir in Hopen.
    by injection Hopen as <-.
Qed.

(** X14: without [oc], on a directory whose matched entries are regular
    files, [apply] submits every one of them to the cluster API and then
    reports completion and returns normally, whatever the cluster answers:
    a refused manifest does not make [apply] fail, and [kubectl] is neither
    probed nor run. *)
Theorem apply_without_oc_completes w manifests st :
  let mdir := Path.of_str manifests in
  let files := FS.sorted_glob mdir "*.y*ml" (fs st) in
  let which_oc := subprocess_exit w (log st) ["which"; "oc"]%string in
  FS.exists_ mdir (fs st) = true →
  which_oc ≠ 0 →
  Forall (λ yf, is_file yf (fs st) = true) files →
  ∃ new,
    apply w manifests st = (State (fs st) (log st ++ new), inr tt)
    ∧ spawned new = [(["which"; "oc"]%string, which_oc)]
    ∧ submitted new = files
    ∧ last new = Some (Echo "Apply complete." (Some GREEN)).
Proof.
  intros mdir files which_oc Hex Hoc Hfiles.
  rewrite apply_run by done. fold mdir. fold which_oc.
  apply Z.eqb_neq in Hoc. rewrite Hoc. cbv zeta.
  set (st2 := State (fs st) _).
  destruct (apply_with_python_files w mdir st2 Hfiles) as (new & Hrun & Hsub & Hsp).
  rewrite Hrun. unfold secho, emit, st2. cbn [fs log].
  eexists ([Spawn ["which"; "oc"]%string which_oc;
            Echo "oc not found, using python client (or kubectl if present)"
              (Some YELLOW)] ++ new ++ [Echo "Apply complete." (Some GREEN)]).
  split_and!.
  - by rewrite <-!app_assoc.
  - rewrite !spawned_app, Hsp. done.
  - rewrite !submitted_app, Hsub. cbn. by rewrite app_nil_r.
  - by rewrite !app_assoc, last_snoc.
Qed.

(** X15: when the path given to [apply] exists and no entry matches the
    pattern — the directory holds no such name, or the path is a regular
    file — [apply] runs nothing but the probe for [oc], submits nothing, and
    still reports completion and returns normally. *)
Theorem apply_nothing_matched w manifests st :
  let mdir := Path.of_str manifests in
  let which_oc := subprocess_exit w (log st) ["which"; "oc"]%string in
  FS.exists_ mdir (fs st) = true →
  is_file mdir (fs st) = true ∨ FS.sorted_glob mdir "*.y*ml" (fs st) = [] →
  ∃ new,
    apply w manifests st = (State (fs st) (log st ++ new), inr tt)
    ∧ spawned new = [(["which"; "oc"]%string, which_oc)]
    ∧ submitted new = []
    ∧ last new = Some (Echo "Apply complete." (Some GREEN)).
Proof.
  intros mdir which_oc Hex Hnone.
  assert (FS.sorted_glob mdir "*.y*ml" (fs st) = []) as Hglob.
  { destruct Hnone as [Hfile|?]; [|done]. unfold is_file in Hfile.
    unfold FS.sorted_glob. by destruct (fs st !! mdir) as [[]|]. }
  rewrite apply_run by done. fold mdir. fold which_oc.
  destruct (which_oc =? 0) eqn:Hoc.
  - cbv zeta. unfold bind at 1, _apply_with_oc, bind at 1, sorted_glob.
    cbn [fs].
    exists [Spawn ["which"; "oc"]%string which_oc;
            Echo "Apply complete." (Some GREEN)].
    rewrite Hglob. cbn [for_each]. unfold ret, secho, emit. cbn [fs log].
    rewrite <-app_assoc. apply Z.eqb_eq in Hoc. by rewrite Hoc.
  - cbv zeta. set (st2 := State (fs st) _).
    destruct (apply_with_python_files w mdir st2) as (new & Hrun & Hsub & Hsp).
    { unfold st2. cbn [fs]. rewrite Hglob. constructor. }
    rewrite Hrun. unfold secho, emit, st2. cbn [fs log] in *.
    eexists ([Spawn ["which"; "oc"]%string which_oc;
              Echo "oc not found, using python client (or kubectl if present)"
                (Some YELLOW)] ++ new ++ [Echo "Apply complete." (Some GREEN)]).
    split_and!.
    + by rewrite <-!app_assoc.
    + rewrite !spawned_app, Hsp. done.
    + rewrite !submitted_app, Hsub. unfold st2. cbn [fs]. by rewrite Hglob.
    + by rewrite !app_assoc, last_snoc.
Qed.

Lemma apply_with_python_stops_at_unopenable_witness :
  let st := State Lab.mixed [] in
  let yf := ["/"; "mix"; "b.yaml"]%string in
  ∃ new,
    _apply_with_python Demo.world_bare ["/"; "mix"]%string st
    = (State (fs st) (log st ++ new), inl (IsADirectoryError yf))
    ∧ submitted new = [["/"; "mix"; "a.yaml"]%string]
    ∧ spawned new = []
    ∧ last new
      = Some (Echo ("Applying " +:+ Path.name yf +:+ " via Python client") None)
    ∧ (∀ es, fs st !! yf = Some (Directory es) →
             IsADirectoryError yf = IsADirectoryError yf).
Proof.
  intros st yf.
  apply (apply_with_python_stops_at_unopenable Demo.world_bare
           ["/"; "mix"]%string st [["/"; "mix"; "a.yaml"]%string] yf
           [["/"; "mix"; "c.yaml"]%string] (IsADirectoryError yf)).
  - vm_compute. reflexivity.
  - repeat constructor.
  - vm_compute. reflexivity.
Defined.

Lemma apply_without_oc_completes_witness :
  ∃ new,
    apply Demo.world_bare "/m" Demo.start
    = (State (fs Demo.start) (log Demo.start ++ new), inr tt)
    ∧ spawned new = [(["which"; "oc"]%string, 1)]
    ∧ submitted new = [["/"; "m"; "a.yaml"]; ["/"; "m"; "b.yaml"]]%string
    ∧ last new = Some (Echo "Apply complete." (Some GREEN)).
Proof.
  destruct (apply_without_oc_completes Demo.world_bare "/m" Demo.start)
    as (new & Hrun & Hsp & Hsub & Hlast).
  - vm_compute. reflexivity.
  - vm_compute. discriminate.
  - vm_compute. repeat constructor.
  - exists new. split_and!; [exact Hrun|exact Hsp| |exact Hlast].
    rewrite Hsub. vm_compute. reflexivity.
Defined.

Example apply_refused_manifest_completes :
  echoed (log (apply Demo.world_bare "/m" Demo.start).1)
  = [("oc not found, using python client (or kubectl if present)", Some YELLOW);
     ("Applying a.yaml via Python client", None);
     ("  warn: rejected", Some YELLOW);
     ("Applying b.yaml via Python client", None);
     ("Apply complete.", Some GREEN)]%string.
Proof. vm_compute. reflexivity. Qed.

Lemma apply_nothing_matched_witness :
  ∃ new,
    apply Demo.world_oc "/env" Demo.start
    = (State (fs Demo.start) (log Demo.start ++ new), inr tt)
    ∧ spawned new = [(["which"; "oc"]%string, 0)]
    ∧ submitted new = []
    ∧ last new = Some (Echo "Apply complete." (Some GREEN)).
Proof.
  apply (apply_nothing_matched Demo.world_oc "/env" Demo.start).
  - vm_compute. reflexivity.
  - left. vm_compute. reflexivity.
Defined.

(** ** More on the values loader *)

Section plain_lines.
Implicit Types (s a b k v line rest cur : string) (c : ascii).

Lemma rev_app_app s acc : String.rev_app s acc = String.rev s +:+ acc.
Proof.
  unfold String.rev. revert acc.
  induction s as [|c s IH]; intros acc; [done|]. simpl.
  rewrite (IH (String c acc)), (IH (String c EmptyString)).
  by rewrite app_assoc_str.
Qed.

Lemma splitlines_go_line cur line rest :
  has_char Str.islinebreak line = false →
  Str.splitlines_go cur (line +:+ String "010" rest)
  = (String.rev cur +:+ line) :: Str.splitlines_go EmptyString rest.
Proof.
  revert cur. induction line as [|c line IH]; intros cur Hline.
  - rewrite app_empty, app_nil_str. reflexivity.
  - simpl in Hline. apply orb_false_iff in Hline as [Hc Hline].
    rewrite app_cons. cbn [Str.splitlines_go].
    assert (Ascii.eqb c "013" = false) as ->.
    { apply not_true_iff_false. intros ->%eqb_true. done. }
    rewrite Hc, IH by done. f_equal.
    unfold String.rev at 1. cbn [String.rev_app].
    rewrite rev_app_app. by rewrite app_assoc_str.
Qed.

Lemma has_char_app f a b : has_char f (a +:+ b) = has_char f a || has_char f b.
Proof.
  induction a as [|c a IH]; [done|]. rewrite app_cons. simpl.
  by rewrite IH, orb_assoc.
Qed.

Lemma no_linebreak_no_cr s :
  has_char Str.islinebreak s = false → Str.contains "013" s = false.
Proof.
  induction s as [|c s IH]; [done|]. simpl.
  intros [Hc Hs]%orb_false_iff. rewrite (IH Hs), orb_false_r.
  apply not_true_iff_false. intros ->%eqb_true. done.
Qed.

Lemma rstrip_fixed s : Str.strip s = s → Str.rstrip s = s.
Proof.
  intros Hs. rewrite <-Hs at 1. unfold Str.strip.
  by rewrite rstrip_idemp.
Qed.

Lemma rstrip_app_fixed a b :
  b ≠ EmptyString → Str.rstrip b = b → Str.rstrip (a +:+ b) = a +:+ b.
Proof.
  intros Hne Hb. induction a as [|c a IH]; [done|].
  rewrite app_cons. simpl. rewrite IH.
  destruct (a +:+ b) as [|d r] eqn:Hab; [|done].
  destruct a; [|done]. by rewrite app_empty in Hab.
Qed.

(** A line [k=v] of plain parts is a well-formed line for [k] and [v]. *)
Lemma plain_line_well_formed k v :
  plain_key k → plain_value v → well_formed (k +:+ "=" +:+ v) k v.
Proof.
  intros (Hk & Heq & Hhash & _) (Hv & _).
  assert (Str.strip (k +:+ "=" +:+ v) = k +:+ "=" +:+ v) as Hline.
  { unfold Str.strip.
    assert (Str.lstrip (k +:+ "=" +:+ v) = k +:+ "=" +:+ v) as ->.
    { destruct k as [|c k']; [done|].
      rewrite app_cons. simpl.
      by rewrite (strip_head c (String c k') k' Hk). }
    apply rstrip_app_fixed; [done|].
    change ("=" +:+ v) with (String "=" v).
    rewrite rstrip_cons by done. by rewrite rstrip_fixed. }
  exists k, v. rewrite Hline. split_and!; try done.
  destruct k as [|c k']; [done|]. by rewrite app_cons.
Qed.

Lemma env_text_lines kvs :
  Forall (λ kv, plain_key kv.1 ∧ plain_value kv.2) kvs →
  Str.contains "013" (env_text kvs) = false
  ∧ Str.splitlines (env_text kvs) = (λ kv, kv.1 +:+ "=" +:+ kv.2) <$> kvs.
Proof.
  unfold Str.splitlines.
  induction 1 as [|[k v] kvs [Hk Hv] _ [IHcr IH]]; [done|].
  destruct Hk as (_ & _ & _ & Hk). destruct Hv as (_ & Hv).
  cbn [env_text fst snd] in *. split.
  - rewrite !contains_app, IHcr, !no_linebreak_no_cr by done. done.
  - change (k +:+ "=" +:+ v +:+ Demo.nl +:+ env_text kvs)
      with (k +:+ "=" +:+ v +:+ String "010" (env_text kvs)).
    rewrite <-!app_assoc_str.
    rewrite splitlines_go_line.
    + cbn [fmap list_fmap]. rewrite IH. by rewrite app_assoc_str.
    + rewrite !has_char_app, Hk, Hv. done.
Qed.

Lemma load_pure_plain kvs m :
  Forall (λ kv, plain_key kv.1 ∧ plain_value kv.2) kvs →
  load_pure ((λ kv, kv.1 +:+ "=" +:+ kv.2) <$> kvs) m
  = foldl (λ m kv, <[kv.1 := kv.2]> m) m kvs.
Proof.
  intros Hkvs. revert m.
  induction Hkvs as [|[k v] kvs [Hk Hv] _ IH]; intros m; [done|].
  cbn [fmap list_fmap foldl fst snd load_pure] in *.
  rewrite (well_formed_parse _ k v) by (by apply plain_line_well_formed).
  apply IH.
Qed.
End plain_lines.

(** A values file written the plain way is loaded back as the mapping of
    its pairs. *)
Lemma load_env_values_plain st f kvs :
  f ≠ EmptyString →
  Forall (λ kv, plain_key kv.1 ∧ plain_value kv.2) kvs →
  fs st !! Path.of_str f = Some (RegularFile (env_text kvs)) →
  _load_env_values (Some f) st = (st, inr (env_map kvs)).
Proof.
  intros Hf Hkvs Hfile.
  destruct (env_text_lines kvs Hkvs) as [Hcr Hlines].
  rewrite (load_env_values_read st f (env_text kvs)).
  - by rewrite Hlines, load_pure_plain.
  - by destruct f.
  - unfold FS.read_text, FS.open_read. rewrite Hfile.
    by rewrite universal_newlines_id.
Qed.

Lemma env_map_snoc kvs kv : env_map (kvs ++ [kv]) = <[kv.1 := kv.2]> (env_map kvs).
Proof. unfold env_map. by rewrite foldl_app. Qed.

(** X16: a values file written the plain way — one line [KEY=VALUE] for
    each pair of a list, keys and values trimmed and without line
    boundaries, keys without [=] and without [#] in front — is loaded back
    as the mapping of the list: every key of the list gets the value of its
    last pair, and the mapping has no other key. *)
Theorem load_env_values_round_trip st f kvs :
  f ≠ EmptyString →
  Forall (λ kv, plain_key kv.1 ∧ plain_value kv.2) kvs →
  fs st !! Path.of_str f = Some (RegularFile (env_text kvs)) →
  ∃ m,
    _load_env_values (Some f) st = (st, inr m)
    ∧ ∀ k, m !! k = snd <$> last (filter (λ kv, kv.1 = k) kvs).
Proof.
  intros Hf Hkvs Hfile. exists (env_map kvs).
  split; [by apply load_env_values_plain|].
  intros k. clear. induction kvs as [|[k' v'] kvs IH] using rev_ind; [done|].
  rewrite env_map_snoc, filter_app. cbn [fst snd].
  destruct (decide (k' = k)) as [->|Hne].
  - rewrite lookup_insert_eq, filter_cons_True by done.
    by rewrite filter_nil, last_snoc.
  - rewrite lookup_insert_ne, filter_cons_False by done.
    by rewrite filter_nil, app_nil_r.
Qed.

Lemma load_env_values_round_trip_witness :
  ∃ m,
    _load_env_values (Some "/vals"%string) Lab.start = (Lab.start, inr m)
    ∧ ∀ k, m !! k
           = snd <$> last (filter (λ kv, kv.1 = k)
                             [("manifest_dir", "/elsewhere"); ("APP", "web")]%string).
Proof.
  apply (load_env_values_round_trip Lab.start "/vals"
           [("manifest_dir", "/elsewhere"); ("APP", "web")]%string).
  - discriminate.
  - repeat constructor; vm_compute; reflexivity.
  - vm_compute. reflexivity.
Defined.

(** X17: the repository's test of the loader passes.  From every state in
    which [tmp_path] is a directory that holds no directory named [.env],
    [test_env_loader] writes its file and is left with a mapping in which
    [APP_NAME] is [hello] and [NAMESPACE] is [demo]: its two assertions
    hold; and the mapping holds nothing else. *)
Theorem test_env_loader_passes tmp_parts st :
  let tmp_path := "/"%string :: tmp_parts in
  Forall (λ x, Str.contains "/" x = false ∧ x ≠ EmptyString ∧ x ≠ "."%string)
    tmp_parts →
  FS.is_dir tmp_path (fs st) = true →
  FS.is_dir (tmp_path ++ [".env"%string]) (fs st) = false →
  ∃ st' vals,
    test_env_loader tmp_path st = (st', inr vals)
    ∧ vals !! "APP_NAME"%string = Some "hello"%string
    ∧ vals !! "NAMESPACE"%string = Some "demo"%string
    ∧ dom vals = {["APP_NAME"%string; "NAMESPACE"%string]}
    ∧ is_file (tmp_path ++ [".env"%string]) (fs st') = true
    ∧ log st' = log st.
Proof.
  intros tmp_path Hparts Hdir Hfree.
  set (envf := tmp_path ++ [".env"%string]).
  set (text := ("APP_NAME=hello" +:+ Demo.nl +:+ "NAMESPACE=demo" +:+ Demo.nl)%string).
  assert (Path.joinpath tmp_path ".env" = envf) as Hjoin by done.
  destruct (FS.write_text envf text (fs st)) as [e|fs'] eqn:Hwrite.
  { exfalso. unfold FS.write_text in Hwrite. unfold envf in Hwrite.
    rewrite last_snoc in Hwrite. rewrite bool_decide_eq_false_2 in Hwrite by done.
    rewrite parent_snoc in Hwrite by done.
    unfold FS.is_dir in Hdir, Hfree. fold envf in Hwrite, Hfree.
    destruct (fs st !! tmp_path) as [[es|]|]; [|done..].
    by destruct (fs st !! envf) as [[]|]. }
  pose proof (write_text_inr _ _ _ _ Hwrite) as (_ & _ & _ & Hfile & _).
  assert (Path.of_str (Path.str envf) = envf) as Hround.
  { unfold envf, tmp_path. rewrite <-app_comm_cons. apply of_str_str.
    apply Forall_app. split; [done|]. by repeat constructor. }
  exists (State fs' (log st)), (env_map [("APP_NAME", "hello"); ("NAMESPACE", "demo")]%string).
  split_and!; [|done|done| |by unfold is_file; cbn [fs]; rewrite Hfile|done].
  - unfold test_env_loader. rewrite Hjoin. cbv zeta. fold text.
    unfold bind, write_text, fs_op. rewrite Hwrite.
    apply load_env_values_plain.
    + unfold envf, tmp_path. by destruct tmp_parts as [|? [|? ?]].
    + repeat constructor; vm_compute; reflexivity.
    + cbn [fs]. by rewrite Hround.
  - apply set_eq. intros k. rewrite elem_of_dom. unfold env_map. cbn [foldl fst snd].
    rewrite elem_of_union, !elem_of_singleton.
    destruct (decide (k = "NAMESPACE"%string)) as [->|Hn].
    { rewrite lookup_insert_eq. split; [intros _; by right|intros _; by eexists]. }
    rewrite lookup_insert_ne by done.
    destruct (decide (k = "APP_NAME"%string)) as [->|Ha].
    { rewrite lookup_insert_eq. split; [intros _; by left|intros _; by eexists]. }
    rewrite lookup_insert_ne, lookup_empty by done. split; [by intros [? ?]|].
    by intros [?|?].
Qed.

Lemma test_env_loader_passes_witness :
  ∃ st' vals,
    test_env_loader ["/"%string] Demo.start = (st', inr vals)
    ∧ vals !! "APP_NAME"%string = Some "hello"%string
    ∧ vals !! "NAMESPACE"%string = Some "demo"%string
    ∧ dom vals = {["APP_NAME"%string; "NAMESPACE"%string]}
    ∧ is_file (["/"%string] ++ [".env"%string]) (fs st') = true
    ∧ log st' = log Demo.start.
Proof.
  apply (test_env_loader_passes [] Demo.start).
  - constructor.
  - vm_compute. reflexivity.
  - vm_compute. reflexivity.
Defined.

(** X18: the keys and the values of the mapping the loader returns are
    trimmed: none starts or ends with white space. *)
Theorem load_env_values_trimmed values st st' m k v :
  _load_env_values values st = (st', inr m) →
  m !! k = Some v →
  Str.strip k = k ∧ Str.strip v = v.
Proof.
  destruct values as [f|]; [|by intros [= <- <-]].
  unfold _load_env_values.
  destruct (Str.truthy f); cbn [negb]; [|by intros [= <- <-]].
  unfold bind at 1, read_text, fs_op.
  destruct (FS.read_text (Path.of_str f) (fs st)) as [e|text]; [done|].
  rewrite fold_each_load_line. intros [= <- <-] Hk.
  apply load_pure_provenance in Hk as [Hk|(line & _ & Hw)]; [done|].
  destruct Hw as (a & b & _ & _ & _ & -> & ->).
  by rewrite !strip_idemp.
Qed.

Lemma load_env_values_trimmed_witness :
  Str.strip "A" = "A"%string ∧ Str.strip "2" = "2"%string.
Proof.
  apply (load_env_values_trimmed (Some "/env"%string) Demo.start
           (_load_env_values (Some "/env"%string) Demo.start).1
           (<["A"%string := "2"%string]>
              (<[""%string := "x"%string]> {["B"%string := "u=v"%string]}))
           "A"%string "2"%string).
  - apply run_inr. vm_compute. reflexivity.
  - vm_compute. reflexivity.
Defined.

(** The error for a path that is not there is one of two: the path is not
    found, or a regular file stands at a proper part of the way to it. *)
Lemma absent_go_cases base todo p fs :
  FS.absent_go base todo p fs = FileNotFoundError p
  ∨ FS.absent_go base todo p fs = NotADirectoryError p
    ∧ ∃ pre post data,
        base ++ todo = pre ++ post ∧ post ≠ []
        ∧ fs !! pre = Some (RegularFile data).
Proof.
  revert base. induction todo as [|c todo IH]; intros base; [by left|].
  destruct todo as [|c' todo]; [by left|].
  cbn [FS.absent_go].
  destruct (fs !! (base ++ [c])) as [[es|data]|] eqn:Hc; [|right|by left].
  - destruct (IH (base ++ [c])) as [H|(H & pre & post & data & Heq & Hpost & Hpre)];
      [by left|right].
    split; [done|]. exists pre, post, data.
    split_and!; [|done..]. by rewrite <-Heq, <-app_assoc.
  - split; [done|]. exists (base ++ [c]), (c' :: todo), data.
    split_and!; [|done..]. by rewrite <-app_assoc.
Qed.

Lemma absent_cases p fs :
  FS.absent p fs = FileNotFoundError p
  ∨ FS.absent p fs = NotADirectoryError p
    ∧ ∃ pre post data,
        p = pre ++ post ∧ post ≠ [] ∧ fs !! pre = Some (RegularFile data).
Proof. apply (absent_go_cases [] p p fs). Qed.

Lemma absent_not_exit p fs c : FS.absent p fs ≠ Exit c.
Proof. by destruct (absent_cases p fs) as [->|[-> _]]. Qed.

(** X19: the loader never changes the state, and the one way it fails is
    with the error of opening the values file: FileNotFoundError for a path
    that is missing, NotADirectoryError for a missing path with a regular
    file at a proper part of the way to it, IsADirectoryError for a
    directory.  With no path, or the empty string for it, it reads nothing
    and returns the empty mapping. *)
Theorem load_env_values_failures values st :
  ∃ r,
    _load_env_values values st = (st, r)
    ∧ match r with
      | inr m => values = None ∨ values = Some EmptyString → m = ∅
      | inl e =>
          ∃ f, values = Some f ∧ f ≠ EmptyString
               ∧ FS.open_read (Path.of_str f) (fs st) = inl e
               ∧ (fs st !! Path.of_str f = None
                  ∧ e = FileNotFoundError (Path.of_str f)
                  ∨ (fs st !! Path.of_str f = None
                     ∧ e = NotADirectoryError (Path.of_str f)
                     ∧ ∃ pre post data,
                         Path.of_str f = pre ++ post ∧ post ≠ []
                         ∧ fs st !! pre = Some (RegularFile data))
                  ∨ (∃ es, fs st !! Path.of_str f = Some (Directory es))
                    ∧ e = IsADirectoryError (Path.of_str f))
      end.
Proof.
  destruct values as [[|c f]|].
  - eexists. split; [done|]. done.
  - unfold _load_env_values. cbn [Str.truthy negb].
    unfold bind at 1, read_text, fs_op, FS.read_text.
    destruct (FS.open_read (Path.of_str (String c f)) (fs st)) as [e|data] eqn:Hopen.
    + eexists. split; [done|]. exists (String c f). split_and!; [done..|].
      unfold FS.open_read in Hopen.
      destruct (fs st !! Path.of_str (String c f)) as [[es|]|] eqn:Hp.
      * injection Hopen as <-. right; right. eauto.
      * done.
      * injection Hopen as <-.
        destruct (absent_cases (Path.of_str (String c f)) (fs st))
          as [->|[-> Hfile]]; [by left|right; left; done].
    + rewrite fold_each_load_line. eexists. split; [by destruct st|].
      by intros [?|?].
  - eexists. split; [done|]. done.
Qed.

(** A values file asked for below a regular file: [/env] is one. *)
Example load_env_values_below_file :
  _load_env_values (Some "/env/x"%string) Demo.start
  = (Demo.start, inl (NotADirectoryError ["/"; "env"; "x"]%string)).
Proof. vm_compute. reflexivity. Qed.

(** ** More on [render] *)

(** X20: with a values file that cannot be opened, [render] and [deploy]
    fail with the error of opening it before they do anything else: no
    directory is made, no file is written, nothing is printed and no
    playbook is run. *)
Theorem render_deploy_values_unreadable w f outdir st e :
  f ≠ EmptyString →
  FS.open_read (Path.of_str f) (fs st) = inl e →
  render w (Some f) outdir st = (st, inl e)
  ∧ deploy w (Some f) st = (st, inl e).
Proof.
  intros Hf Hopen.
  assert (_load_env_values (Some f) st = (st, inl e)) as Hload.
  { unfold _load_env_values. destruct f; [done|]. cbn [Str.truthy negb].
    unfold bind, read_text, fs_op, FS.read_text. by rewrite Hopen. }
  split.
  - unfold render, bind at 1. by rewrite Hload.
  - unfold deploy, bind at 1, deploy_render, bind at 1. by rewrite Hload.
Qed.

Lemma render_deploy_values_unreadable_witness :
  render Demo.world_oc (Some "/nope"%string) "/out" Demo.start
  = (Demo.start, inl (FileNotFoundError ["/"; "nope"]%string))
  ∧ deploy Demo.world_oc (Some "/nope"%string) Demo.start
    = (Demo.start, inl (FileNotFoundError ["/"; "nope"]%string)).
Proof.
  apply (render_deploy_values_unreadable Demo.world_oc "/nope" "/out" Demo.start).
  - discriminate.
  - vm_compute. reflexivity.
Defined.

(** Making directories makes no regular file. *)
Lemma mkdir_no_new_file p fs fs' q data :
  FS.mkdir p fs = inr fs' →
  fs' !! q = Some (RegularFile data) → fs !! q = Some (RegularFile data).
Proof.
  unfold FS.mkdir.
  destruct (fs !! p) as [[es|]|] eqn:Hp; [by intros [= <-]|done|].
  destruct (fs !! Path.parent p) as [[es|]|] eqn:Hpar; [|done..].
  intros [= <-]. rewrite !lookup_insert.
  case_decide; [done|]. by case_decide.
Qed.

Lemma mkdir_parents_no_new_file base todo fs fs' q data :
  FS.mkdir_parents base todo fs = inr fs' →
  fs' !! q = Some (RegularFile data) → fs !! q = Some (RegularFile data).
Proof.
  revert base fs. induction todo as [|c todo IH]; intros base fs; simpl.
  { by intros [= <-]. }
  destruct (FS.mkdir (base ++ [c]) fs) as [e|fs1] eqn:Hmk;
    [by destruct e, todo|].
  intros Hrest Hq. eapply mkdir_no_new_file; [done|]. by eapply IH.
Qed.

(** X21: when the manifest source directory is missing, [render] fails on
    it after it has made the output directory: with [FileNotFoundError],
    or with [NotADirectoryError] when a regular file stands at a proper
    part of the way to the source directory.  The output directory stays
    behind, every path off the way to it is unchanged, and nothing has been
    printed. *)
Theorem render_missing_source w values outdir st vars_ st1 :
  _load_env_values values st = (st, inr vars_) →
  _ensure_dir (Path.of_str outdir) st = (st1, inr tt) →
  ¬ MANIFEST_DIR w `prefix_of` Path.of_str outdir →
  fs st !! MANIFEST_DIR w = None →
  (∃ e,
     render w values outdir st = (st1, inl e)
     ∧ (e = FileNotFoundError (MANIFEST_DIR w)
        ∨ e = NotADirectoryError (MANIFEST_DIR w)
          ∧ ∃ pre post data,
              MANIFEST_DIR w = pre ++ post ∧ post ≠ []
              ∧ fs st !! pre = Some (RegularFile data)))
  ∧ log st1 = log st
  ∧ (Path.of_str outdir ≠ [] → FS.is_dir (Path.of_str outdir) (fs st1) = true)
  ∧ ∀ q, ¬ q `prefix_of` Path.of_str outdir → fs st1 !! q = fs st !! q.
Proof.
  intros Hload Hdir Hout Hsrc.
  pose proof (ensure_dir_log (Path.of_str outdir) st) as Hlog.
  rewrite Hdir in Hlog. cbn [fst] in Hlog.
  assert (∃ fs1, FS.mkdir_parents [] (Path.of_str outdir) (fs st) = inr fs1
                 ∧ fs st1 = fs1) as (fs1 & Hmk & Hfs1).
  { unfold _ensure_dir, fs_op in Hdir.
    destruct (FS.mkdir_parents [] (Path.of_str outdir) (fs st)) as [e|fs1]; [done|].
    injection Hdir as <-. by exists fs1. }
  pose proof Hmk as Hnew.
  apply mkdir_parents_inr in Hmk as [Hisdir Hframe]. cbn [app] in Hisdir.
  rewrite <-Hfs1 in Hisdir, Hframe.
  split_and!; [|done|done|done].
  exists (FS.absent (MANIFEST_DIR w) (fs st1)). split.
  - unfold render, bind at 1. rewrite Hload. cbv beta iota.
    unfold bind at 1. rewrite Hdir. cbv beta iota.
    unfold bind at 1, iterdir, FS.iterdir. by rewrite Hframe, Hsrc.
  - destruct (absent_cases (MANIFEST_DIR w) (fs st1))
      as [->|[-> (pre & post & data & Heq & Hpost & Hpre)]]; [by left|right].
    split; [done|]. exists pre, post, data. split_and!; [done..|].
    rewrite Hfs1 in Hpre. by eapply mkdir_parents_no_new_file.
Qed.

Lemma render_missing_source_witness :
  let st := State {[ ["/"%string] := Directory ["repo"%string];
                     ["/"; "repo"]%string := RegularFile EmptyString ]} [] in
  let st1 := (_ensure_dir (Path.of_str "/out") st).1 in
  (∃ e,
     render Demo.world_oc None "/out" st = (st1, inl e)
     ∧ (e = FileNotFoundError (MANIFEST_DIR Demo.world_oc)
        ∨ e = NotADirectoryError (MANIFEST_DIR Demo.world_oc)
          ∧ ∃ pre post data,
              MANIFEST_DIR Demo.world_oc = pre ++ post ∧ post ≠ []
              ∧ fs st !! pre = Some (RegularFile data)))
  ∧ log st1 = log st
  ∧ (Path.of_str "/out" ≠ [] → FS.is_dir (Path.of_str "/out") (fs st1) = true)
  ∧ ∀ q, ¬ q `prefix_of` Path.of_str "/out" → fs st1 !! q = fs st !! q.
Proof.
  intros st st1.
  apply (render_missing_source Demo.world_oc None "/out" st ∅ st1).
  - reflexivity.
  - apply run_inr. vm_compute. reflexivity.
  - apply (bool_decide_unpack _). vm_compute. exact I.
  - vm_compute. reflexivity.
Defined.

(** The source directory asked for below a regular file. *)
Example render_source_below_file :
  let st := State {[ ["/"%string] := Directory ["repo"%string];
                     ["/"; "repo"]%string := RegularFile EmptyString ]} [] in
  (render Demo.world_oc None "/out" st).2
  = inl (NotADirectoryError (MANIFEST_DIR Demo.world_oc))
  ∧ FS.is_dir ["/"; "out"]%string (fs (render Demo.world_oc None "/out" st).1) = true.
Proof. vm_compute. done. Qed.

(** ** [render], then [apply] *)

Section render_keeps.
Context (w : world).
Implicit Types (st : state) (q tmpl : path).

Lemma write_text_keeps_dirs p data st q :
  FS.is_dir q (fs st) = true → FS.is_dir q (fs (write_text p data st).1) = true.
Proof.
  intros Hq. unfold write_text, fs_op.
  destruct (FS.write_text p data (fs st)) as [e|fs'] eqn:Hw; [done|].
  by apply write_text_inr in Hw as (_ & _ & _ & _ & _ & Hd & _); apply Hd.
Qed.

Lemma render_entry_keeps_dirs (vars_ : gmap string string) outdir tmpl st q :
  FS.is_dir q (fs st) = true →
  FS.is_dir q (fs (render_entry w vars_ outdir tmpl st).1) = true.
Proof.
  intros Hq. unfold render_entry, bind at 1, is_dir.
  destruct (FS.is_dir tmpl (fs st)); [done|].
  case_bool_decide.
  - unfold bind at 1.
    pose proof (get_template_render_state w (Path.name tmpl) vars_ st) as Hst.
    destruct (get_template_render w (Path.name tmpl) vars_ st) as [st0 [e|text]];
      cbn [fst] in Hst; subst st0; [done|].
    cbv zeta. unfold bind.
    pose proof (write_text_keeps_dirs
                  (Path.joinpath (Path.of_str outdir) (Path.stem tmpl)) text st q Hq)
      as Hw.
    by destruct (write_text _ text st) as [st1 [e|[]]].
  - cbv zeta. unfold bind at 1. pose proof (read_text_state tmpl st) as Hst.
    destruct (read_text tmpl st) as [st0 [e|text]];
      cbn [fst] in Hst; subst st0; [done|].
    unfold bind.
    pose proof (write_text_keeps_dirs
                  (Path.joinpath (Path.of_str outdir) (Path.name tmpl)) text st q Hq)
      as Hw.
    by destruct (write_text _ text st) as [st1 [e|[]]].
Qed.

Lemma render_loop_keeps_dirs (vars_ : gmap string string) outdir
    (entries : list path) st q :
  FS.is_dir q (fs st) = true →
  FS.is_dir q (fs (for_each entries (render_entry w vars_ outdir) st).1) = true.
Proof.
  revert st. induction entries as [|tmpl entries IH]; intros st Hq; [done|].
  cbn [for_each]. unfold bind.
  pose proof (render_entry_keeps_dirs vars_ outdir tmpl st q Hq) as Hstep.
  destruct (render_entry w vars_ outdir tmpl st) as [st1 [e|[]]]; [done|].
  by apply IH.
Qed.

(** After a run of [render] that succeeds the output directory is a
    directory. *)
Lemma render_leaves_directory values outdir st st' :
  Path.of_str outdir ≠ [] →
  render w values outdir st = (st', inr tt) →
  FS.is_dir (Path.of_str outdir) (fs st') = true.
Proof.
  intros Hne. unfold render, bind at 1.
  pose proof (load_env_values_state values st) as Hst.
  destruct (_load_env_values values st) as [st0 [e|vars_]];
    cbn [fst] in Hst; subst st0; [done|].
  unfold bind at 1, _ensure_dir, fs_op.
  destruct (FS.mkdir_parents [] (Path.of_str outdir) (fs st)) as [e|fs1] eqn:Hmk;
    [done|].
  apply mkdir_parents_inr in Hmk as [Hdir _]. specialize (Hdir Hne).
  unfold bind at 1, iterdir. cbn [fs].
  destruct (FS.iterdir (MANIFEST_DIR w) fs1) as [e|entries]; [done|].
  unfold bind.
  pose proof (render_loop_keeps_dirs vars_ outdir entries (State fs1 (log st))
                (Path.of_str outdir) Hdir) as Hloop.
  destruct (for_each entries _ (State fs1 (log st))) as [st2 [e|[]]]; [done|].
  unfold secho, emit. by intros [= <-].
Qed.

(** On an existing directory the first thing [apply] does is to probe for
    [oc]. *)
Lemma apply_probes_first manifests st :
  FS.exists_ (Path.of_str manifests) (fs st) = true →
  ∃ rest,
    log (apply w manifests st).1
    = log st ++ Spawn ["which"; "oc"]%string
                  (subprocess_exit w (log st) ["which"; "oc"]%string) :: rest.
Proof.
  intros Hex. rewrite apply_run by done. cbv zeta.
  set (mdir := Path.of_str manifests).
  set (which_oc := subprocess_exit w (log st) _).
  set (st1 := State (fs st) (log st ++ [Spawn _ which_oc])).
  assert (∀ (m : M unit) st0,
    reports not_green (Echo "Apply complete." (Some GREEN)) m →
    ∃ new, log (m st0).1 = log st0 ++ new) as Hext.
  { intros m st0 Hm. destruct (Hm st0) as (new & Hlog & _). eauto. }
  assert (∀ l : list event, ∃ rest,
    log st1 ++ l = log st ++ Spawn ["which"; "oc"]%string which_oc :: rest) as Hst1.
  { intros l. exists l. unfold st1. cbn [log]. by rewrite <-app_assoc. }
  destruct (which_oc =? 0).
  - destruct (Hext (_apply_with_oc w mdir;; secho "Apply complete." GREEN)%M st1)
      as (new & ->); [|apply Hst1].
    apply reports_bind; [apply appends_apply_with_oc|intros _; apply reports_final].
  - set (st2 := State (fs st) _).
    destruct (appends_apply_with_python w mdir st2) as (new & Hlog & _).
    assert (∀ l : list event, ∃ rest,
      log st2 ++ l = log st ++ Spawn ["which"; "oc"]%string which_oc :: rest)
      as Hst2.
    { intros l. unfold st2. cbn [log]. rewrite <-app_assoc. apply Hst1. }
    destruct (_apply_with_python w mdir st2) as [st3 [e|[]]]; cbn [fst] in Hlog.
    + set (which_kubectl := subprocess_exit w (log st3) _).
      destruct (which_kubectl =? 0).
      * match goal with
        | |- context [bind ?m ?f ?s] =>
            destruct (Hext (bind m f) s) as (new' & ->)
        end.
        { apply reports_bind; [apply appends_subprocess_check_call|].
          intros _. apply reports_final. }
        cbn [log]. rewrite Hlog, <-!app_assoc. apply Hst2.
      * cbn [fst log]. rewrite Hlog, <-!app_assoc. apply Hst2.
    + unfold secho, emit. cbn [fst log]. rewrite Hlog, <-app_assoc. apply Hst2.
Qed.
End render_keeps.

(** X22: [render] and [apply] meet on their defaults.  After a run of
    [render] with the default output directory that succeeds, the build
    directory is a directory, and [apply] with its default manifest
    directory finds it: it goes on to probe for [oc] and does not stop with
    its message for a missing directory. *)
Theorem render_then_apply w values st st' root_parts :
  ROOT w = "/"%string :: root_parts →
  Forall (λ x, Str.contains "/" x = false ∧ x ≠ EmptyString ∧ x ≠ "."%string)
    root_parts →
  render w values (Path.str (BUILD_DIR w)) st = (st', inr tt) →
  FS.is_dir (BUILD_DIR w) (fs st') = true
  ∧ ∃ rc rest,
      log (apply w (Path.str (BUILD_DIR w)) st').1
      = log st' ++ Spawn ["which"; "oc"]%string rc :: rest.
Proof.
  intros Hroot Hparts Hrender.
  pose proof (default_outdir w root_parts Hroot Hparts) as Hdefault.
  assert (FS.is_dir (BUILD_DIR w) (fs st') = true) as Hdir.
  { rewrite <-Hdefault. eapply render_leaves_directory; [|done].
    rewrite Hdefault. unfold BUILD_DIR, Path.joinpath.
    cbn [Str.startswith Ascii.eqb Bool.eqb]. rewrite Hroot. done. }
  split; [done|].
  destruct (apply_probes_first w (Path.str (BUILD_DIR w)) st') as [rest Hlog].
  - rewrite Hdefault. unfold FS.is_dir in Hdir. unfold FS.exists_.
    apply bool_decide_eq_true_2. by destruct (fs st' !! BUILD_DIR w).
  - eauto.
Qed.

Lemma render_then_apply_witness :
  let st' := (render Demo.world_oc None (Path.str (BUILD_DIR Demo.world_oc))
                Demo.start).1 in
  FS.is_dir (BUILD_DIR Demo.world_oc) (fs st') = true
  ∧ ∃ rc rest,
      log (apply Demo.world_oc (Path.str (BUILD_DIR Demo.world_oc)) st').1
      = log st' ++ Spawn ["which"; "oc"]%string rc :: rest.
Proof.
  intros st'.
  apply (render_then_apply Demo.world_oc None Demo.start st' ["repo"%string]).
  - reflexivity.
  - repeat constructor; done.
  - apply run_inr. vm_compute. reflexivity.
Defined.

Example render_then_apply_example :
  let st' := (render Demo.world_oc None "/repo/build/manifests" Demo.start).1 in
  spawned (log (apply Demo.world_oc "/repo/build/manifests" st').1)
  = [(["which"; "oc"], 0);
     (["oc"; "apply"; "-f"; "/repo/build/manifests/deployment.yaml"], 0)]%string.
Proof. vm_compute. reflexivity. Qed.

(** ** The lines [render] prints *)

Section render_log.
Context (w : world) (vars_ : gmap string string) (outdir : string).
Implicit Types (n : string) (st : state) (names : list string).

Local Abbreviation src := (MANIFEST_DIR w).
Local Abbreviation out := (Path.of_str outdir).
Local Abbreviation line := (λ n, Echo (render_message outdir n) (Some CYAN)).

Hypothesis out_not_inside : ¬ src `prefix_of` out.

Lemma render_entry_log n st st1 :
  Str.contains "/" n = false →
  (out ≠ [] → FS.is_dir out (fs st) = true) →
  render_entry w vars_ outdir (src ++ [n]) st = (st1, inr tt) →
  log st1 = log st ++ if Out.is_entry_file w (fs st) n then [line n] else [].
Proof.
  intros Hn Hdir. pose proof (out_path outdir n Hn) as Hpath.
  unfold render_entry, bind, is_dir, get_template_render, write_text, read_text,
    fs_op, secho, emit, ret, Path.suffix, Path.stem, Out.is_entry_file.
  rewrite (name_snoc _ _ (MANIFEST_DIR_not_nil w)).
  destruct (FS.is_dir (src ++ [n]) (fs st)); cbn [negb];
    [intros [= <-]; by rewrite app_nil_r|].
  unfold render_message. unfold Out.name in Hpath |- *.
  fold (Out.is_template n). destruct (Out.is_template n).
  - destruct (FS.open_read (src ++ [n]) (fs st)) as [e|source]; [done|].
    destruct (jinja_render w n source vars_) as [e|rendered]; [done|].
    rewrite Hpath. cbn [fs log].
    case_bool_decide.
    { by destruct (write_text_dir_fails out rendered (fs st) Hdir) as [e ->]. }
    destruct (FS.write_text _ rendered (fs st)) as [e|fs'] eqn:Hw; [done|].
    by intros [= <-].
  - destruct (FS.read_text (src ++ [n]) (fs st)) as [e|text]; [done|].
    rewrite Hpath. cbn [fs log].
    case_bool_decide.
    { by destruct (write_text_dir_fails out text (fs st) Hdir) as [e ->]. }
    destruct (FS.write_text _ text (fs st)) as [e|fs'] eqn:Hw; [done|].
    by intros [= <-].
Qed.

Lemma render_loop_log names st st' :
  (∀ n, n ∈ names → Str.contains "/" n = false) →
  (out ≠ [] → FS.is_dir out (fs st) = true) →
  for_each ((λ n, src ++ [n]) <$> names) (render_entry w vars_ outdir) st
  = (st', inr tt) →
  log st'
  = log st ++ (line <$> filter (λ n, Out.is_entry_file w (fs st) n = true) names).
Proof.
  revert st. induction names as [|n0 names IH]; intros st Hnames Hdir.
  { intros [= <-]. by rewrite app_nil_r. }
  rewrite fmap_cons. cbn [for_each]. unfold bind at 1.
  destruct (render_entry w vars_ outdir (src ++ [n0]) st) as [st1 [e|[]]] eqn:Hstep;
    [done|].
  intros Hrest.
  assert (Str.contains "/" n0 = false) as Hn0 by (apply Hnames; by left).
  assert (∀ n, n ∈ names → Str.contains "/" n = false) as Hnames'
    by (intros ??; apply Hnames; by right).
  pose proof (render_entry_log n0 st st1 Hn0 Hdir Hstep) as Hlog.
  assert ((out ≠ [] → FS.is_dir out (fs st1) = true)
          ∧ ∀ n, Out.is_entry_file w (fs st1) n = Out.is_entry_file w (fs st) n)
    as [Hdir1 Hef].
  { destruct (Out.is_entry_file w (fs st) n0) eqn:Hfile.
    - destruct (render_entry_file w vars_ outdir n0 st st1 Hn0 Hdir Hstep Hfile)
        as (text0 & _ & _ & Hframe & Hdirs & _).
      split; [intros H; by apply Hdirs, Hdir|].
      intros n. apply is_entry_file_ext.
      destruct (src_entry_not_out w outdir out_not_inside n (Out.name n0)) as [??].
      by apply Hframe.
    - pose proof (render_entry_inr w vars_ outdir n0 st st1 Hn0 Hdir Hstep) as Hfs.
      rewrite Hfile in Hfs. by rewrite Hfs. }
  rewrite (IH st1 Hnames' Hdir1 Hrest), Hlog, <-app_assoc. f_equal.
  rewrite (list_filter_iff _ (λ n, Out.is_entry_file w (fs st) n = true))
    by (intros n; by rewrite Hef).
  destruct (Out.is_entry_file w (fs st) n0) eqn:Hfile.
  - by rewrite filter_cons_True.
  - rewrite filter_cons_False; [done|]. by rewrite Hfile.
Qed.
End render_log.

(** X23: a run of [render] that succeeds, into an output directory that is
    not the source directory nor inside it, prints one cyan line for each
    entry of the source directory that is no directory, in the order of the
    listing — [Rendered] for a template and [Copied] for any other file,
    with the name of the entry and the path of its output file — and then
    the green line [Render complete.]; it adds nothing else to the log. *)
Theorem render_prints_one_line_per_file w values outdir st st' entries :
  let src := MANIFEST_DIR w in
  let out := Path.of_str outdir in
  ¬ src `prefix_of` out →
  fs st !! src = Some (Directory entries) →
  Forall (λ n, Str.contains "/" n = false) entries →
  render w values outdir st = (st', inr tt) →
  log st'
  = log st
    ++ ((λ n, Echo (render_message outdir n) (Some CYAN))
          <$> filter (λ n, Out.is_entry_file w (fs st) n = true) entries)
    ++ [Echo "Render complete." (Some GREEN)].
Proof.
  intros src out Hout Hsrc Hnames. rewrite Forall_forall in Hnames.
  subst src out.
  unfold render, bind at 1.
  pose proof (load_env_values_state values st) as Hst0.
  destruct (_load_env_values values st) as [st0 [e|vars_]];
    cbn [fst] in Hst0; subst st0; [done|].
  unfold bind at 1, _ensure_dir, fs_op.
  destruct (FS.mkdir_parents [] (Path.of_str outdir) (fs st)) as [e|fs1] eqn:Hmk;
    [done|].
  apply mkdir_parents_inr in Hmk as [Hdir Hframe]. cbn [app] in Hdir, Hframe.
  unfold bind at 1, iterdir, FS.iterdir. cbn [fs].
  rewrite (Hframe _ Hout), Hsrc.
  unfold bind.
  destruct (for_each _ _ (State fs1 (log st))) as [st2 [e|[]]] eqn:Hloop; [done|].
  apply (render_loop_log w vars_ outdir Hout) in Hloop; [|done..].
  unfold secho, emit. intros [= <-]. cbn [fs log] in *.
  rewrite Hloop, <-app_assoc. f_equal. f_equal. f_equal.
  apply list_filter_iff. intros n.
  rewrite (is_entry_file_ext w fs1 (fs st)); [done|].
  apply Hframe. intros [k Hk]. apply Hout. exists (n :: k).
  by rewrite Hk, <-app_assoc.
Qed.

Lemma render_prints_one_line_per_file_witness :
  let st' := (render Demo.world_oc None "/out" Demo.start).1 in
  log st'
  = log Demo.start
    ++ ((λ n, Echo (render_message "/out" n) (Some CYAN))
          <$> filter (λ n, Out.is_entry_file Demo.world_oc (fs Demo.start) n = true)
                ["deployment.yaml.j2"; "README.txt"; "charts"]%string)
    ++ [Echo "Render complete." (Some GREEN)].
Proof.
  intros st'.
  apply (render_prints_one_line_per_file Demo.world_oc None "/out" Demo.start st'
           ["deployment.yaml.j2"; "README.txt"; "charts"]%string).
  - apply (bool_decide_unpack _). vm_compute. exact I.
  - vm_compute. reflexivity.
  - repeat constructor.
  - apply run_inr. vm_compute. reflexivity.
Defined.

Example render_lines :
  echoed (log (render Demo.world_oc None "/out" Demo.start).1)
  = [("Rendered deployment.yaml.j2 -> /out/deployment.yaml", Some CYAN);
     ("Copied README.txt -> /out/README.txt", Some CYAN);
     ("Render complete.", Some GREEN)]%string.
Proof. vm_compute. reflexivity. Qed.

(** X24: [apply] stops with its message for a missing directory exactly
    when the path it is given does not exist: it then prints the red line
    that names the path and exits with status 1, and it has probed for no
    tool and run nothing. *)
Theorem apply_missing_directory_exit w manifests st :
  let mdir := Path.of_str manifests in
  apply w manifests st
  = (State (fs st)
       (log st ++ [Echo ("Manifests not found: " +:+ Path.str mdir) (Some RED)]),
     inl (Exit 1))
  ↔ FS.exists_ mdir (fs st) = false.
Proof.
  intros mdir. split.
  - intros Hrun. destruct (FS.exists_ mdir (fs st)) eqn:Hex; [|done].
    destruct (apply_probes_first w manifests st Hex) as [rest Hlog].
    rewrite Hrun in Hlog. cbn [fst log] in Hlog.
    by apply app_inv_head in Hlog.
  - intros Hex. unfold apply, bind at 1, path_exists. fold mdir. by rewrite Hex.
Qed.

Example apply_missing_directory_example :
  apply Demo.world_oc "/nowhere" Demo.start
  = (State Demo.files [Echo "Manifests not found: /nowhere" (Some RED)],
     inl (Exit 1)).
Proof. reflexivity. Qed.

(** The native-CLI applier fails with the failure of a command only. *)
Lemma apply_with_oc_error w mdir st st' e :
  _apply_with_oc w mdir st = (st', inl e) →
  ∃ rc cmd, e = CalledProcessError rc cmd.
Proof.
  intros Hrun.
  destruct (oc_loop_spec w (FS.sorted_glob mdir "*.y*ml" (fs st)) st)
    as (st2 & r & new & Hrun' & _ & _ & _ & _ & Hr).
  change (_apply_with_oc w mdir st = (st2, r)) in Hrun'.
  rewrite Hrun in Hrun'. injection Hrun' as <- <-.
  destruct Hr as (? & ? & ? & ? & _ & _ & -> & _). eauto.
Qed.

(** X25: [apply] leaves through [typer.Exit] only for a missing directory,
    and then with status 1: on an existing path its failures are the failed
    command of [oc] or [kubectl], or the error of opening a matched entry. *)
Theorem apply_exit_means_missing w manifests st c :
  (apply w manifests st).2 = inl (Exit c) →
  FS.exists_ (Path.of_str manifests) (fs st) = false ∧ c = 1.
Proof.
  intros Hexit. destruct (FS.exists_ (Path.of_str manifests) (fs st)) eqn:Hex.
  - exfalso. rewrite apply_run in Hexit by done. cbv zeta in Hexit.
    set (mdir := Path.of_str manifests) in *.
    destruct (_ =? 0) in Hexit.
    + unfold bind at 1 in Hexit.
      destruct (_apply_with_oc w mdir _) as [st' [e|[]]] eqn:Hrun; [|done].
      apply apply_with_oc_error in Hrun as (rc & cmd & ->).
      cbn [snd] in Hexit. done.
    + match type of Hexit with
      | context [_apply_with_python w mdir ?s] =>
          destruct (apply_with_python_any w mdir s)
            as (st3 & r & new & Hrun & _ & _ & _ & Hr)
      end.
      rewrite Hrun in Hexit. destruct r as [e|[]]; [|done].
      destruct Hr as (pre & yf & post & _ & _ & Hopen).
      assert (∀ c', e ≠ Exit c') as Hne.
      { intros c' ->. unfold FS.open_read in Hopen.
        destruct (_ !! yf) as [[]|] in Hopen; [done..|].
        injection Hopen as Hopen. by apply absent_not_exit in Hopen. }
      destruct (_ =? 0) in Hexit.
      * unfold bind at 1, subprocess_check_call, subprocess_call, bind, get_log,
          emit, ret, raise in Hexit. cbn [fs log] in Hexit.
        by destruct (_ =? 0) in Hexit.
      * cbn [snd] in Hexit. injection Hexit as ->. by eapply Hne.
  - split; [done|]. unfold apply, bind at 1, path_exists in Hexit.
    rewrite Hex in Hexit. cbn in Hexit. by injection Hexit as <-.
Qed.

Lemma apply_exit_means_missing_witness :
  FS.exists_ (Path.of_str "/nowhere") (fs Demo.start) = false ∧ 1 = 1.
Proof.
  apply (apply_exit_means_missing Demo.world_oc "/nowhere" Demo.start 1).
  reflexivity.
Defined.

(** ** What the commands keep of the file system *)

Section keeps_lemmas.

Lemma keeps_same {A} (m : M A) : (∀ st, fs (m st).1 = fs st) → keeps m.
Proof. intros Hm st p. by rewrite Hm. Qed.

Lemma keeps_ret {A} (x : A) : keeps (ret x).
Proof. by apply keeps_same. Qed.

Lemma keeps_raise {A} e : keeps (raise (A:=A) e).
Proof. by apply keeps_same. Qed.

Lemma keeps_emit ev : keeps (emit ev).
Proof. by apply keeps_same. Qed.

Lemma keeps_get_log : keeps get_log.
Proof. by apply keeps_same. Qed.

Lemma keeps_pure {A} (f : state → exn + A) : keeps (λ st, (st, f st)).
Proof. by apply keeps_same. Qed.

Lemma keeps_bind {A B} (m : M A) (f : A → M B) :
  keeps m → (∀ x, keeps (f x)) → keeps (bind m f).
Proof.
  intros Hm Hf st p. unfold bind. destruct (Hm st p) as [Hd Hf'].
  destruct (m st) as [st' [e|x]]; cbn [fst] in Hd, Hf'; [done|].
  destruct (Hf x st' p) as [Hd' Hf'']. split; auto.
Qed.

Lemma keeps_for_each {A} (l : list A) (body : A → M unit) :
  (∀ x, keeps (body x)) → keeps (for_each l body).
Proof.
  intros Hbody. induction l as [|x l IH]; [apply keeps_ret|].
  cbn [for_each]. by apply keeps_bind.
Qed.

Lemma keeps_load_env_values values : keeps (_load_env_values values).
Proof. apply keeps_same. intros st. by rewrite load_env_values_state. Qed.

Lemma keeps_read_text p : keeps (read_text p).
Proof. apply keeps_same. intros st. by rewrite read_text_state. Qed.

Lemma keeps_write_text p data : keeps (write_text p data).
Proof.
  intros st q. unfold write_text, fs_op.
  destruct (FS.write_text p data (fs st)) as [e|fs'] eqn:Hw; [done|].
  apply write_text_inr in Hw as (_ & _ & _ & _ & _ & Hd & Hf). split; auto.
Qed.

Lemma keeps_ensure_dir p : keeps (_ensure_dir p).
Proof.
  intros st q. unfold _ensure_dir, fs_op.
  destruct (FS.mkdir_parents [] p (fs st)) as [e|fs'] eqn:Hmk; [done|].
  apply mkdir_parents_keeps in Hmk as [Hf Hd]. cbn [fst fs]. split; [auto|].
  unfold is_file. destruct (fs st !! q) as [[|data]|] eqn:Hq; [done| |done].
  intros _. by rewrite (Hf q data Hq).
Qed.

Lemma keeps_get_template_render w name (vars_ : gmap string string) :
  keeps (get_template_render w name vars_).
Proof. apply keeps_same. intros st. by rewrite get_template_render_state. Qed.
End keeps_lemmas.

Ltac keeps_step :=
  lazymatch goal with
  | |- keeps (bind _ _) => apply keeps_bind; [|intros ?]
  | |- keeps (for_each _ _) => apply keeps_for_each; intros ?
  | |- keeps (emit _) => apply keeps_emit
  | |- keeps (ret _) => apply keeps_ret
  | |- keeps (raise _) => apply keeps_raise
  | |- keeps get_log => apply keeps_get_log
  | |- keeps (_load_env_values _) => apply keeps_load_env_values
  | |- keeps (_ensure_dir _) => apply keeps_ensure_dir
  | |- keeps (read_text _) => apply keeps_read_text
  | |- keeps (write_text _ _) => apply keeps_write_text
  | |- keeps (get_template_render _ _ _) => apply keeps_get_template_render
  | |- keeps (if ?b then _ else _) => destruct b
  | |- keeps (let _ := _ in _) => cbv zeta
  | |- keeps (λ st, (st, _)) => apply keeps_pure
  | |- keeps (let '(_, _) := ?x in _) => destruct x
  end.

Section commands_keep.
Context (w : world).

Lemma keeps_render values outdir : keeps (render w values outdir).
Proof.
  unfold render, render_entry, iterdir, is_dir, secho.
  repeat (keeps_step || case_bool_decide).
Qed.

Lemma keeps_deploy values : keeps (deploy w values).
Proof.
  unfold deploy, deploy_render, deploy_entry, _run_ansible, iterdir, is_dir,
    echo, secho.
  repeat (keeps_step || case_bool_decide).
Qed.
End commands_keep.

(** X26: [render] and [deploy] delete nothing.  Whatever the run does, and
    whether it succeeds or fails, every path that was a directory before is
    a directory afterwards and every path that was a regular file is a
    regular file: only contents change. *)
Theorem render_deploy_delete_nothing w values outdir st p :
  let st1 := (render w values outdir st).1 in
  let st2 := (deploy w values st).1 in
  (FS.is_dir p (fs st) = true →
   FS.is_dir p (fs st1) = true ∧ FS.is_dir p (fs st2) = true)
  ∧ (is_file p (fs st) = true →
     is_file p (fs st1) = true ∧ is_file p (fs st2) = true).
Proof.
  intros st1 st2.
  destruct (keeps_render w values outdir st p) as [Hd1 Hf1].
  destruct (keeps_deploy w values st p) as [Hd2 Hf2].
  split; intros H; split; auto.
Qed.
